(** * Serveqrew join-waitlist: a shallow embedding of the edge functions

    The repository holds Supabase edge functions, written in TypeScript
    for Deno:

    - the signup handler, in two deployments:
      [src/supabase/functions/waitlist.ts] (module [Waitlist] below) and the
      reworked one that forms the second document of [src/ref-dashboard.ts]
      (module [JoinWaitlist] below);
    - the referral leaderboard, [src/ref-leaderboard.ts] (module
      [Leaderboard]);
    - the referral dashboard, first document of [src/ref-dashboard.ts], a
      read-only handler (module [Dashboard]).

    The handlers are functions from a request to a response around calls to
    a datastore, an auth service and an email provider.  They are embedded
    as functions in a small state-and-exception monad over the two tables
    they touch; what the outside services answer during one request (clock,
    failures, generated columns) is collected in a record [World] that the
    handler receives next to the request.

    The email provider is reached through the SDK both files import,
    [resend@3.2.0].  Its [emails.send] returns a promise that resolves with
    [{ data, error }], also when the provider answers an HTTP error (then
    [data] is null and [error] is the body of the answer); the promise
    rejects only when the transport fails.  The handlers await the call and
    never read what it resolves with. *)

From Stdlib Require Import ZArith NArith List String Ascii Bool Lia.
From Stdlib Require Import Sorted Permutation.
Import ListNotations.
Local Open Scope string_scope.
Local Open Scope list_scope.
Local Open Scope Z_scope.

(* ===================================================================== *)
(** * JavaScript values used by the handlers *)
(* ===================================================================== *)

Module JS.

(** A JavaScript string supplied by a client is a sequence of UTF-16 code
    units; [length] counts code units, as [String.prototype.length] does. *)
Definition ustring := list N.

(** The code units of a literal whose characters are all below U+0100. *)
Definition u (s : string) : ustring :=
  map N_of_ascii (list_ascii_of_string s).

Fixpoint ueqb (a b : ustring) : bool :=
  match a, b with
  | [], [] => true
  | x :: a', y :: b' => N.eqb x y && ueqb a' b'
  | _, _ => false
  end.

(** ECMAScript WhiteSpace and LineTerminator code points: what
    [String.prototype.trim] strips and what [\s] matches. *)
Definition isWhiteSpace (c : N) : bool :=
  ((9 <=? c) && (c <=? 13) || (c =? 32) || (c =? 160) || (c =? 5760)
   || (8192 <=? c) && (c <=? 8202) || (c =? 8232) || (c =? 8233)
   || (c =? 8239) || (c =? 8287) || (c =? 12288) || (c =? 65279))%N.

Fixpoint trimStart (s : ustring) : ustring :=
  match s with
  | c :: r => if isWhiteSpace c then trimStart r else s
  | [] => []
  end.

Definition trimEnd (s : ustring) : ustring := rev (trimStart (rev s)).

Definition trim (s : ustring) : ustring := trimEnd (trimStart s).

(** [s.length] *)
Definition len (s : ustring) : Z := Z.of_nat (List.length s).

(** Truthiness of a string: the empty string is falsy. *)
Definition truthy (s : ustring) : bool :=
  match s with [] => false | _ => true end.

(** Truthiness of a string-or-undefined. *)
Definition truthy_opt (s : option ustring) : bool :=
  match s with Some s => truthy s | None => false end.

(** [a ?? b] *)
Definition nullish {A} (a : option A) (b : A) : A :=
  match a with Some x => x | None => b end.

(** ** Program and service messages

    Error messages, header values and the texts the services answer are
    kept as [string]: one character per code unit below U+0100 (header
    values are byte strings in the Fetch API). *)

Definition lower_ascii (a : ascii) : ascii :=
  let n := N_of_ascii a in
  if ((65 <=? n) && (n <=? 90)
      || (192 <=? n) && (n <=? 222) && negb (n =? 215))%N
  then ascii_of_N (n + 32) else a.

Fixpoint toLowerCase (s : string) : string :=
  match s with
  | EmptyString => EmptyString
  | String a r => String (lower_ascii a) (toLowerCase r)
  end.

(** [s.startsWith(p)] *)
Definition startsWith (p s : string) : bool := String.prefix p s.

(** [s.includes(p)] *)
Fixpoint includes (p s : string) : bool :=
  String.prefix p s ||
  match s with
  | EmptyString => false
  | String _ r => includes p r
  end.

(** ** Parsed JSON

    [req.json()] yields one of these.  A number only ever meets [!raw] and
    [typeof]; it is kept as an integer, every non-integer number behaving
    like a non-zero one.  An object is its list of properties, the first
    binding of a name being the property's value. *)
#[warnings="-register-all"] Inductive json : Type :=
| JNull
| JBool (b : bool)
| JNum (n : Z)
| JStr (s : ustring)
| JArr (items : list json)
| JObj (props : list (string * json)).

Fixpoint assoc (k : string) (props : list (string * json)) : option json :=
  match props with
  | [] => None
  | (k', v) :: r => if String.eqb k k' then Some v else assoc k r
  end.

(** [raw.k] for a [raw] that passed the object test: [None] is
    [undefined].  An array has none of the four names the handlers read. *)
Definition prop (k : string) (raw : json) : option json :=
  match raw with
  | JObj props => assoc k props
  | _ => None
  end.

(** [!raw] *)
Definition falsy (raw : json) : bool :=
  match raw with
  | JNull => true
  | JBool b => negb b
  | JNum n => n =? 0
  | JStr s => negb (truthy s)
  | JArr _ | JObj _ => false
  end.

(** [typeof raw === "object"] ([null] included, as in JavaScript). *)
Definition typeof_object (raw : json) : bool :=
  match raw with
  | JNull | JArr _ | JObj _ => true
  | _ => false
  end.

Definition isArray (raw : json) : bool :=
  match raw with JArr _ => true | _ => false end.

(** ** Thrown values

    What a [catch] clause can tell apart: an instance of [Error] (with its
    message; [TypeError] and [SyntaxError] are such instances) or any other
    value. *)
Inductive Thrown : Type :=
| ErrorObj (message : string)
| OtherValue.

(** Completion of a computation that may throw. *)
Inductive Completion (A : Type) : Type :=
| Normal (a : A)
| Throw (e : Thrown).
Arguments Normal {A} a.
Arguments Throw {A} e.

Definition cbind {A B} (c : Completion A) (k : A -> Completion B)
  : Completion B :=
  match c with
  | Normal a => k a
  | Throw e => Throw e
  end.

(** The [TypeError] V8 raises when a call's callee is not a function;
    [callee] is the source text of the callee. *)
Definition TypeError_not_a_function (callee : string) : Thrown :=
  ErrorObj (callee ++ " is not a function")%string.

(** ** Regular expressions

    The fragment the email pattern uses: classes, concatenation and [+],
    matched against the whole string (the pattern is anchored by [^] and
    [$]).  Matching is by Brzozowski derivatives. *)
Inductive regex : Type :=
| ReEmpty
| ReEps
| ReClass (p : N -> bool)
| ReCat (r1 r2 : regex)
| ReAlt (r1 r2 : regex)
| ReStar (r : regex).

Definition RePlus (r : regex) : regex := ReCat r (ReStar r).

Fixpoint nullable (r : regex) : bool :=
  match r with
  | ReEmpty => false
  | ReEps => true
  | ReClass _ => false
  | ReCat r1 r2 => nullable r1 && nullable r2
  | ReAlt r1 r2 => nullable r1 || nullable r2
  | ReStar _ => true
  end.

Definition cat (r1 r2 : regex) : regex :=
  match r1, r2 with
  | ReEmpty, _ => ReEmpty
  | _, ReEmpty => ReEmpty
  | ReEps, _ => r2
  | _, _ => ReCat r1 r2
  end.

Definition alt (r1 r2 : regex) : regex :=
  match r1, r2 with
  | ReEmpty, _ => r2
  | _, ReEmpty => r1
  | _, _ => ReAlt r1 r2
  end.

Fixpoint deriv (c : N) (r : regex) : regex :=
  match r with
  | ReEmpty => ReEmpty
  | ReEps => ReEmpty
  | ReClass p => if p c then ReEps else ReEmpty
  | ReCat r1 r2 =>
      alt (cat (deriv c r1) r2) (if nullable r1 then deriv c r2 else ReEmpty)
  | ReAlt r1 r2 => alt (deriv c r1) (deriv c r2)
  | ReStar r1 => cat (deriv c r1) (ReStar r1)
  end.

(** The class [[^\s@]]. *)
Definition not_space_at (c : N) : bool :=
  negb (isWhiteSpace c || (c =? 64)%N).

(** [/^r$/.test(s)] *)
Fixpoint test (r : regex) (s : ustring) : bool :=
  match s with
  | [] => nullable r
  | c :: s' => test (deriv c r) s'
  end.

(** The strings a pattern denotes: what the matcher has to decide. *)
Inductive matches : regex -> ustring -> Prop :=
| MEps : matches ReEps []
| MClass p c : p c = true -> matches (ReClass p) [c]
| MCat r1 r2 s1 s2 :
    matches r1 s1 -> matches r2 s2 -> matches (ReCat r1 r2) (s1 ++ s2)
| MAltL r1 r2 s : matches r1 s -> matches (ReAlt r1 r2) s
| MAltR r1 r2 s : matches r2 s -> matches (ReAlt r1 r2) s
| MStarNil r : matches (ReStar r) []
| MStarCons r s1 s2 :
    matches r s1 -> matches (ReStar r) s2 -> matches (ReStar r) (s1 ++ s2).

End JS.

Notation "x <~ c ;; k" := (JS.cbind c (fun x => k))
  (at level 61, c at next level, right associativity).

(* ===================================================================== *)
(** * The outside services *)
(* ===================================================================== *)

Module Services.
Import JS.

(** ** Tables *)

(** A row of [waitlist_signups] (interface [WaitlistSignup]).  The uuid is
    kept as an opaque number; [referral_count] may be null, which the
    handlers provide for with [?? 0]. *)
Record WaitlistSignup : Type := {
  id : Z;
  full_name : ustring;
  email : ustring;
  brand_name : option ustring;
  created_at : Z;
  referral_code : ustring;
  referred_by : option ustring;
  referral_count : option Z
}.

(** A row of [waitlist_rate_limits]. *)
Record RateLimit : Type := {
  ip : string;
  endpoint : string;
  rl_created_at : Z
}.

Record Store : Type := {
  waitlist_signups : list WaitlistSignup;
  waitlist_rate_limits : list RateLimit
}.

(** ** Answers of the services *)

(** The error object of a datastore call. *)
Record PgError : Type := {
  pg_message : string;
  pg_instanceof_Error : bool
}.

(** The value a rejected [resend.emails.send] throws, as far as the [catch]
    clauses look at it.  With [resend@3.2.0] the call rejects when the
    transport fails ([fetch] rejects, or the answer is no JSON); an HTTP
    error answered by the provider does not make it reject. *)
Record ProviderError : Type := {
  e_instanceof_Error : bool;
  e_status : option Z;
  e_name : option string;
  e_code : option string;
  e_message : option string
}.

(** The [error] member of what [resend.emails.send] resolves with when the
    provider answers an HTTP error: the body of that answer. *)
Record ErrorResponse : Type := {
  er_statusCode : Z;
  er_name : string;
  er_message : string
}.

(** The settled promise of [resend.emails.send]: resolved with
    [{ data, error }], of which [error] is kept here ([None] when the
    provider took the mail), or rejected with a thrown value. *)
Inductive Sent : Type :=
| Resolved (error : option ErrorResponse)
| Rejected (reason : ProviderError).

(** [{ data: linkData, error: linkError }] of [auth.admin.generateLink]. *)
Record LinkProperties : Type := { action_link : option string }.
Record LinkData : Type := { properties : option LinkProperties }.
Record LinkResult : Type := {
  linkError : bool;
  linkData : option LinkData
}.

(** What the services answer during one request.

    - [now]: the clock in milliseconds; [Date.now()] of the handler and the
      [created_at] default of the datastore are taken to agree, and the ISO
      text of [windowStart] is compared as the instant it denotes;
    - [count_error], [rate_insert_error]: the count and the insert on
      [waitlist_rate_limits] answer an error;
    - [lookup_error]: the existence lookup by email answers an error;
    - [insert_fault]: the insert of the signup is refused with this error,
      whatever the table holds (a lost race on a unique key, an outage);
    - [new_id], [new_referral_code], [new_referral_count]: the columns the
      datastore fills in for a new signup;
    - [referrer_select_error], [referrer_update_error]: the lookup and the
      update of the referral increment answer an error;
    - [link]: the answer of link generation;
    - [send_error]: what the email dispatch throws when its promise
      rejects, [None] when it resolves;
    - [send_refused]: the [error] member of what the email dispatch
      resolves with: the provider's answer when it refused the mail (over
      quota, invalid request), [None] when it took it. *)
Record World : Type := {
  now : Z;
  count_error : bool;
  rate_insert_error : bool;
  lookup_error : bool;
  insert_fault : option PgError;
  new_id : Z;
  new_referral_code : ustring;
  new_referral_count : option Z;
  referrer_select_error : bool;
  referrer_update_error : bool;
  link : LinkResult;
  send_error : option ProviderError;
  send_refused : option ErrorResponse
}.

(** ** Handler monad: table state and exceptions *)

Definition M (A : Type) : Type := Store -> Completion A * Store.

Definition ret {A} (a : A) : M A := fun st => (Normal a, st).

Definition throw {A} (e : Thrown) : M A := fun st => (Throw e, st).

Definition bind {A B} (c : M A) (k : A -> M B) : M B :=
  fun st =>
    match c st with
    | (Normal a, st') => k a st'
    | (Throw e, st') => (Throw e, st')
    end.

Definition lift {A} (c : Completion A) : M A := fun st => (c, st).

(** [try { c } catch (error) { h error }]: the tables keep what [c] wrote
    before it threw. *)
Definition try_catch {A} (c : M A) (h : Thrown -> M A) : M A :=
  fun st =>
    match c st with
    | (Normal a, st') => (Normal a, st')
    | (Throw e, st') => h e st'
    end.

(** ** Datastore calls *)

(** [.single()]: the row when the filter selects exactly one. *)
Definition single {A} (rows : list A) : option A :=
  match rows with
  | [r] => Some r
  | _ => None
  end.

Definition in_window (ip0 endpoint0 : string) (windowStart : Z)
  (r : RateLimit) : bool :=
  String.eqb (ip r) ip0 && String.eqb (endpoint r) endpoint0
  && (windowStart <=? rl_created_at r).

(** [from("waitlist_rate_limits").select("*", {count: "exact", head: true})
     .eq("ip", ip).eq("endpoint", endpoint).gte("created_at", windowStart)]:
    the pair [(count, error)]. *)
Definition count_rate_limits (w : World) (ip0 endpoint0 : string)
  (windowStart : Z) : M (option Z * bool) :=
  fun st =>
    if count_error w then (Normal (None, true), st)
    else
      (Normal (Some (Z.of_nat (List.length
         (filter (in_window ip0 endpoint0 windowStart)
                 (waitlist_rate_limits st)))), false), st).

(** [from("waitlist_rate_limits").insert({ ip, endpoint })]: the row gets
    the datastore's clock as [created_at]; the answer is [insertError]. *)
Definition insert_rate_limit (w : World) (ip0 endpoint0 : string) : M bool :=
  fun st =>
    if rate_insert_error w then (Normal true, st)
    else
      (Normal false,
       {| waitlist_signups := waitlist_signups st;
          waitlist_rate_limits :=
            waitlist_rate_limits st ++
            [{| ip := ip0; endpoint := endpoint0; rl_created_at := now w |}]
       |}).

Definition has_email (e : ustring) (r : WaitlistSignup) : bool :=
  ueqb (email r) e.

Definition has_code (c : ustring) (r : WaitlistSignup) : bool :=
  ueqb (referral_code r) c.

(** [from("waitlist_signups").select("referral_code").eq("email", e)
     .single()]: [data]. *)
Definition select_by_email (w : World) (e : ustring)
  : M (option WaitlistSignup) :=
  fun st =>
    if lookup_error w then (Normal None, st)
    else (Normal (single (filter (has_email e) (waitlist_signups st))), st).

Definition dquote : string := String (ascii_of_nat 34) EmptyString.

(** The error of a unique-constraint violation (SQLSTATE 23505): the
    message PostgreSQL gives, in the plain object the client hands back. *)
Definition unique_violation (constraint : string) : PgError :=
  {| pg_message :=
       ("duplicate key value violates unique constraint "
          ++ dquote ++ constraint ++ dquote)%string;
     pg_instanceof_Error := false |}.

(** [from("waitlist_signups").insert({ full_name, email, brand_name,
     referred_by }).select("referral_code").single()]: the new row or the
    error.  The datastore enforces uniqueness of [email] and of
    [referral_code] and fills in the other columns. *)
Definition insert_signup (w : World) (full_name0 email0 : ustring)
  (brand_name0 referred_by0 : option ustring)
  : M (WaitlistSignup + PgError) :=
  fun st =>
    match insert_fault w with
    | Some err => (Normal (inr err), st)
    | None =>
        if existsb (has_email email0) (waitlist_signups st) then
          (Normal (inr (unique_violation "waitlist_signups_email_key")), st)
        else if existsb (has_code (new_referral_code w))
                        (waitlist_signups st) then
          (Normal (inr (unique_violation
                          "waitlist_signups_referral_code_key")), st)
        else
          let row := {| id := new_id w;
                        full_name := full_name0;
                        email := email0;
                        brand_name := brand_name0;
                        created_at := now w;
                        referral_code := new_referral_code w;
                        referred_by := referred_by0;
                        referral_count := new_referral_count w |} in
          (Normal (inl row),
           {| waitlist_signups := waitlist_signups st ++ [row];
              waitlist_rate_limits := waitlist_rate_limits st |})
    end.

(** [from("waitlist_signups").select("referral_count")
     .eq("referral_code", c).single()]: the pair [(data, error)]. *)
Definition select_referrer (w : World) (c : ustring)
  : M (option WaitlistSignup * bool) :=
  fun st =>
    if referrer_select_error w then (Normal (None, true), st)
    else
      match single (filter (has_code c) (waitlist_signups st)) with
      | Some r => (Normal (Some r, false), st)
      | None => (Normal (None, true), st)
      end.

Definition set_count (n : Z) (r : WaitlistSignup) : WaitlistSignup :=
  {| id := id r;
     full_name := full_name r;
     email := email r;
     brand_name := brand_name r;
     created_at := created_at r;
     referral_code := referral_code r;
     referred_by := referred_by r;
     referral_count := Some n |}.

(** [from("waitlist_signups").update({ referral_count: n })
     .eq("referral_code", c)]: [updateError]. *)
Definition update_referral_count (w : World) (c : ustring) (n : Z) : M bool :=
  fun st =>
    if referrer_update_error w then (Normal true, st)
    else
      (Normal false,
       {| waitlist_signups :=
            map (fun r => if has_code c r then set_count n r else r)
                (waitlist_signups st);
          waitlist_rate_limits := waitlist_rate_limits st |}).

(** [auth.admin.generateLink({ type: "magiclink", ... })] *)
Definition generateLink (w : World) : M LinkResult :=
  fun st => (Normal (link w), st).

(** [resend.emails.send(...)]: the settled promise.  It rejects with
    [send_error w] when there is one; otherwise it resolves, with the
    provider's error as [error] when the provider refused the mail.  The
    text of the message sent plays no part in the handlers' answers and is
    left out. *)
Definition resend_emails_send (w : World) : M Sent :=
  fun st =>
    (Normal match send_error w with
            | Some e => Rejected e
            | None => Resolved (send_refused w)
            end, st).

(** What a [catch] receives when the email dispatch throws. *)
Definition thrown_of_provider (e : ProviderError) : Thrown :=
  if e_instanceof_Error e then ErrorObj (nullish (e_message e) "")
  else OtherValue.

(** ** Requests and responses *)

Inductive Payload : Type :=
| Json (raw : json)
| Malformed (syntax_error : string).

Record Request : Type := {
  method : string;
  content_type : option string;
  x_forwarded_for : option string;
  x_real_ip : option string;
  payload : Payload
}.

(** [await req.json()] *)
Definition req_json (req : Request) : M json :=
  match payload req with
  | Json raw => ret raw
  | Malformed m => throw (ErrorObj m)
  end.

(** A response: its status and the members of its JSON body. *)
Record Response : Type := {
  status : Z;
  error : option string;
  message : option string;
  field : option string
}.

Definition respond (st_code : Z) (err msg fld : option string) : Response :=
  {| status := st_code; error := err; message := msg; field := fld |}.

End Services.

Notation "x <- c ;; k" := (Services.bind c (fun x => k))
  (at level 61, c at next level, right associativity).

(* ===================================================================== *)
(** * The signup handler of [src/ref-dashboard.ts] (second document) *)
(* ===================================================================== *)

Module JoinWaitlist.
Import JS Services.

Definition REFERRAL_BASE_URL : string := "https://serveqrew.org".
Definition DASHBOARD_URL : string := "https://serveqrew.org/dashboard".

Definition MAX_FULL_NAME_LENGTH : Z := 50.
Definition MAX_EMAIL_LENGTH : Z := 200.
Definition MAX_BRAND_NAME_LENGTH : Z := 70.

(** [/^[^\s@]+@[^\s@]+\.[^\s@]+$/] *)
Definition EMAIL_REGEX : regex :=
  ReCat (RePlus (ReClass not_space_at))
    (ReCat (ReClass (N.eqb 64))
       (ReCat (RePlus (ReClass not_space_at))
          (ReCat (ReClass (N.eqb 46))
             (RePlus (ReClass not_space_at))))).

Definition WINDOW_MS : Z := 120000.
Definition MAX_REQUESTS : Z := 5.
Definition ENDPOINT : string := "join-waitlist".

Definition OK : Z := 200.
Definition CREATED : Z := 201.
Definition NO_CONTENT : Z := 204.
Definition BAD_REQUEST : Z := 400.
Definition METHOD_NOT_ALLOWED : Z := 405.
Definition CONFLICT : Z := 409.
Definition UNPROCESSABLE_ENTITY : Z := 422.
Definition TOO_MANY_REQUESTS : Z := 429.
Definition INTERNAL_SERVER_ERROR : Z := 500.
Definition NOT_IMPLEMENTED : Z := 501.
Definition BAD_GATEWAY : Z := 502.
Definition SERVICE_UNAVAILABLE : Z := 503.

(** [interface WaitlistSignupRequestBody]; an optional member is
    [undefined] when [None]. *)
Record WaitlistSignupRequestBody : Type := {
  b_full_name : ustring;
  b_email : ustring;
  b_brand_name : option ustring;
  b_ref : option ustring
}.

Definition handleCors (req : Request) : option Response :=
  if String.eqb (method req) "OPTIONS" then
    Some (respond NO_CONTENT None None None)
  else if negb (String.eqb (method req) "POST") then
    Some (respond METHOD_NOT_ALLOWED (Some "method_not_allowed")
            (Some "Only POST method is allowed.") None)
  else None.

Definition checkRateLimit (w : World) (ip0 : string) : M bool :=
  let windowStart := now w - WINDOW_MS in
  r <- count_rate_limits w ip0 ENDPOINT windowStart ;;
  let '(count, selectError) := r in
  if selectError : bool then ret true (* Fail open *)
  else if nullish count 0 >=? MAX_REQUESTS then ret false
  else
    insertError <- insert_rate_limit w ip0 ENDPOINT ;;
    ret true.

Definition validateHeaders (req : Request) : Completion unit :=
  match content_type req with
  | Some contentType =>
      if includes "application/json" (toLowerCase contentType)
      then Normal tt
      else Throw (ErrorObj "invalid_content_type")
  | None => Throw (ErrorObj "invalid_content_type")
  end.

(** [v?.trim()]: [undefined] for a missing or null member, the trimmed
    string for a string; any other value has no [trim] and the call
    throws. *)
Definition optional_trim (callee : string) (v : option json)
  : Completion (option ustring) :=
  match v with
  | None | Some JNull => Normal None
  | Some (JStr s) => Normal (Some (trim s))
  | Some _ => Throw (TypeError_not_a_function callee)
  end.

Definition validateBody (raw : json) : Completion WaitlistSignupRequestBody :=
  if falsy raw || negb (typeof_object raw) || isArray raw then
    Throw (ErrorObj "invalid_body")
  else
    full_name <~ optional_trim "raw.full_name?.trim" (prop "full_name" raw) ;;
    email <~ optional_trim "raw.email?.trim" (prop "email" raw) ;;
    brand_name <~
      optional_trim "raw.brand_name?.trim" (prop "brand_name" raw) ;;
    ref <~ optional_trim "raw.ref?.trim" (prop "ref" raw) ;;
    if negb (truthy_opt full_name) then Throw (ErrorObj "full_name_required")
    else if negb (truthy_opt email) then Throw (ErrorObj "email_required")
    else
      let full_name := nullish full_name [] in
      let email := nullish email [] in
      if len full_name >? MAX_FULL_NAME_LENGTH then
        Throw (ErrorObj "full_name_too_long")
      else if len email >? MAX_EMAIL_LENGTH then
        Throw (ErrorObj "email_too_long")
      else if truthy_opt brand_name
              && (len (nullish brand_name []) >? MAX_BRAND_NAME_LENGTH) then
        Throw (ErrorObj "brand_name_too_long")
      else if negb (test EMAIL_REGEX email) then
        Throw (ErrorObj "invalid_email_format")
      else
        Normal {| b_full_name := full_name; b_email := email;
                  b_brand_name := brand_name; b_ref := ref |}.

Definition handleReferralIncrement (w : World) (refCode : option ustring)
  : M unit :=
  if negb (truthy_opt refCode) then ret tt
  else
    let refCode := nullish refCode [] in
    r <- select_referrer w refCode ;;
    let '(referrer, selectError) := r in
    match selectError, referrer with
    | false, Some referrer =>
        updateError <-
          update_referral_count w refCode
            (nullish (referral_count referrer) 0 + 1) ;;
        ret tt
    | _, _ => ret tt
    end.

(** [sendConfirmationEmail(fullName, email, referralLink, magicLink)]: one
    call of [resend.emails.send], awaited; what it resolves with is
    dropped ([Promise<void>]). *)
Definition sendConfirmationEmail (w : World) : M Sent :=
  resend_emails_send w.

Definition internal_server_error : Response :=
  respond INTERNAL_SERVER_ERROR (Some "internal_server_error")
    (Some "Something went wrong. Please try again later.") None.

Definition handleError (error : Thrown) : Response :=
  match error with
  | ErrorObj message =>
      let msg := toLowerCase message in
      if String.eqb msg "invalid_content_type" then
        respond 415 (Some "invalid_content_type")
          (Some "Content-Type must be application/json") None
      else if includes "required" msg then
        let field :=
          if includes "full_name" msg then "Full Name"
          else if includes "email" msg then "Email" else "Field" in
        respond BAD_REQUEST (Some "missing_field")
          (Some (field ++ " is required")%string) (Some (toLowerCase field))
      else if includes "too_long" msg then
        let field :=
          if includes "full_name" msg then "Full Name"
          else if includes "email" msg then "Email" else "Brand Name" in
        respond BAD_REQUEST (Some "field_too_long")
          (Some (field ++ " is too long. Please shorten it.")%string)
          (Some (toLowerCase field))
      else if String.eqb msg "invalid_email_format" then
        respond UNPROCESSABLE_ENTITY (Some "invalid_email")
          (Some "Please enter a valid email address.") None
      else if String.eqb message "magic_link_error" then
        respond SERVICE_UNAVAILABLE (Some "magic_link_error")
          (Some "Joined waitlist but magic link failed. Check your email or contact support.")
          None
      else if String.eqb message "email_quota_exceeded" then
        respond NOT_IMPLEMENTED (Some "email_quota_exceeded")
          (Some "Joined waitlist but daily email quota reached. Check back in 24 hours.")
          None
      else if String.eqb message "email_send_failed" then
        respond BAD_GATEWAY (Some "email_send_failed")
          (Some "Joined waitlist but email failed. Please contact support.")
          None
      else internal_server_error
  | OtherValue => internal_server_error
  end.

(** [linkData?.properties?.action_link], as a truth value. *)
Definition has_action_link (linkData : option LinkData) : bool :=
  match linkData with
  | Some d =>
      match properties d with
      | Some p =>
          match action_link p with
          | Some l => negb (String.eqb l "")
          | None => false
          end
      | None => false
      end
  | None => false
  end.

(** The condition of the [catch (emailError)] clause. *)
Definition is_quota_error (emailError : ProviderError) : bool :=
  match e_status emailError with Some s => s =? 429 | None => false end
  || match e_message emailError with
     | Some m => includes "quota" m
     | None => false
     end
  || match e_code emailError with
     | Some c => String.eqb c "daily_quota_exceeded"
     | None => false
     end.

Definition pg_thrown (e : PgError) : Thrown :=
  if pg_instanceof_Error e then ErrorObj (pg_message e) else OtherValue.

(** The handler's [try] block is given in four parts, named after the
    comments that head them in the source. *)

(** "Existing user => resend magic link." *)
Definition existing_user (w : World) : M Response :=
  l <- generateLink w ;;
  if negb (has_action_link (linkData l)) then
    throw (ErrorObj "Failed to generate magic link.")
  else
    sent <- resend_emails_send w ;;
    match sent with
    | Rejected emailError => throw (thrown_of_provider emailError)
    | Resolved _ =>
        ret (respond OK None
               (Some "Dashboard magic link has been sent to your email.")
               None)
    end.

(** "Generate links", "Send email" and "Success". *)
Definition confirm (w : World) : M Response :=
  l <- generateLink w ;;
  if linkError l || negb (has_action_link (linkData l)) then
    throw (ErrorObj "magic_link_error")
  else
    sent <- sendConfirmationEmail w ;;
    match sent with
    | Rejected emailError =>
        if is_quota_error emailError then
          throw (ErrorObj "email_quota_exceeded")
        else throw (ErrorObj "email_send_failed")
    | Resolved _ =>
        ret (respond CREATED None
               (Some "Successfully joined waitlist! Check your email for confirmation, might take some minutes before you receive it.")
               None)
    end.

(** "New user = insert + magic link." and "Referral handling". *)
Definition new_user (w : World) (body : WaitlistSignupRequestBody)
  : M Response :=
  ins <- insert_signup w (b_full_name body) (b_email body)
           (b_brand_name body) (b_ref body) ;;
  match ins with
  | inr insertError =>
      if includes "duplicate" (toLowerCase (pg_message insertError)) then
        ret (respond CONFLICT (Some "duplicate_entry")
               (Some "This email is already on the waitlist. Check your spam folder.")
               None)
      else throw (pg_thrown insertError)
  | inl data =>
      _ <- handleReferralIncrement w (b_ref body) ;;
      confirm w
  end.

(** "Database operations." *)
Definition database_operations (w : World) (body : WaitlistSignupRequestBody)
  : M Response :=
  existingProfile <- select_by_email w (b_email body) ;;
  match existingProfile with
  | Some existingProfile => existing_user w
  | None => new_user w body
  end.

(** The [try] block: "Request validation", then the database operations. *)
Definition signup (w : World) (req : Request) : M Response :=
  _ <- lift (validateHeaders req) ;;
  raw <- req_json req ;;
  body <- lift (validateBody raw) ;;
  database_operations w body.

(** [req.headers.get("x-forwarded-for") ?? req.headers.get("x-real-ip")
     ?? "unknown"] *)
Definition client_ip (req : Request) : string :=
  nullish (x_forwarded_for req) (nullish (x_real_ip req) "unknown").

Definition serve (w : World) (req : Request) : M Response :=
  match handleCors req with
  | Some corsResponse => ret corsResponse
  | None =>
      rateLimitOk <- checkRateLimit w (client_ip req) ;;
      if negb rateLimitOk then
        ret (respond TOO_MANY_REQUESTS (Some "rate_limit_exceeded")
               (Some "Too many requests. Please wait 2 minutes.") None)
      else
        try_catch (signup w req) (fun error => ret (handleError error))
  end.

End JoinWaitlist.

(* ===================================================================== *)
(** * The signup handler of [src/supabase/functions/waitlist.ts] *)
(* ===================================================================== *)

Module Waitlist.
Import JS Services.

Definition WINDOW_MS : Z := 120000.
Definition MAX_REQUESTS : Z := 5.

Record WaitlistSignupRequestBody : Type := {
  b_full_name : ustring;
  b_email : ustring;
  b_brand_name : option ustring;
  b_ref : option ustring
}.

Definition checkRateLimit (w : World) (ip0 endpoint0 : string) : M bool :=
  let windowStart := now w - WINDOW_MS in
  r <- count_rate_limits w ip0 endpoint0 windowStart ;;
  let '(count, error) := r in
  if error : bool then ret true
  else if nullish count 0 >=? MAX_REQUESTS then ret false
  else
    insertError <- insert_rate_limit w ip0 endpoint0 ;;
    ret true.

Definition validateCors (req : Request) : option Response :=
  if String.eqb (method req) "OPTIONS" then
    Some (respond 204 None None None)
  else if negb (String.eqb (method req) "POST") then
    Some (respond 405 (Some "method_not_allowed")
            (Some "Only POST method is allowed on this endpoint.") None)
  else None.

Definition validateHeaders (req : Request) : Completion unit :=
  if negb (String.eqb (method req) "POST") then Normal tt
  else
    match content_type req with
    | Some contentType =>
        if startsWith "application/json" (toLowerCase contentType)
        then Normal tt
        else Throw (ErrorObj "invalid_content_type")
    | None => Throw (ErrorObj "invalid_content_type")
    end.

(** [typeof v === "string" ? v.trim() : d] *)
Definition trim_if_string {A} (v : option json) (some : ustring -> A) (d : A)
  : A :=
  match v with
  | Some (JStr s) => some (trim s)
  | _ => d
  end.

(** [/^[^\s@]+@[^\s@]+\.[^\s@]+$/] *)
Definition emailRegex : regex :=
  ReCat (RePlus (ReClass not_space_at))
    (ReCat (ReClass (N.eqb 64))
       (ReCat (RePlus (ReClass not_space_at))
          (ReCat (ReClass (N.eqb 46))
             (RePlus (ReClass not_space_at))))).

Definition validateWaitlistBody (raw : json)
  : Completion WaitlistSignupRequestBody :=
  if falsy raw || negb (typeof_object raw) then
    Throw (ErrorObj "Invalid_body")
  else
    let full_name := trim_if_string (prop "full_name" raw) (fun s => s) [] in
    let email := trim_if_string (prop "email" raw) (fun s => s) [] in
    let brand_name := trim_if_string (prop "brand_name" raw) Some None in
    let ref := trim_if_string (prop "ref" raw) Some None in
    (* Required fields. *)
    if negb (truthy full_name) then
      Throw (ErrorObj "Full_name field is required.")
    else if negb (truthy email) then
      Throw (ErrorObj "Email field is required.")
    (* Length checks. *)
    else if len full_name >? 35 then
      Throw (ErrorObj "Full_name exceeds 35 chars.")
    else if len email >? 50 then
      Throw (ErrorObj "Email exceeds 50 chars.")
    else if truthy_opt brand_name && (len (nullish brand_name []) >? 50) then
      Throw (ErrorObj "Brand_name exceeds 50 chars.")
    (* Email format check. *)
    else if negb (test emailRegex email) then
      Throw (ErrorObj "Invalid_email_format")
    else
      Normal {| b_full_name := full_name; b_email := email;
                b_brand_name := brand_name; b_ref := ref |}.

(** Step 4e of the handler: increment the referrer's count if [ref] is
    present. *)
Definition increment_referrer (w : World) (ref : option ustring) : M unit :=
  if truthy_opt ref then
    let ref := nullish ref [] in
    r <- select_referrer w ref ;;
    let '(refUser, refSelectError) := r in
    match refSelectError, refUser with
    | false, Some refUser =>
        refUpdateError <-
          update_referral_count w ref
            (nullish (referral_count refUser) 0 + 1) ;;
        ret tt
    | _, _ => ret tt
    end
  else ret tt.

(** The condition of the [catch] clause around the email dispatch. *)
Definition is_quota_error (error : ProviderError) : bool :=
  match e_status error with Some s => s =? 429 | None => false end
  && (match e_name error with
      | Some n => String.eqb n "daily_quota_exceeded"
      | None => false
      end
      || match e_code error with
         | Some c => String.eqb c "daily_quota_exceeded"
         | None => false
         end
      || match e_message error with
         | Some m => includes "daily email quota" m
         | None => false
         end).

(** The handler's [try] block is given in three parts, named after the
    steps the source numbers. *)

(** Steps 4f to 4i: links, confirmation email, success response. *)
Definition confirm (w : World) : M Response :=
  l <- generateLink w ;;
  match linkError l, linkData l with
  | false, Some linkData =>
      match properties linkData with
      | None =>
          throw (ErrorObj
            "Cannot read properties of null (reading 'action_link')")
      | Some p =>
          sent <- resend_emails_send w ;;
          match sent with
          | Rejected error =>
              if is_quota_error error then
                throw (ErrorObj "email_quota_exceeded")
              else throw (ErrorObj "email_send_failed")
          | Resolved _ =>
              ret (respond 201 None
                     (Some "You have successfully joined the waitlist🤓. A confirmation email with your referral and dashboard link has been sent to you.🫶")
                     None)
          end
      end
  | _, _ => throw (ErrorObj "magic_link_error")
  end.

(** Steps 4d and 4e: insertion, referral increment. *)
Definition insert_and_confirm (w : World) (body : WaitlistSignupRequestBody)
  : M Response :=
  ins <- insert_signup w (b_full_name body) (b_email body)
           (b_brand_name body) (b_ref body) ;;
  match ins with
  | inr insertError =>
      if includes "duplicate" (toLowerCase (pg_message insertError)) then
        ret (respond 409 (Some "duplicate_entry")
               (Some "This email is already on the waitlist. If you did not get an email, please check your spam or promotions folder in your email or try again later or best still contact support.")
               None)
      else
        ret (respond 500 (Some "db_error")
               (Some "Could not join the waitlist rn. Please do try again later.🙏🏿")
               None)
  | inl data =>
      _ <- increment_referrer w (b_ref body) ;;
      confirm w
  end.

(** The [try] block: steps 4a to 4c validate, then the rest. *)
Definition signup (w : World) (req : Request) : M Response :=
  _ <- lift (validateHeaders req) ;;
  rawBody <- req_json req ;;
  body <- lift (validateWaitlistBody rawBody) ;;
  insert_and_confirm w body.

(** The handler's [catch] clause. *)
Definition on_error (error : Thrown) : Response :=
  match error with
  | ErrorObj message =>
      if String.eqb message "invalid_content_type" then
        respond 415 (Some "invalid_content_type")
          (Some "Content-Type must be application/json.") None
      else if startsWith "Full_" message || startsWith "Email" message
              || startsWith "Brand_" message then
        respond 400 (Some "invalid_request_body")
          (Some "Full name, email, or brand name field is invalid.") None
      else if String.eqb message "Invalid_email_format" then
        respond 422 (Some "invalid_email")
          (Some "Sorry buh your Email address is not real or valid, please do well to input a valid one.")
          None
      else if String.eqb message "magic_link_error" then
        respond 503 (Some "magic_link_error")
          (Some "You have joined the waitlist buh we could not create your magic link rn. Please contact support if you did not get an email especially with a magic link in it.")
          None
      else if String.eqb message "email_quota_exceeded" then
        respond 501 (Some "email_quota_exceeded")
          (Some "You have joined the waitist  buh our email quota for today is full, please check after 24 hours. If you still haven't received an email contact support.")
          None
      else if String.eqb message "email_send_failed" then
        respond 502 (Some "email_send_failed")
          (Some "You have joined the waitlist buh we couldn't send your confirmation email rn. Please contact support to fix this issue.")
          None
      else
        respond 500 (Some "internal_server_error")
          (Some "An internal server error occured, please try again later.🙏🏿")
          None
  | OtherValue =>
      respond 500 (Some "internal_server_error")
        (Some "An internal server error occured, please try again later.🙏🏿")
        None
  end.

Definition client_ip (req : Request) : string :=
  nullish (x_forwarded_for req) (nullish (x_real_ip req) "unknown").

Definition endpoint_name : string := "join-waitlist".

Definition serve (w : World) (req : Request) : M Response :=
  match validateCors req with
  | Some corsResponse => ret corsResponse
  | None =>
      allowed <- checkRateLimit w (client_ip req) endpoint_name ;;
      if negb allowed then
        ret (respond 429 (Some "rate_limit_exceeded")
               (Some "Too many requests. Please try again after 2 minutes.🙏🏿")
               None)
      else
        try_catch (signup w req) (fun error => ret (on_error error))
  end.

End Waitlist.

(* ===================================================================== *)
(** * The leaderboard handler of [src/ref-leaderboard.ts] *)
(* ===================================================================== *)

Module Leaderboard.
Import JS.

(** A row of the view [waitlist_leaderboard], with the three selected
    columns; [referral_count] is a number, as [interface WaitlistSignup]
    declares it. *)
Record Row : Type := {
  full_name : ustring;
  referral_code : ustring;
  referral_count : Z
}.

(** [{ ...user, rank }] *)
Record Entry : Type := {
  user : Row;
  rank : Z
}.

(** What the datastore holds and answers during one request. *)
Record World : Type := {
  waitlist_leaderboard : list Row;
  query_error : option string
}.

Inductive Body : Type :=
| Text (t : string)
| Message (m : string)
| Error (e : string)
| Board (leaderboard : list Entry).

Record Response : Type := {
  status : Z;
  body : Body
}.

Definition HTTP_405_METHOD_NOT_ALLOWED : Z := 405.
Definition HTTP_400_SOMETHING_WENT_WRONG : Z := 400.
Definition HTTP_200_SUCCESS : Z := 200.

(** [.order("referral_count", { ascending: false })]: a stable sort, rows
    of equal count staying in the order the view has them. *)
Fixpoint insert_desc (r : Row) (l : list Row) : list Row :=
  match l with
  | [] => [r]
  | x :: l' =>
      if referral_count x <=? referral_count r then r :: l
      else x :: insert_desc r l'
  end.

Fixpoint order_desc (l : list Row) : list Row :=
  match l with
  | [] => []
  | r :: l' => insert_desc r (order_desc l')
  end.

(** [from("waitlist_leaderboard").select(...).order(...).limit(10)]:
    [data] or [error]. *)
Definition query (w : World) : list Row + string :=
  match query_error w with
  | Some e => inr e
  | None => inl (firstn 10 (order_desc (waitlist_leaderboard w)))
  end.

(** [data.map((user, index) => f(user, index))], from index [i] on. *)
Fixpoint map_index {A B} (f : A -> nat -> B) (i : nat) (l : list A) : list B :=
  match l with
  | [] => []
  | x :: l' => f x i :: map_index f (S i) l'
  end.

Definition serve (w : World) (method : string) : Response :=
  if String.eqb method "OPTIONS" then
    {| status := 200; body := Text "ok" |}
  else if negb (String.eqb method "GET") then
    {| status := HTTP_405_METHOD_NOT_ALLOWED;
       body := Message "Method not allowed. Use GET only." |}
  else
    match query w with
    | inr error =>
        {| status := HTTP_400_SOMETHING_WENT_WRONG; body := Error error |}
    | inl data =>
        let leaderboard :=
          map_index (fun user index =>
                       {| user := user; rank := Z.of_nat index + 1 |})
                    0%nat data in
        {| status := HTTP_200_SUCCESS; body := Board leaderboard |}
    end.

End Leaderboard.

(* ===================================================================== *)
(** * The dashboard handler of [src/ref-dashboard.ts] (first document) *)
(* ===================================================================== *)

Module Dashboard.
Import JS Services.

Definition HTTP_204_OK : Z := 204.
Definition HTTP_405_METHOD_NOT_ALLOWED : Z := 405.
Definition HTTP_401_UNAUTHORIZED : Z := 401.
Definition HTTP_404_PROFILE_NOT_FOUND : Z := 404.
Definition HTTP_200_SUCCESSFUL : Z := 200.
Definition HTTP_500_INTERNAL_SERVER_ERROR : Z := 500.

(** The user the auth service resolves a token to; [email] is optional in
    its type. *)
Record User : Type := { user_email : option ustring }.

(** [{ data: { user }, error: authError }] of [auth.getUser]. *)
Record AuthResult : Type := {
  user : option User;
  authError : bool
}.

(** What the services answer during one request: the auth service, asked
    with a token (it answers or throws), and whether the two reads of
    [waitlist_signups] answer an error. *)
Record World : Type := {
  getUser : string -> Completion AuthResult;
  profile_error : bool;
  referrals_error : bool
}.

Record Request : Type := {
  method : string;
  authorization : option string
}.

(** The [profile] member of the answer. *)
Record Profile : Type := {
  name : ustring;
  brand : option ustring;
  code : ustring;
  referrals : Z;
  joined : Z;
  shareLink : ustring
}.

(** An item of [recentReferrals]. *)
Record Referral : Type := {
  r_name : ustring;
  r_brand : option ustring;
  r_email : ustring;
  r_joined : Z
}.

Inductive Body : Type :=
| NoBody
| Text (t : string)
| Error (e : string)
| Success (profile : Profile) (recentReferrals : list Referral).

Record Response : Type := {
  status : Z;
  body : Body
}.

(** [s.slice(n)] *)
Fixpoint slice (n : nat) (s : string) : string :=
  match n, s with
  | O, _ => s
  | S n', String _ r => slice n' r
  | S _, EmptyString => EmptyString
  end.

(** [from("waitlist_signups").select(...).eq("email", e).single()]: the
    pair [(data, error)]. *)
Definition select_profile (w : World) (e : ustring) (st : Store)
  : option WaitlistSignup * bool :=
  if profile_error w then (None, true)
  else
    match single (filter (has_email e) (waitlist_signups st)) with
    | Some r => (Some r, false)
    | None => (None, true)
    end.

Definition referred_by_code (c : ustring) (r : WaitlistSignup) : bool :=
  match referred_by r with
  | Some b => ueqb b c
  | None => false
  end.

(** [.order("created_at", { ascending: false })]: a stable sort. *)
Fixpoint insert_recent (r : WaitlistSignup) (l : list WaitlistSignup)
  : list WaitlistSignup :=
  match l with
  | [] => [r]
  | x :: l' =>
      if created_at x <=? created_at r then r :: l
      else x :: insert_recent r l'
  end.

Fixpoint order_recent (l : list WaitlistSignup) : list WaitlistSignup :=
  match l with
  | [] => []
  | r :: l' => insert_recent r (order_recent l')
  end.

(** [from("waitlist_signups").select(...).eq("referred_by", c)
     .order("created_at", { ascending: false }).limit(50)]: [data], null
    when the read fails. *)
Definition select_referrals (w : World) (c : ustring) (st : Store)
  : option (list WaitlistSignup) :=
  if referrals_error w then None
  else Some (firstn 50 (order_recent
               (filter (referred_by_code c) (waitlist_signups st)))).

(** [n || 0] for a number or null. *)
Definition or_zero (n : option Z) : Z :=
  match n with
  | Some n => if n =? 0 then 0 else n
  | None => 0
  end.

Definition referral_view (r : WaitlistSignup) : Referral :=
  {| r_name := full_name r; r_brand := brand_name r; r_email := email r;
     r_joined := created_at r |}.

(** The body of the handler's [try] block. *)
Definition dashboard (w : World) (req : Request) (st : Store)
  : Completion Response :=
  match authorization req with
  | Some authHeader =>
      if startsWith "Bearer " authHeader then
        let jwt := slice 7 authHeader in
        res <~ getUser w jwt ;;
        match authError res, user res with
        | false, Some user =>
            (* Find user's waitlist entry by email. *)
            let '(profile, profileError) :=
              select_profile w (nullish (user_email user) (u "undefined")) st
            in
            match profileError, profile with
            | false, Some profile =>
                (* Get user's referrals. *)
                let referrals :=
                  select_referrals w (referral_code profile) st in
                Normal
                  {| status := HTTP_200_SUCCESSFUL;
                     body :=
                       Success
                         {| name := full_name profile;
                            brand := brand_name profile;
                            code := referral_code profile;
                            referrals := or_zero (referral_count profile);
                            joined := created_at profile;
                            shareLink :=
                              u "https://serveqrew.org?ref="
                              ++ referral_code profile |}
                         (map referral_view (nullish referrals [])) |}
            | _, _ =>
                Normal {| status := HTTP_404_PROFILE_NOT_FOUND;
                          body := Error "profile_not_found" |}
            end
        | _, _ =>
            Normal {| status := HTTP_401_UNAUTHORIZED;
                      body := Error "invalid_token" |}
        end
      else
        Normal {| status := HTTP_401_UNAUTHORIZED;
                  body := Error "unauthorized" |}
  | None =>
      Normal {| status := HTTP_401_UNAUTHORIZED;
                body := Error "unauthorized" |}
  end.

Definition serve (w : World) (req : Request) (st : Store) : Response :=
  if String.eqb (method req) "OPTIONS" then
    {| status := HTTP_204_OK; body := NoBody |}
  else if negb (String.eqb (method req) "GET") then
    {| status := HTTP_405_METHOD_NOT_ALLOWED;
       body := Text "Method not allowed" |}
  else
    match dashboard w req st with
    | Normal response => response
    | Throw error =>
        {| status := HTTP_500_INTERNAL_SERVER_ERROR;
           body := Error "internal_server_error" |}
    end.

End Dashboard.

(* ===================================================================== *)
(** * Vocabulary of the properties *)
(* ===================================================================== *)

Module Limiter.
Import JS Services.

(** Rows of [(ip0, ep)] created at or after [now - window]. *)
Definition window_count (w : World) (ip0 ep : string) (window : Z)
  (st : Store) : Z :=
  Z.of_nat (List.length
    (filter (in_window ip0 ep (now w - window)) (waitlist_rate_limits st))).

(** The tables after one more rate-limit row for [(ip0, ep)]. *)
Definition recorded (w : World) (ip0 ep : string) (st : Store) : Store :=
  {| waitlist_signups := waitlist_signups st;
     waitlist_rate_limits :=
       waitlist_rate_limits st ++
       [{| ip := ip0; endpoint := ep; rl_created_at := now w |}] |}.

Definition of_client (ip0 ep : string) (r : RateLimit) : bool :=
  String.eqb (ip r) ip0 && String.eqb (endpoint r) ep.

(** Requests of one client handled one after the other, one [World] each:
    the limiter's answers and the tables at the end. *)
Fixpoint run (check : World -> string -> M bool) (ip0 : string)
  (ws : list World) (st : Store) : list (Completion bool) * Store :=
  match ws with
  | [] => ([], st)
  | w :: ws' =>
      let '(b, st1) := check w ip0 st in
      let '(bs, st2) := run check ip0 ws' st1 in
      (b :: bs, st2)
  end.

(** The limiter's contract for a limiter [check] bound to endpoint [ep]:
    threshold 5 in a trailing window of 120 seconds. *)
Definition Contract (check : World -> string -> M bool) (ep : string) : Prop :=
  forall (w : World) (ip0 : string) (st : Store),
    (* at the threshold: denied, nothing recorded *)
    (count_error w = false -> 5 <= window_count w ip0 ep 120000 st ->
     check w ip0 st = (Normal false, st))
    (* below it: allowed, and the row is recorded when the store takes it *)
    /\ (count_error w = false -> window_count w ip0 ep 120000 st < 5 ->
        fst (check w ip0 st) = Normal true
        /\ (rate_insert_error w = false ->
            snd (check w ip0 st) = recorded w ip0 ep st))
    (* the count fails: allowed *)
    /\ (count_error w = true -> check w ip0 st = (Normal true, st))
    (* five requests of a client not seen before are allowed, a sixth one
       at most 120 seconds after each of them is denied *)
    /\ (forall ws : list World,
          List.length ws = 5%nat ->
          filter (of_client ip0 ep) (waitlist_rate_limits st) = [] ->
          Forall (fun w' => count_error w' = false
                            /\ rate_insert_error w' = false
                            /\ now w - 120000 <= now w') ws ->
          count_error w = false ->
          Forall (fun b => b = Normal true) (fst (run check ip0 ws st))
          /\ check w ip0 (snd (run check ip0 ws st))
             = (Normal false, snd (run check ip0 ws st))).

End Limiter.

Module Flow.
Import JS Services.

(** The referral count as the handlers read it: [referral_count ?? 0]. *)
Definition count_of (r : WaitlistSignup) : Z := nullish (referral_count r) 0.

(** One referral credited to the rows that carry code [c]. *)
Definition credit (c : ustring) (r : WaitlistSignup) : WaitlistSignup :=
  if has_code c r then set_count (count_of r + 1) r else r.

(** [r'] is the row [r], up to its referral count. *)
Definition same_signup (r r' : WaitlistSignup) : Prop :=
  id r' = id r /\ full_name r' = full_name r /\ email r' = email r
  /\ brand_name r' = brand_name r /\ created_at r' = created_at r
  /\ referral_code r' = referral_code r /\ referred_by r' = referred_by r.


(** The request is a POST that the limiter lets through and whose headers
    and body the handler of [ref-dashboard.ts] accepts: [body] is the
    validated body, [st1] the tables when the database operations start. *)
Definition join_accepts (w : World) (req : Request) (st : Store)
  (body : JoinWaitlist.WaitlistSignupRequestBody) (st1 : Store) : Prop :=
  method req = "POST"
  /\ JoinWaitlist.checkRateLimit w (JoinWaitlist.client_ip req) st
     = (Normal true, st1)
  /\ JoinWaitlist.validateHeaders req = Normal tt
  /\ exists raw, payload req = Json raw
                 /\ JoinWaitlist.validateBody raw = Normal body.

(** The same for the handler of [waitlist.ts]. *)
Definition waitlist_accepts (w : World) (req : Request) (st : Store)
  (body : Waitlist.WaitlistSignupRequestBody) (st1 : Store) : Prop :=
  method req = "POST"
  /\ Waitlist.checkRateLimit w (Waitlist.client_ip req) Waitlist.endpoint_name
       st = (Normal true, st1)
  /\ Waitlist.validateHeaders req = Normal tt
  /\ exists raw, payload req = Json raw
                 /\ Waitlist.validateWaitlistBody raw = Normal body.

(** Emails and referral codes are unique in the table. *)
Definition keys_unique (l : list WaitlistSignup) : Prop :=
  NoDup (map email l) /\ NoDup (map referral_code l).

(** What one request may do to the table of signups: nothing, or append
    one row whose email and code are new, with or without crediting a
    referral. *)
Definition signups_step (l l' : list WaitlistSignup) : Prop :=
  l' = l
  \/ exists row,
       existsb (has_email (email row)) l = false
       /\ existsb (has_code (referral_code row)) l = false
       /\ (l' = l ++ [row] \/ exists c, l' = map (credit c) (l ++ [row])).

(** Status and [error] member of the answer. *)
Definition answer (r : Completion Response * Store)
  : option (Z * option string) :=
  match fst r with
  | Normal resp => Some (status resp, error resp)
  | Throw _ => None
  end.

(** A member of the body that [v?.trim()] accepts: absent, null or a
    string. *)
Definition trimmable (v : option json) : Prop :=
  match v with
  | None | Some JNull | Some (JStr _) => True
  | Some _ => False
  end.

(** The trimmed text of a member, empty when it is not a string. *)
Definition text_of (v : option json) : ustring :=
  match v with
  | Some (JStr s) => trim s
  | _ => []
  end.

End Flow.

Module Samples.
Import JS Services.

Definition ok_link : LinkResult :=
  {| linkError := false;
     linkData := Some {| properties := Some
       {| action_link := Some "https://serveqrew.org/auth/v1/verify" |} |} |}.

Definition failed_link : LinkResult :=
  {| linkError := true; linkData := Some {| properties := None |} |}.

(** Every service answers; the datastore would give a new signup the code
    [GRACE2]. *)
Definition world : World :=
  {| now := 1700000000000;
     count_error := false;
     rate_insert_error := false;
     lookup_error := false;
     insert_fault := None;
     new_id := 2;
     new_referral_code := u "GRACE2";
     new_referral_count := Some 0;
     referrer_select_error := false;
     referrer_update_error := false;
     link := ok_link;
     send_error := None;
     send_refused := None |}.

Definition with_link (l : LinkResult) (w : World) : World :=
  {| now := now w;
     count_error := count_error w;
     rate_insert_error := rate_insert_error w;
     lookup_error := lookup_error w;
     insert_fault := insert_fault w;
     new_id := new_id w;
     new_referral_code := new_referral_code w;
     new_referral_count := new_referral_count w;
     referrer_select_error := referrer_select_error w;
     referrer_update_error := referrer_update_error w;
     link := l;
     send_error := send_error w;
     send_refused := send_refused w |}.

(** The send call rejects with [e]. *)
Definition with_send_error (e : ProviderError) (w : World) : World :=
  {| now := now w;
     count_error := count_error w;
     rate_insert_error := rate_insert_error w;
     lookup_error := lookup_error w;
     insert_fault := insert_fault w;
     new_id := new_id w;
     new_referral_code := new_referral_code w;
     new_referral_count := new_referral_count w;
     referrer_select_error := referrer_select_error w;
     referrer_update_error := referrer_update_error w;
     link := link w;
     send_error := Some e;
     send_refused := send_refused w |}.

(** The existence lookup fails. *)
Definition with_lookup_error (w : World) : World :=
  {| now := now w;
     count_error := count_error w;
     rate_insert_error := rate_insert_error w;
     lookup_error := true;
     insert_fault := insert_fault w;
     new_id := new_id w;
     new_referral_code := new_referral_code w;
     new_referral_count := new_referral_count w;
     referrer_select_error := referrer_select_error w;
     referrer_update_error := referrer_update_error w;
     link := link w;
     send_error := send_error w;
     send_refused := send_refused w |}.

(** The insert is refused with [e]: with a unique violation, the race with
    a concurrent signup for the same email. *)
Definition with_insert_fault (e : PgError) (w : World) : World :=
  {| now := now w;
     count_error := count_error w;
     rate_insert_error := rate_insert_error w;
     lookup_error := lookup_error w;
     insert_fault := Some e;
     new_id := new_id w;
     new_referral_code := new_referral_code w;
     new_referral_count := new_referral_count w;
     referrer_select_error := referrer_select_error w;
     referrer_update_error := referrer_update_error w;
     link := link w;
     send_error := send_error w;
     send_refused := send_refused w |}.

(** The send call resolves, the provider having refused the mail with
    [r]. *)
Definition with_send_refused (r : ErrorResponse) (w : World) : World :=
  {| now := now w;
     count_error := count_error w;
     rate_insert_error := rate_insert_error w;
     lookup_error := lookup_error w;
     insert_fault := insert_fault w;
     new_id := new_id w;
     new_referral_code := new_referral_code w;
     new_referral_count := new_referral_count w;
     referrer_select_error := referrer_select_error w;
     referrer_update_error := referrer_update_error w;
     link := link w;
     send_error := None;
     send_refused := Some r |}.

(** The provider's answer when the daily quota is used up: HTTP 429. *)
Definition daily_quota : ErrorResponse :=
  {| er_statusCode := 429;
     er_name := "daily_quota_exceeded";
     er_message := "You have reached your daily email sending quota." |}.

(** The provider's answer to a request it cannot take: HTTP 422. *)
Definition validation_error : ErrorResponse :=
  {| er_statusCode := 422;
     er_name := "validation_error";
     er_message := "The domain is not verified." |}.

(** A transport failure: the connection to the provider is reset and the
    send call rejects. *)
Definition connection_reset : ProviderError :=
  {| e_instanceof_Error := true; e_status := None; e_name := None;
     e_code := None; e_message := Some "connection reset by peer" |}.

(** Link generation answers data whose properties hold no action link. *)
Definition link_without_action : LinkResult :=
  {| linkError := false;
     linkData := Some {| properties := Some {| action_link := None |} |} |}.

Definition post (props : list (string * json)) : Request :=
  {| method := "POST";
     content_type := Some "application/json";
     x_forwarded_for := Some "203.0.113.7";
     x_real_ip := None;
     payload := Json (JObj props) |}.

Definition ada_request : Request :=
  post [("full_name", JStr (u "Ada Lovelace"));
        ("email", JStr (u "ada@example.com"))].

(** Grace signs up with Ada's referral code. *)
Definition grace_request : Request :=
  post [("full_name", JStr (u "Grace Hopper"));
        ("email", JStr (u " grace@example.com "));
        ("ref", JStr (u "ADA001"))].

Definition ada_row : WaitlistSignup :=
  {| id := 1;
     full_name := u "Ada Lovelace";
     email := u "ada@example.com";
     brand_name := None;
     created_at := 1699999000000;
     referral_code := u "ADA001";
     referred_by := None;
     referral_count := Some 0 |}.

Definition grace_row : WaitlistSignup :=
  {| id := 2;
     full_name := u "Grace Hopper";
     email := u "grace@example.com";
     brand_name := None;
     created_at := 1700000000000;
     referral_code := u "GRACE2";
     referred_by := Some (u "ADA001");
     referral_count := Some 0 |}.

(** The same services at another time. *)
Definition world_at (t : Z) : World :=
  {| now := t;
     count_error := false;
     rate_insert_error := false;
     lookup_error := false;
     insert_fault := None;
     new_id := 2;
     new_referral_code := u "GRACE2";
     new_referral_count := Some 0;
     referrer_select_error := false;
     referrer_update_error := false;
     link := ok_link;
     send_error := None;
     send_refused := None |}.

(** Five requests, twenty seconds apart. *)
Definition burst : list World :=
  map world_at [1700000000000; 1700000020000; 1700000040000;
                1700000060000; 1700000080000].

Definition empty : Store :=
  {| waitlist_signups := []; waitlist_rate_limits := [] |}.

(** The tables once Ada has signed up, her rate-limit row long gone. *)
Definition with_ada : Store :=
  {| waitlist_signups := [ada_row]; waitlist_rate_limits := [] |}.

Definition grace_rate_limit : RateLimit :=
  {| ip := "203.0.113.7"; endpoint := "join-waitlist";
     rl_created_at := 1700000000000 |}.

(** [with_ada] after the limiter has recorded one request. *)
Definition with_ada_limited : Store :=
  {| waitlist_signups := [ada_row];
     waitlist_rate_limits := [grace_rate_limit] |}.

Definition grace_body : JoinWaitlist.WaitlistSignupRequestBody :=
  {| JoinWaitlist.b_full_name := u "Grace Hopper";
     JoinWaitlist.b_email := u "grace@example.com";
     JoinWaitlist.b_brand_name := None;
     JoinWaitlist.b_ref := Some (u "ADA001") |}.

Definition ada_body : JoinWaitlist.WaitlistSignupRequestBody :=
  {| JoinWaitlist.b_full_name := u "Ada Lovelace";
     JoinWaitlist.b_email := u "ada@example.com";
     JoinWaitlist.b_brand_name := None;
     JoinWaitlist.b_ref := None |}.

Definition grace_body_v1 : Waitlist.WaitlistSignupRequestBody :=
  {| Waitlist.b_full_name := u "Grace Hopper";
     Waitlist.b_email := u "grace@example.com";
     Waitlist.b_brand_name := None;
     Waitlist.b_ref := Some (u "ADA001") |}.

Definition ada_body_v1 : Waitlist.WaitlistSignupRequestBody :=
  {| Waitlist.b_full_name := u "Ada Lovelace";
     Waitlist.b_email := u "ada@example.com";
     Waitlist.b_brand_name := None;
     Waitlist.b_ref := None |}.

(** The tables after Grace's insert. *)
Definition with_grace : Store :=
  {| waitlist_signups := [ada_row; grace_row];
     waitlist_rate_limits := [grace_rate_limit] |}.

(** A POST without the headers that name the client. *)
Definition bare_post (ct : option string) (p : Payload) : Request :=
  {| method := "POST"; content_type := ct;
     x_forwarded_for := None; x_real_ip := None; payload := p |}.

(** A body whose email is a number. *)
Definition numeric_email_request : Request :=
  post [("full_name", JStr (u "Ada Lovelace")); ("email", JNum 42)].

(** 201 code units, none of them white space. *)
Definition long_email : ustring := repeat 97%N 201.

Definition board_row (name : string) (count : Z) : Leaderboard.Row :=
  {| Leaderboard.full_name := u name;
     Leaderboard.referral_code := u name;
     Leaderboard.referral_count := count |}.

Definition board_world : Leaderboard.World :=
  {| Leaderboard.waitlist_leaderboard :=
       [board_row "a" 3; board_row "b" 7; board_row "c" 0; board_row "d" 7;
        board_row "e" 1; board_row "f" 2; board_row "g" 9; board_row "h" 4;
        board_row "i" 5; board_row "j" 6; board_row "k" 8; board_row "l" 1];
     Leaderboard.query_error := None |}.

(** An object whose brand name has 71 characters. *)
Definition long_brand : list (string * json) :=
  [("full_name", JStr (u "Ada Lovelace"));
   ("email", JStr (u "ada@example.com"));
   ("brand_name", JStr (repeat 66%N 71))].

(** An object whose email has no dot after the [@]. *)
Definition no_dot : list (string * json) :=
  [("full_name", JStr (u "Ada Lovelace"));
   ("email", JStr (u "ada@example"))].

End Samples.

Module Ranking.
Import Leaderboard.

(** [b] does not rank above [a]. *)
Definition not_above (a b : Row) : Prop :=
  referral_count b <= referral_count a.

End Ranking.

(* ===================================================================== *)
(** * Vocabulary of the input and of request sequences *)
(* ===================================================================== *)

Module Inputs.
Import JS.

(** The trimmed text of an optional member: undefined when the member is
    not a string. *)
Definition member_text (v : option json) : option ustring :=
  match v with
  | Some (JStr s) => Some (trim s)
  | _ => None
  end.

End Inputs.

Module Sequences.
Import Services.

(** The two signup handlers, by the file that holds them. *)
Inductive Handler : Type :=
| RefDashboard
| WaitlistFunction.

Definition serve_by (h : Handler) (w : World) (req : Request) : M Response :=
  match h with
  | RefDashboard => JoinWaitlist.serve w req
  | WaitlistFunction => Waitlist.serve w req
  end.

(** One request: the handler that serves it, what the services answer
    while it is served, and the request. *)
Record Call : Type := {
  handler : Handler;
  world : World;
  request : Request
}.

(** The tables after a sequence of requests, served one after the other. *)
Fixpoint after (calls : list Call) (st : Store) : Store :=
  match calls with
  | [] => st
  | c :: rest =>
      after rest (snd (serve_by (handler c) (world c) (request c) st))
  end.

End Sequences.

Module Recency.
Import Services.

(** [a] joined no earlier than [b]. *)
Definition not_older (a b : WaitlistSignup) : Prop :=
  created_at b <= created_at a.

(** The same for two items of [recentReferrals]. *)
Definition listed_before (a b : Dashboard.Referral) : Prop :=
  Dashboard.r_joined b <= Dashboard.r_joined a.

End Recency.

Module Visitors.
Import JS Services.

Definition ada_user : Dashboard.User :=
  {| Dashboard.user_email := Some (u "ada@example.com") |}.

(** The auth service knows one token. *)
Definition auth (token : string) : Completion Dashboard.AuthResult :=
  if String.eqb token "ada-token" then
    Normal {| Dashboard.user := Some ada_user; Dashboard.authError := false |}
  else Normal {| Dashboard.user := None; Dashboard.authError := true |}.

Definition world : Dashboard.World :=
  {| Dashboard.getUser := auth;
     Dashboard.profile_error := false;
     Dashboard.referrals_error := false |}.

Definition ada_get : Dashboard.Request :=
  {| Dashboard.method := "GET";
     Dashboard.authorization := Some "Bearer ada-token" |}.

End Visitors.

(* ===================================================================== *)
(** * Facts about the JavaScript helpers *)
(* ===================================================================== *)

Section JSFacts.
Import JS.

Lemma ueqb_refl (a : ustring) : ueqb a a = true.
Proof.
  induction a as [|x a IH]; simpl; [reflexivity|].
  now rewrite N.eqb_refl, IH.
Qed.

Lemma ueqb_eq (a b : ustring) : ueqb a b = true <-> a = b.
Proof.
  split.
  - revert b; induction a as [|x a IH]; intros [|y b]; simpl; try easy.
    intros H; apply andb_true_iff in H as [Hx Hr].
    apply N.eqb_eq in Hx; subst y; f_equal; now apply IH.
  - intros ->; apply ueqb_refl.
Qed.

Lemma ueqb_neq (a b : ustring) : ueqb a b = false <-> a <> b.
Proof.
  split.
  - intros H E; apply ueqb_eq in E; congruence.
  - intros H; destruct (ueqb a b) eqn:E; [|reflexivity].
    apply ueqb_eq in E; contradiction.
Qed.

Lemma truthy_nonempty (s : ustring) : truthy s = true <-> s <> [].
Proof. destruct s; simpl; split; congruence. Qed.

End JSFacts.

(* ===================================================================== *)
(** * The pattern matcher *)
(* ===================================================================== *)

Section RegexFacts.
Import JS.

Ltac inv H := inversion H; subst; clear H.

Lemma nullable_matches r : nullable r = true <-> matches r [].
Proof.
  induction r as [| |p|r1 IH1 r2 IH2|r1 IH1 r2 IH2|r IH]; simpl.
  - split; [discriminate | inversion 1].
  - split; [constructor | reflexivity].
  - split; [discriminate | inversion 1].
  - rewrite andb_true_iff, IH1, IH2. split.
    + intros [H1 H2]. exact (MCat _ _ [] [] H1 H2).
    + intros H. inv H.
      match goal with E : _ ++ _ = [] |- _ =>
        apply app_eq_nil in E as [-> ->] end.
      now split.
  - rewrite orb_true_iff, IH1, IH2. split.
    + intros [H|H]; [now apply MAltL | now apply MAltR].
    + intros H. inv H; [now left | now right].
  - split; [constructor | reflexivity].
Qed.

Lemma cat_matches r1 r2 s : matches (cat r1 r2) s <-> matches (ReCat r1 r2) s.
Proof.
  assert (E0 : ~ matches ReEmpty s) by inversion 1.
  assert (E1 : forall r, ~ matches (ReCat ReEmpty r) s).
  { intros r H. inv H. match goal with H : matches ReEmpty _ |- _ => inv H end. }
  assert (E2 : forall r, ~ matches (ReCat r ReEmpty) s).
  { intros r H. inv H. match goal with H : matches ReEmpty _ |- _ => inv H end. }
  assert (E3 : forall r, matches r s <-> matches (ReCat ReEps r) s).
  { intros r. split.
    - intros H. exact (MCat _ _ [] s MEps H).
    - intros H. inv H.
      match goal with H : matches ReEps _ |- _ => inv H end. assumption. }
  destruct r1, r2; simpl; try reflexivity; try apply E3;
    split; intros H; exfalso;
    first [exact (E0 H) | exact (E1 _ H) | exact (E2 _ H)].
Qed.

Lemma alt_matches r1 r2 s : matches (alt r1 r2) s <-> matches (ReAlt r1 r2) s.
Proof.
  assert (E0 : ~ matches ReEmpty s) by inversion 1.
  assert (EL : forall r, matches r s <-> matches (ReAlt ReEmpty r) s).
  { intros r. split; [apply MAltR|].
    intros H; inv H; [contradiction | assumption]. }
  assert (ER : forall r, matches r s <-> matches (ReAlt r ReEmpty) s).
  { intros r. split; [apply MAltL|].
    intros H; inv H; [assumption | contradiction]. }
  destruct r1, r2; simpl; try reflexivity; try apply EL; try apply ER.
Qed.

Lemma star_cons_inv r c s :
  matches (ReStar r) (c :: s) ->
  exists s1 s2, s = s1 ++ s2 /\ matches r (c :: s1) /\ matches (ReStar r) s2.
Proof.
  intros H. remember (ReStar r) as r' eqn:Er. remember (c :: s) as t eqn:Et.
  revert s Et.
  induction H as [| | | | | |r0 s1 s2 H1 _ H2 IH2]; try discriminate.
  intros s Et. inversion Er; subst r0.
  destruct s1 as [|c' s1].
  - simpl in Et. exact (IH2 eq_refl s Et).
  - simpl in Et. inversion Et; subst. exists s1, s2. now repeat split.
Qed.

Lemma deriv_matches r : forall c s, matches (deriv c r) s <-> matches r (c :: s).
Proof.
  induction r as [| |p|r1 IH1 r2 IH2|r1 IH1 r2 IH2|r IH]; intros c s; simpl.
  - split; inversion 1.
  - split; inversion 1.
  - destruct (p c) eqn:E; split; intros H; inv H.
    + now constructor.
    + constructor.
    + congruence.
  - rewrite alt_matches. split; intros H.
    + inv H.
      * match goal with H : matches (cat _ _) _ |- _ =>
          apply cat_matches in H; inv H end.
        match goal with H : matches (deriv _ _) _ |- _ => apply IH1 in H end.
        match goal with
          Ha : matches r1 (c :: ?s1), Hb : matches r2 ?s2 |- _ =>
            exact (MCat _ _ (c :: s1) s2 Ha Hb) end.
      * destruct (nullable r1) eqn:N;
          [|match goal with H : matches ReEmpty _ |- _ => inv H end].
        apply nullable_matches in N.
        match goal with H : matches (deriv _ _) _ |- _ =>
          apply IH2 in H; exact (MCat _ _ [] (c :: s) N H) end.
    + inv H.
      match goal with
        Ha : matches r1 ?s1, Hb : matches r2 ?s2, Et : ?s1 ++ ?s2 = c :: s
        |- _ =>
          destruct s1 as [|c' s1]; simpl in Et;
          [ subst s2; apply MAltR;
            apply nullable_matches in Ha; rewrite Ha; now apply IH2
          | inversion Et; subst; apply MAltL, cat_matches;
            apply MCat; [now apply IH1 | exact Hb] ]
      end.
  - rewrite alt_matches. split; intros H; inv H;
      first [apply MAltL; now apply IH1 | apply MAltR; now apply IH2].
  - rewrite cat_matches. split; intros H.
    + inv H.
      match goal with H : matches (deriv _ _) _ |- _ => apply IH in H end.
      match goal with
        Ha : matches r (c :: ?s1), Hb : matches (ReStar r) ?s2 |- _ =>
          exact (MStarCons _ (c :: s1) s2 Ha Hb) end.
    + apply star_cons_inv in H as (s1 & s2 & -> & Ha & Hb).
      apply MCat; [now apply IH | exact Hb].
Qed.

Lemma test_matches s : forall r, test r s = true <-> matches r s.
Proof.
  induction s as [|c s IH]; intros r; simpl.
  - apply nullable_matches.
  - rewrite IH. apply deriv_matches.
Qed.

Lemma star_class_matches p s :
  matches (ReStar (ReClass p)) s <-> forallb p s = true.
Proof.
  split.
  - intros H. remember (ReStar (ReClass p)) as r eqn:Er.
    induction H as [| | | | | |r0 s1 s2 H1 _ H2 IH2]; try discriminate;
      [reflexivity|].
    inversion Er; subst r0. inv H1. simpl.
    rewrite (IH2 eq_refl). now rewrite andb_true_r.
  - induction s as [|c s IH]; simpl; [constructor|].
    rewrite andb_true_iff. intros [Hc Hs].
    exact (MStarCons _ [c] s (MClass p c Hc) (IH Hs)).
Qed.

Lemma plus_class_matches p s :
  matches (RePlus (ReClass p)) s <-> s <> [] /\ forallb p s = true.
Proof.
  unfold RePlus. split.
  - intros H. inv H.
    match goal with H : matches (ReClass _) _ |- _ => inv H end.
    match goal with H : matches (ReStar _) _ |- _ =>
      apply star_class_matches in H; rename H into Hs end.
    simpl. split; [discriminate|]. rewrite Hs. now rewrite andb_true_r.
  - intros [Hne Hall]. destruct s as [|c s]; [contradiction|].
    simpl in Hall. apply andb_true_iff in Hall as [Hc Hs].
    exact (MCat _ _ [c] s (MClass p c Hc) (proj2 (star_class_matches p s) Hs)).
Qed.

Lemma single_matches (c : N) s : matches (ReClass (N.eqb c)) s <-> s = [c].
Proof.
  split.
  - intros H. inv H.
    match goal with H : N.eqb _ _ = true |- _ => apply N.eqb_eq in H end.
    now subst.
  - intros ->. constructor. apply N.eqb_refl.
Qed.

(** X6.  The email pattern of both validators: one [@], neither white
    space nor a second [@] around it, and a dot inside what follows the
    [@]. *)
Lemma email_shape s :
  (test JoinWaitlist.EMAIL_REGEX s = true <->
  exists a b c,
    s = a ++ [64%N] ++ b ++ [46%N] ++ c
    /\ a <> [] /\ b <> [] /\ c <> []
    /\ forallb not_space_at a = true
    /\ forallb not_space_at b = true
    /\ forallb not_space_at c = true)
  /\ Waitlist.emailRegex = JoinWaitlist.EMAIL_REGEX.
Proof.
  split; [|reflexivity].
  rewrite test_matches. unfold JoinWaitlist.EMAIL_REGEX. split.
  - intros H.
    repeat match goal with
           | H : matches (ReCat _ _) _ |- _ => inv H
           end.
    repeat match goal with
           | H : matches (RePlus _) _ |- _ => apply plus_class_matches in H
           | H : matches (ReClass (N.eqb _)) _ |- _ =>
               apply single_matches in H; subst
           end.
    do 3 eexists. split; [reflexivity|]. tauto.
  - intros (a & b & c & -> & Ha & Hb & Hc & Pa & Pb & Pc).
    repeat apply MCat; try (apply plus_class_matches; now split);
      now apply single_matches.
Qed.

End RegexFacts.

(* ===================================================================== *)
(** * The rate limiter *)
(* ===================================================================== *)

Section LimiterFacts.
Import JS Services Limiter.

(** Both deployments run the same limiter. *)
Lemma checkRateLimit_same (w : World) (ip0 : string) (st : Store) :
  Waitlist.checkRateLimit w ip0 JoinWaitlist.ENDPOINT st
  = JoinWaitlist.checkRateLimit w ip0 st.
Proof. reflexivity. Qed.

(** The limiter as a function of the window count. *)
Lemma checkRateLimit_eq (w : World) (ip0 ep : string) (st : Store) :
  Waitlist.checkRateLimit w ip0 ep st =
  if count_error w then (Normal true, st)
  else if 5 <=? window_count w ip0 ep 120000 st then (Normal false, st)
  else if rate_insert_error w then (Normal true, st)
  else (Normal true, recorded w ip0 ep st).
Proof.
  unfold Waitlist.checkRateLimit, bind, count_rate_limits, insert_rate_limit,
    ret, window_count, Waitlist.WINDOW_MS, Waitlist.MAX_REQUESTS, recorded.
  destruct (count_error w); [reflexivity|].
  cbn [nullish].
  rewrite Z.geb_leb.
  destruct (5 <=? _); [reflexivity|].
  destruct (rate_insert_error w); reflexivity.
Qed.

Lemma window_count_le_client (w : World) (ip0 ep : string) (win : Z)
  (st : Store) :
  window_count w ip0 ep win st
  <= Z.of_nat (List.length (filter (of_client ip0 ep)
                                   (waitlist_rate_limits st))).
Proof.
  unfold window_count.
  apply inj_le.
  induction (waitlist_rate_limits st) as [|r l IH]; simpl; [lia|].
  unfold in_window at 1, of_client at 1.
  destruct (String.eqb (ip r) ip0 && String.eqb (endpoint r) ep); simpl.
  - destruct (_ <=? _); simpl; lia.
  - exact IH.
Qed.

Lemma run_fresh_client (ip0 ep : string) (ws : list World) :
  forall st : Store,
    (List.length (filter (of_client ip0 ep) (waitlist_rate_limits st))
     + List.length ws <= 5)%nat ->
    Forall (fun w' => count_error w' = false /\ rate_insert_error w' = false)
           ws ->
    Forall (fun b => b = Normal true)
           (fst (run (fun w i => Waitlist.checkRateLimit w i ep) ip0 ws st))
    /\ waitlist_rate_limits
         (snd (run (fun w i => Waitlist.checkRateLimit w i ep) ip0 ws st))
       = waitlist_rate_limits st
         ++ map (fun w' => {| ip := ip0; endpoint := ep;
                              rl_created_at := now w' |}) ws.
Proof.
  induction ws as [|w ws IH]; intros st Hlen Hok; simpl.
  - split; [constructor | now rewrite app_nil_r].
  - inversion Hok as [|? ? [Hc Hi] Hok']; subst.
    rewrite checkRateLimit_eq, Hc, Hi.
    pose proof (window_count_le_client w ip0 ep 120000 st) as Hwc.
    simpl in Hlen.
    destruct (5 <=? window_count w ip0 ep 120000 st) eqn:E;
      [apply Z.leb_le in E; lia|].
    specialize (IH (recorded w ip0 ep st)).
    destruct (run _ ip0 ws (recorded w ip0 ep st)) as [bs st2] eqn:R.
    simpl in IH |- *.
    assert (Hlen' : (List.length (filter (of_client ip0 ep)
                       (waitlist_rate_limits st ++
                        [{| ip := ip0; endpoint := ep;
                            rl_created_at := now w |}]))
                     + List.length ws <= 5)%nat).
    { rewrite filter_app, length_app; simpl.
      unfold of_client at 2; simpl. rewrite !String.eqb_refl; simpl. lia. }
    destruct (IH Hlen' Hok') as [Hbs Hst].
    split; [constructor; [reflexivity | exact Hbs]|].
    rewrite Hst, <- app_assoc. reflexivity.
Qed.

Lemma limiter_contract (ep : string) :
  Contract (fun w i => Waitlist.checkRateLimit w i ep) ep.
Proof.
  intros w ip0 st. repeat split.
  - intros Hc Hn. rewrite checkRateLimit_eq, Hc.
    apply Z.leb_le in Hn. now rewrite Hn.
  - rewrite checkRateLimit_eq, H.
    destruct (5 <=? _) eqn:E; [apply Z.leb_le in E; lia|].
    now destruct (rate_insert_error w).
  - intros Hi. rewrite checkRateLimit_eq, H, Hi.
    destruct (5 <=? _) eqn:E; [apply Z.leb_le in E; lia|]. reflexivity.
  - intros Hc. now rewrite checkRateLimit_eq, Hc.
  - destruct (run_fresh_client ip0 ep ws st) as [Hbs _].
    + rewrite H0; simpl; lia.
    + eapply Forall_impl; [|exact H1]. simpl; tauto.
    + exact Hbs.
  - destruct (run_fresh_client ip0 ep ws st) as [_ Hst].
    + rewrite H0; simpl; lia.
    + eapply Forall_impl; [|exact H1]. simpl; tauto.
    + rewrite checkRateLimit_eq, H2.
      assert (E : (5 <=? window_count w ip0 ep 120000
                           (snd (run (fun w0 i => Waitlist.checkRateLimit w0 i ep)
                                     ip0 ws st))) = true).
      { apply Z.leb_le. unfold window_count. rewrite Hst, filter_app.
        rewrite length_app.
        assert (Hall : filter (in_window ip0 ep (now w - 120000))
                   (map (fun w' => {| ip := ip0; endpoint := ep;
                                      rl_created_at := now w' |}) ws)
                 = map (fun w' => {| ip := ip0; endpoint := ep;
                                     rl_created_at := now w' |}) ws).
        { clear Hst H. induction H1 as [|w' ws' [_ [_ Hw]] _ IH]; simpl;
            [reflexivity|].
          unfold in_window at 1; simpl. rewrite !String.eqb_refl; simpl.
          apply Z.leb_le in Hw. rewrite Hw. f_equal. apply IH. }
        rewrite Hall, length_map, H. lia. }
      now rewrite E.
Qed.

End LimiterFacts.

(* ===================================================================== *)
(** * The datastore calls *)
(* ===================================================================== *)

Section StoreFacts.
Import JS Services Flow.

Lemma checkRateLimit_signups (w : World) (ip0 ep : string) (st : Store) :
  waitlist_signups (snd (Waitlist.checkRateLimit w ip0 ep st))
  = waitlist_signups st.
Proof.
  rewrite checkRateLimit_eq.
  destruct (count_error w); [reflexivity|].
  destruct (5 <=? _); [reflexivity|].
  destruct (rate_insert_error w); reflexivity.
Qed.

Lemma existsb_filter_nil {A} (f : A -> bool) (l : list A) :
  existsb f l = false -> filter f l = [].
Proof.
  induction l as [|x l IH]; simpl; [reflexivity|].
  destruct (f x); simpl; [discriminate | exact IH].
Qed.

(** A successful insert, read backwards. *)
Lemma insert_signup_inl (w : World) (fn em : ustring)
  (bn rb : option ustring) (st st2 : Store) (row : WaitlistSignup) :
  insert_signup w fn em bn rb st = (Normal (inl row), st2) ->
  insert_fault w = None
  /\ existsb (has_email em) (waitlist_signups st) = false
  /\ existsb (has_code (new_referral_code w)) (waitlist_signups st) = false
  /\ row = {| id := new_id w; full_name := fn; email := em;
              brand_name := bn; created_at := now w;
              referral_code := new_referral_code w; referred_by := rb;
              referral_count := new_referral_count w |}
  /\ st2 = {| waitlist_signups := waitlist_signups st ++ [row];
              waitlist_rate_limits := waitlist_rate_limits st |}.
Proof.
  unfold insert_signup.
  destruct (insert_fault w); [discriminate|].
  destruct (existsb (has_email em) _); [discriminate|].
  destruct (existsb (has_code _) _); [discriminate|].
  intros H; inversion H; subst. repeat split; reflexivity.
Qed.

(** A failed insert leaves the tables as they were. *)
Lemma insert_signup_inr (w : World) (fn em : ustring)
  (bn rb : option ustring) (st st2 : Store) (err : PgError) :
  insert_signup w fn em bn rb st = (Normal (inr err), st2) -> st2 = st.
Proof.
  unfold insert_signup.
  destruct (insert_fault w); [intros H; now inversion H|].
  destruct (existsb (has_email em) _); [intros H; now inversion H|].
  destruct (existsb (has_code _) _); [intros H; now inversion H|].
  discriminate.
Qed.

(** An insert for an email the table holds is always refused. *)
Lemma insert_signup_known_email (w : World) (fn em : ustring)
  (bn rb : option ustring) (st : Store) :
  existsb (has_email em) (waitlist_signups st) = true ->
  exists err, insert_signup w fn em bn rb st = (Normal (inr err), st)
              /\ (insert_fault w = None ->
                  err = unique_violation "waitlist_signups_email_key").
Proof.
  intros H. unfold insert_signup. rewrite H.
  destruct (insert_fault w) as [e|].
  - exists e; split; [reflexivity | discriminate].
  - eexists; split; reflexivity.
Qed.

Lemma unique_violation_duplicate (c : string) :
  includes "duplicate" (toLowerCase (pg_message (unique_violation c))) = true.
Proof. reflexivity. Qed.

(** With unique keys, the rows selected by a key of a row are that row. *)
Lemma filter_unique_key {K : Type} (key : WaitlistSignup -> K)
  (eqb : K -> K -> bool)
  (eqb_eq : forall a b, eqb a b = true <-> a = b)
  (l : list WaitlistSignup) (r : WaitlistSignup) :
  NoDup (map key l) -> In r l ->
  filter (fun x => eqb (key x) (key r)) l = [r].
Proof.
  induction l as [|x l IH]; intros Hnd Hin; [contradiction|].
  inversion Hnd as [|? ? Hx Hnd']; subst.
  simpl. destruct Hin as [->|Hin].
  - rewrite (proj2 (eqb_eq _ _) eq_refl). f_equal.
    apply existsb_filter_nil.
    destruct (existsb _ l) eqn:E; [|reflexivity].
    apply existsb_exists in E as [y [Hy Hk]].
    apply eqb_eq in Hk. exfalso; apply Hx. rewrite <- Hk.
    now apply in_map.
  - destruct (eqb (key x) (key r)) eqn:E.
    + apply eqb_eq in E. exfalso; apply Hx. rewrite E. now apply in_map.
    + now apply IH.
Qed.

Lemma filter_code_unique (l : list WaitlistSignup) (r : WaitlistSignup) :
  NoDup (map referral_code l) -> In r l ->
  filter (has_code (referral_code r)) l = [r].
Proof. apply (filter_unique_key referral_code ueqb ueqb_eq). Qed.

Lemma filter_email_unique (l : list WaitlistSignup) (r : WaitlistSignup) :
  NoDup (map email l) -> In r l ->
  filter (has_email (email r)) l = [r].
Proof. apply (filter_unique_key email ueqb ueqb_eq). Qed.

Lemma existsb_has_email_In (e : ustring) (l : list WaitlistSignup) :
  existsb (has_email e) l = true -> exists r, In r l /\ email r = e.
Proof.
  intros H. apply existsb_exists in H as [r [Hin He]].
  exists r; split; [exact Hin | now apply ueqb_eq].
Qed.

(** The referral increment never throws; it credits the rows carrying the
    code when the lookup finds one row and the update goes through, and
    changes nothing otherwise. *)
Lemma handleReferralIncrement_run (w : World) (ref : option ustring)
  (st : Store) :
  exists st',
    JoinWaitlist.handleReferralIncrement w ref st = (Normal tt, st')
    /\ waitlist_rate_limits st' = waitlist_rate_limits st
    /\ (waitlist_signups st' = waitlist_signups st
        \/ exists c r, ref = Some c /\ c <> []
             /\ referrer_select_error w = false
             /\ referrer_update_error w = false
             /\ filter (has_code c) (waitlist_signups st) = [r]
             /\ waitlist_signups st'
                = map (credit c) (waitlist_signups st)).
Proof.
  unfold JoinWaitlist.handleReferralIncrement.
  destruct ref as [[|x c]|]; simpl;
    try (exists st; repeat split; now left).
  unfold bind, select_referrer.
  destruct (referrer_select_error w) eqn:Hs;
    [exists st; repeat split; now left|].
  destruct (filter (has_code (x :: c)) (waitlist_signups st))
    as [|r [|r' l]] eqn:F; simpl;
    try (exists st; repeat split; now left).
  unfold update_referral_count, ret.
  destruct (referrer_update_error w) eqn:Hu;
    [exists st; repeat split; now left|].
  eexists; split; [reflexivity|]. split; [reflexivity|].
  right. exists (x :: c), r. repeat split; try easy.
  simpl. apply map_ext_in. intros y Hy. unfold credit.
  destruct (has_code (x :: c) y) eqn:E; [|reflexivity].
  assert (In y (filter (has_code (x :: c)) (waitlist_signups st)))
    by (apply filter_In; now split).
  rewrite F in H. destruct H as [->|[]]. reflexivity.
Qed.

Lemma increment_referrer_same (w : World) (ref : option ustring)
  (st : Store) :
  Waitlist.increment_referrer w ref st
  = JoinWaitlist.handleReferralIncrement w ref st.
Proof.
  unfold Waitlist.increment_referrer, JoinWaitlist.handleReferralIncrement.
  destruct (truthy_opt ref); reflexivity.
Qed.

(** The referral increment keeps every row, up to its count. *)
Lemma map_credit_In (c : ustring) (l : list WaitlistSignup)
  (r : WaitlistSignup) :
  In r l -> exists r', In r' (map (credit c) l) /\ same_signup r r'.
Proof.
  intros H. exists (credit c r). split; [now apply in_map|].
  unfold credit. destruct (has_code c r); repeat split.
Qed.

End StoreFacts.

(* ===================================================================== *)
(** * The flow of the two signup handlers *)
(* ===================================================================== *)

Section JoinFlow.
Import JS Services Flow.

(** The limiter keeps the signups in place. *)
Lemma join_accepts_signups w req st body st1 :
  join_accepts w req st body st1 ->
  waitlist_signups st1 = waitlist_signups st.
Proof.
  intros (_ & Hrl & _).
  rewrite <- checkRateLimit_same in Hrl.
  rewrite <- (checkRateLimit_signups w (JoinWaitlist.client_ip req)
                JoinWaitlist.ENDPOINT st).
  now rewrite Hrl.
Qed.

(** An accepted request runs the database operations inside the [try]. *)
Lemma join_serve_accepted w req st body st1 :
  join_accepts w req st body st1 ->
  JoinWaitlist.serve w req st
  = try_catch (JoinWaitlist.database_operations w body)
      (fun e => ret (JoinWaitlist.handleError e)) st1.
Proof.
  intros (Hm & Hrl & Hh & raw & Hp & Hv).
  unfold JoinWaitlist.serve, JoinWaitlist.handleCors.
  rewrite Hm. cbn [String.eqb Ascii.eqb Bool.eqb negb].
  unfold bind at 1. rewrite Hrl. cbn [negb].
  unfold try_catch, JoinWaitlist.signup, bind, lift, req_json.
  rewrite Hh, Hp. unfold ret. now rewrite Hv.
Qed.

Lemma join_confirm_link_failed w st :
  linkError (link w) || negb (JoinWaitlist.has_action_link (linkData (link w)))
  = true ->
  JoinWaitlist.confirm w st = (Throw (ErrorObj "magic_link_error"), st).
Proof.
  intros H. unfold JoinWaitlist.confirm, bind, generateLink.
  now rewrite H.
Qed.

Lemma join_confirm_send_error w st e :
  linkError (link w) || negb (JoinWaitlist.has_action_link (linkData (link w)))
  = false ->
  send_error w = Some e ->
  JoinWaitlist.confirm w st
  = (Throw (ErrorObj (if JoinWaitlist.is_quota_error e
                      then "email_quota_exceeded" else "email_send_failed")),
     st).
Proof.
  intros H Hs.
  unfold JoinWaitlist.confirm, bind, generateLink,
    JoinWaitlist.sendConfirmationEmail, resend_emails_send.
  rewrite H, Hs. now destruct (JoinWaitlist.is_quota_error e).
Qed.

Lemma join_confirm_sent w st :
  linkError (link w) || negb (JoinWaitlist.has_action_link (linkData (link w)))
  = false ->
  send_error w = None ->
  JoinWaitlist.confirm w st
  = (Normal (respond 201 None
       (Some "Successfully joined waitlist! Check your email for confirmation, might take some minutes before you receive it.")
       None), st).
Proof.
  intros H Hs.
  unfold JoinWaitlist.confirm, bind, generateLink,
    JoinWaitlist.sendConfirmationEmail, resend_emails_send.
  now rewrite H, Hs.
Qed.

(** The last part of the handler reads no table and writes none. *)
Lemma join_confirm_pure w :
  exists out, forall st, JoinWaitlist.confirm w st = (out, st).
Proof.
  destruct (linkError (link w)
            || negb (JoinWaitlist.has_action_link (linkData (link w))))
    eqn:H.
  - eexists; intros st; exact (join_confirm_link_failed w st H).
  - destruct (send_error w) as [e|] eqn:Hs.
    + eexists; intros st; exact (join_confirm_send_error w st e H Hs).
    + eexists; intros st; exact (join_confirm_sent w st H Hs).
Qed.

(** No profile is found for an email the table does not hold. *)
Lemma select_by_email_fresh w e st :
  existsb (has_email e) (waitlist_signups st) = false ->
  select_by_email w e st = (Normal None, st).
Proof.
  intros H. unfold select_by_email.
  destruct (lookup_error w); [reflexivity|].
  now rewrite (existsb_filter_nil _ _ H).
Qed.

(** After a successful insert: the referral increment, then the
    confirmation. *)
Lemma join_inserted w body st1 row st2 :
  insert_signup w (JoinWaitlist.b_full_name body) (JoinWaitlist.b_email body)
    (JoinWaitlist.b_brand_name body) (JoinWaitlist.b_ref body) st1
  = (Normal (inl row), st2) ->
  exists st3,
    JoinWaitlist.handleReferralIncrement w (JoinWaitlist.b_ref body) st2
    = (Normal tt, st3)
    /\ JoinWaitlist.database_operations w body st1
       = JoinWaitlist.confirm w st3.
Proof.
  intros Hins.
  destruct (insert_signup_inl _ _ _ _ _ _ _ _ Hins) as (_ & He & _).
  destruct (handleReferralIncrement_run w (JoinWaitlist.b_ref body) st2)
    as (st3 & Hinc & _).
  exists st3; split; [exact Hinc|].
  unfold JoinWaitlist.database_operations, bind at 1.
  rewrite (select_by_email_fresh _ _ _ He).
  unfold JoinWaitlist.new_user, bind at 1. rewrite Hins.
  unfold bind at 1. now rewrite Hinc.
Qed.

(** The answer to an accepted request whose insert succeeded. *)
Lemma join_serve_inserted w req st body st1 row st2 :
  join_accepts w req st body st1 ->
  insert_signup w (JoinWaitlist.b_full_name body) (JoinWaitlist.b_email body)
    (JoinWaitlist.b_brand_name body) (JoinWaitlist.b_ref body) st1
  = (Normal (inl row), st2) ->
  exists st3,
    JoinWaitlist.handleReferralIncrement w (JoinWaitlist.b_ref body) st2
    = (Normal tt, st3)
    /\ JoinWaitlist.serve w req st
       = match fst (JoinWaitlist.confirm w st3) with
         | Normal r => (Normal r, st3)
         | Throw e => (Normal (JoinWaitlist.handleError e), st3)
         end.
Proof.
  intros Hacc Hins.
  destruct (join_inserted _ _ _ _ _ Hins) as (st3 & Hinc & Hdb).
  exists st3; split; [exact Hinc|].
  rewrite (join_serve_accepted _ _ _ _ _ Hacc).
  unfold try_catch. rewrite Hdb.
  destruct (join_confirm_pure w) as (out & Hout). rewrite Hout.
  now destruct out.
Qed.

End JoinFlow.

Section WaitlistFlow.
Import JS Services Flow.

Lemma waitlist_accepts_signups w req st body st1 :
  waitlist_accepts w req st body st1 ->
  waitlist_signups st1 = waitlist_signups st.
Proof.
  intros (_ & Hrl & _).
  rewrite <- (checkRateLimit_signups w (Waitlist.client_ip req)
                Waitlist.endpoint_name st).
  now rewrite Hrl.
Qed.

Lemma waitlist_serve_accepted w req st body st1 :
  waitlist_accepts w req st body st1 ->
  Waitlist.serve w req st
  = try_catch (Waitlist.insert_and_confirm w body)
      (fun e => ret (Waitlist.on_error e)) st1.
Proof.
  intros (Hm & Hrl & Hh & raw & Hp & Hv).
  unfold Waitlist.serve, Waitlist.validateCors.
  rewrite Hm. cbn [String.eqb Ascii.eqb Bool.eqb negb].
  unfold bind at 1. rewrite Hrl. cbn [negb].
  unfold try_catch, Waitlist.signup, bind, lift, req_json.
  rewrite Hh, Hp. unfold ret. now rewrite Hv.
Qed.

Lemma waitlist_confirm_link_failed w st :
  linkError (link w) = true \/ linkData (link w) = None ->
  Waitlist.confirm w st = (Throw (ErrorObj "magic_link_error"), st).
Proof.
  intros H. unfold Waitlist.confirm, bind, generateLink.
  destruct H as [H|H]; rewrite H; [reflexivity|].
  now destruct (linkError (link w)).
Qed.

Lemma waitlist_confirm_send_error w st d p e :
  linkError (link w) = false -> linkData (link w) = Some d ->
  properties d = Some p ->
  send_error w = Some e ->
  Waitlist.confirm w st
  = (Throw (ErrorObj (if Waitlist.is_quota_error e
                      then "email_quota_exceeded" else "email_send_failed")),
     st).
Proof.
  intros H Hd Hp Hs.
  unfold Waitlist.confirm, bind, generateLink, resend_emails_send.
  rewrite H, Hd, Hp, Hs. now destruct (Waitlist.is_quota_error e).
Qed.

Lemma waitlist_confirm_sent w st d p :
  linkError (link w) = false -> linkData (link w) = Some d ->
  properties d = Some p ->
  send_error w = None ->
  Waitlist.confirm w st
  = (Normal (respond 201 None
       (Some "You have successfully joined the waitlist🤓. A confirmation email with your referral and dashboard link has been sent to you.🫶")
       None), st).
Proof.
  intros H Hd Hp Hs.
  unfold Waitlist.confirm, bind, generateLink, resend_emails_send.
  now rewrite H, Hd, Hp, Hs.
Qed.

Lemma waitlist_confirm_pure w :
  exists out, forall st, Waitlist.confirm w st = (out, st).
Proof.
  unfold Waitlist.confirm, bind, generateLink, resend_emails_send, throw, ret.
  destruct (linkError (link w)); [eexists; reflexivity|].
  destruct (linkData (link w)) as [d|]; [|eexists; reflexivity].
  destruct (properties d); [|eexists; reflexivity].
  destruct (send_error w) as [e|]; [|eexists; reflexivity].
  destruct (Waitlist.is_quota_error e); eexists; reflexivity.
Qed.

Lemma waitlist_serve_inserted w req st body st1 row st2 :
  waitlist_accepts w req st body st1 ->
  insert_signup w (Waitlist.b_full_name body) (Waitlist.b_email body)
    (Waitlist.b_brand_name body) (Waitlist.b_ref body) st1
  = (Normal (inl row), st2) ->
  exists st3,
    JoinWaitlist.handleReferralIncrement w (Waitlist.b_ref body) st2
    = (Normal tt, st3)
    /\ Waitlist.serve w req st
       = match fst (Waitlist.confirm w st3) with
         | Normal r => (Normal r, st3)
         | Throw e => (Normal (Waitlist.on_error e), st3)
         end.
Proof.
  intros Hacc Hins.
  destruct (handleReferralIncrement_run w (Waitlist.b_ref body) st2)
    as (st3 & Hinc & _).
  exists st3; split; [exact Hinc|].
  rewrite (waitlist_serve_accepted _ _ _ _ _ Hacc).
  unfold try_catch, Waitlist.insert_and_confirm, bind at 1. rewrite Hins.
  unfold bind at 1. rewrite increment_referrer_same, Hinc.
  destruct (waitlist_confirm_pure w) as (out & Hout). rewrite Hout.
  now destruct out.
Qed.

End WaitlistFlow.

(* ===================================================================== *)
(** * Failures after the insert *)
(* ===================================================================== *)

Section PostInsert.
Import JS Services Flow.

(** Whatever the referral increment does, the inserted row stays. *)
Lemma inserted_row_stays w ref fn em bn rb st1 row st2 st3 :
  insert_signup w fn em bn rb st1 = (Normal (inl row), st2) ->
  JoinWaitlist.handleReferralIncrement w ref st2 = (Normal tt, st3) ->
  (exists r', In r' (waitlist_signups st3) /\ same_signup row r')
  /\ List.length (waitlist_signups st3)
     = S (List.length (waitlist_signups st1)).
Proof.
  intros Hins Hinc.
  destruct (insert_signup_inl _ _ _ _ _ _ _ _ Hins) as (_ & _ & _ & _ & ->).
  destruct (handleReferralIncrement_run w ref
              {| waitlist_signups := waitlist_signups st1 ++ [row];
                 waitlist_rate_limits := waitlist_rate_limits st1 |})
    as (st3' & Hinc' & _ & Hsig).
  rewrite Hinc in Hinc'. inversion Hinc'; subst st3'. clear Hinc'.
  cbn [waitlist_signups] in Hsig.
  destruct Hsig as [Hsig | (c & r & _ & _ & _ & _ & _ & Hsig)]; rewrite Hsig.
  - split.
    + exists row. split; [apply in_or_app; right; now left|].
      repeat split.
    + rewrite length_app; simpl; lia.
  - split.
    + apply map_credit_In. apply in_or_app; right; now left.
    + rewrite length_map, length_app; simpl; lia.
Qed.

End PostInsert.

Section Claims.
Import JS Services Flow.

(** ** What the handlers make of a refused mail *)

Lemma has_action_link_given (l : option LinkData) d p a :
  l = Some d -> properties d = Some p -> action_link p = Some a ->
  a <> "" ->
  JoinWaitlist.has_action_link l = true.
Proof.
  intros -> Hp Ha Hne. unfold JoinWaitlist.has_action_link.
  rewrite Hp, Ha. apply negb_true_iff. now apply String.eqb_neq.
Qed.

(** C4.  Grace signs up with a new email and the insert succeeds; then a
    later step fails.  The provider refuses the mail with a 422 (502 would
    be due) or with the 429 of a used-up daily quota (501 would be due):
    the send call resolves with the provider's error, which no handler
    reads, and both answer 201.  Link generation answers properties
    without an action link (503 would be due): [waitlist.ts], which tests
    [linkError] and [linkData] only, answers 201, where [ref-dashboard.ts]
    answers 503.  In each case the row of the signup stays in the table.
    What the handlers do answer as a failure: 503 when link generation
    answers an error, 502 when the send call rejects (here: with a reset
    connection). *)
Theorem post_insert_failures_answered_201 :
  (* the provider refuses the mail: not a quota error *)
  answer (JoinWaitlist.serve
            (Samples.with_send_refused Samples.validation_error Samples.world)
            Samples.grace_request Samples.with_ada)
  = Some (201, None)
  /\ answer (Waitlist.serve
               (Samples.with_send_refused Samples.validation_error
                  Samples.world)
               Samples.grace_request Samples.with_ada)
     = Some (201, None)
  (* the provider refuses the mail: the daily quota is used up *)
  /\ answer (JoinWaitlist.serve
               (Samples.with_send_refused Samples.daily_quota Samples.world)
               Samples.grace_request Samples.with_ada)
     = Some (201, None)
  /\ answer (Waitlist.serve
               (Samples.with_send_refused Samples.daily_quota Samples.world)
               Samples.grace_request Samples.with_ada)
     = Some (201, None)
  (* no action link *)
  /\ answer (Waitlist.serve
               (Samples.with_link Samples.link_without_action Samples.world)
               Samples.grace_request Samples.with_ada)
     = Some (201, None)
  /\ answer (JoinWaitlist.serve
               (Samples.with_link Samples.link_without_action Samples.world)
               Samples.grace_request Samples.with_ada)
     = Some (503, Some "magic_link_error")
  (* the row stays *)
  /\ map email
       (waitlist_signups
          (snd (JoinWaitlist.serve
                  (Samples.with_send_refused Samples.validation_error
                     Samples.world)
                  Samples.grace_request Samples.with_ada)))
     = [u "ada@example.com"; u "grace@example.com"]
  /\ map email
       (waitlist_signups
          (snd (Waitlist.serve
                  (Samples.with_send_refused Samples.daily_quota
                     Samples.world)
                  Samples.grace_request Samples.with_ada)))
     = [u "ada@example.com"; u "grace@example.com"]
  /\ map email
       (waitlist_signups
          (snd (Waitlist.serve
                  (Samples.with_link Samples.link_without_action
                     Samples.world)
                  Samples.grace_request Samples.with_ada)))
     = [u "ada@example.com"; u "grace@example.com"]
  (* failures that are answered as such *)
  /\ answer (JoinWaitlist.serve
               (Samples.with_link Samples.failed_link Samples.world)
               Samples.grace_request Samples.with_ada)
     = Some (503, Some "magic_link_error")
  /\ answer (Waitlist.serve
               (Samples.with_link Samples.failed_link Samples.world)
               Samples.grace_request Samples.with_ada)
     = Some (503, Some "magic_link_error")
  /\ answer (JoinWaitlist.serve
               (Samples.with_send_error Samples.connection_reset
                  Samples.world)
               Samples.grace_request Samples.with_ada)
     = Some (502, Some "email_send_failed")
  /\ answer (Waitlist.serve
               (Samples.with_send_error Samples.connection_reset
                  Samples.world)
               Samples.grace_request Samples.with_ada)
     = Some (502, Some "email_send_failed").
Proof. repeat split; vm_compute; reflexivity. Qed.

(** C6.  The provider's answer never reaches the [catch] clause that
    classifies dispatch failures.  For every accepted new signup whose
    insert succeeded and whose link was generated, when the send call
    resolves, the provider having refused the mail with [r] (whatever [r]
    is: the 429 of a used-up quota or any other answer), the handler
    answers 201 with its success message: neither the 501 nor the 502 of
    the [catch] clause.  First conjunct: [ref-dashboard.ts]; second:
    [waitlist.ts]. *)
Theorem provider_refusal_is_answered_201 :
  (forall w req st body st1 row st2 d p a r,
     join_accepts w req st body st1 ->
     insert_signup w (JoinWaitlist.b_full_name body)
       (JoinWaitlist.b_email body) (JoinWaitlist.b_brand_name body)
       (JoinWaitlist.b_ref body) st1 = (Normal (inl row), st2) ->
     linkError (link w) = false ->
     linkData (link w) = Some d ->
     properties d = Some p ->
     action_link p = Some a ->
     a <> "" ->
     send_error w = None ->
     send_refused w = Some r ->
     fst (JoinWaitlist.serve w req st)
     = Normal (respond 201 None
         (Some "Successfully joined waitlist! Check your email for confirmation, might take some minutes before you receive it.")
         None))
  /\
  (forall w req st body st1 row st2 d p r,
     waitlist_accepts w req st body st1 ->
     insert_signup w (Waitlist.b_full_name body)
       (Waitlist.b_email body) (Waitlist.b_brand_name body)
       (Waitlist.b_ref body) st1 = (Normal (inl row), st2) ->
     linkError (link w) = false ->
     linkData (link w) = Some d ->
     properties d = Some p ->
     send_error w = None ->
     send_refused w = Some r ->
     fst (Waitlist.serve w req st)
     = Normal (respond 201 None
         (Some "You have successfully joined the waitlist🤓. A confirmation email with your referral and dashboard link has been sent to you.🫶")
         None)).
Proof.
  split.
  - intros w req st body st1 row st2 d p a r Hacc Hins Hl Hd Hp Ha Hne Hs _.
    destruct (join_serve_inserted _ _ _ _ _ _ _ Hacc Hins)
      as (st3 & _ & ->).
    assert (L : linkError (link w)
                || negb (JoinWaitlist.has_action_link (linkData (link w)))
                = false).
    { rewrite Hl, (has_action_link_given _ d p a Hd Hp Ha Hne).
      reflexivity. }
    now rewrite (join_confirm_sent w st3 L Hs).
  - intros w req st body st1 row st2 d p r Hacc Hins Hl Hd Hp Hs _.
    destruct (waitlist_serve_inserted _ _ _ _ _ _ _ Hacc Hins)
      as (st3 & _ & ->).
    now rewrite (waitlist_confirm_sent w st3 d p Hl Hd Hp Hs).
Qed.

(** Grace signs up for the first time while the provider answers the send
    call with the 429 of a used-up daily quota. *)
Lemma provider_refusal_is_answered_201_witness :
  er_statusCode Samples.daily_quota = 429
  /\ answer (JoinWaitlist.serve
               (Samples.with_send_refused Samples.daily_quota Samples.world)
               Samples.grace_request Samples.with_ada)
     = Some (201, None)
  /\ answer (Waitlist.serve
               (Samples.with_send_refused Samples.daily_quota Samples.world)
               Samples.grace_request Samples.with_ada)
     = Some (201, None).
Proof.
  split; [reflexivity|]. split.
  - assert (Hacc : join_accepts
              (Samples.with_send_refused Samples.daily_quota Samples.world)
              Samples.grace_request Samples.with_ada Samples.grace_body
              Samples.with_ada_limited).
    { repeat split; try reflexivity. eexists; split; reflexivity. }
    unfold answer.
    rewrite (proj1 provider_refusal_is_answered_201 _ _ _ _ _
               Samples.grace_row Samples.with_grace _ _
               "https://serveqrew.org/auth/v1/verify" Samples.daily_quota
               Hacc eq_refl eq_refl eq_refl eq_refl eq_refl
               ltac:(discriminate) eq_refl eq_refl).
    reflexivity.
  - assert (Hacc : waitlist_accepts
              (Samples.with_send_refused Samples.daily_quota Samples.world)
              Samples.grace_request Samples.with_ada Samples.grace_body_v1
              Samples.with_ada_limited).
    { repeat split; try reflexivity. eexists; split; reflexivity. }
    unfold answer.
    rewrite (proj2 provider_refusal_is_answered_201 _ _ _ _ _
               Samples.grace_row Samples.with_grace _ _ Samples.daily_quota
               Hacc eq_refl eq_refl eq_refl eq_refl eq_refl eq_refl).
    reflexivity.
Defined.

(** ** Unique-constraint violations *)

(** C5. When the insert of a signup is refused with PostgreSQL's
    unique-constraint violation, both handlers answer 409 with error
    [duplicate_entry] and leave the tables as the limiter left them (first
    conjunct: [ref-dashboard.ts], reached when the existence lookup found
    no profile; second: [waitlist.ts]); and the datastore refuses in this
    way every insert for an email the table already holds (third
    conjunct). *)
Theorem unique_violation_is_duplicate_entry :
  (forall w req st body st1 err st2 c,
     join_accepts w req st body st1 ->
     select_by_email w (JoinWaitlist.b_email body) st1 = (Normal None, st1) ->
     insert_signup w (JoinWaitlist.b_full_name body)
       (JoinWaitlist.b_email body) (JoinWaitlist.b_brand_name body)
       (JoinWaitlist.b_ref body) st1 = (Normal (inr err), st2) ->
     pg_message err = pg_message (unique_violation c) ->
     JoinWaitlist.serve w req st
     = (Normal (respond 409 (Some "duplicate_entry")
          (Some "This email is already on the waitlist. Check your spam folder.")
          None), st1))
  /\
  (forall w req st body st1 err st2 c,
     waitlist_accepts w req st body st1 ->
     insert_signup w (Waitlist.b_full_name body)
       (Waitlist.b_email body) (Waitlist.b_brand_name body)
       (Waitlist.b_ref body) st1 = (Normal (inr err), st2) ->
     pg_message err = pg_message (unique_violation c) ->
     exists resp,
       Waitlist.serve w req st = (Normal resp, st1)
       /\ status resp = 409 /\ error resp = Some "duplicate_entry")
  /\
  (forall w fn em bn rb st,
     insert_fault w = None ->
     existsb (has_email em) (waitlist_signups st) = true ->
     insert_signup w fn em bn rb st
     = (Normal (inr (unique_violation "waitlist_signups_email_key")), st)).
Proof.
  split; [|split].
  - intros w req st body st1 err st2 c Hacc Hsel Hins Hmsg.
    rewrite (join_serve_accepted _ _ _ _ _ Hacc).
    pose proof (insert_signup_inr _ _ _ _ _ _ _ _ Hins) as ->.
    unfold try_catch, JoinWaitlist.database_operations, bind at 1.
    rewrite Hsel.
    unfold JoinWaitlist.new_user, bind at 1. rewrite Hins.
    now rewrite Hmsg, unique_violation_duplicate.
  - intros w req st body st1 err st2 c Hacc Hins Hmsg.
    rewrite (waitlist_serve_accepted _ _ _ _ _ Hacc).
    pose proof (insert_signup_inr _ _ _ _ _ _ _ _ Hins) as ->.
    unfold try_catch, Waitlist.insert_and_confirm, bind at 1.
    rewrite Hins, Hmsg, unique_violation_duplicate.
    eexists; split; [reflexivity|]. split; reflexivity.
  - intros w fn em bn rb st Hf He.
    unfold insert_signup. now rewrite Hf, He.
Qed.

(** Ada signs up again while the existence lookup fails; Ada signs up
    again on [waitlist.ts]; an insert for her email; Grace loses the race
    with a concurrent signup. *)
Lemma unique_violation_is_duplicate_entry_witness :
  (join_accepts (Samples.with_lookup_error Samples.world)
     Samples.ada_request Samples.with_ada Samples.ada_body
     Samples.with_ada_limited
   /\ answer (JoinWaitlist.serve (Samples.with_lookup_error Samples.world)
                Samples.ada_request Samples.with_ada)
      = Some (409, Some "duplicate_entry"))
  /\ (waitlist_accepts Samples.world Samples.ada_request Samples.with_ada
        Samples.ada_body_v1 Samples.with_ada_limited
      /\ answer (Waitlist.serve Samples.world Samples.ada_request
                   Samples.with_ada)
         = Some (409, Some "duplicate_entry"))
  /\ insert_signup Samples.world (u "Ada Byron") (u "ada@example.com") None
       None Samples.with_ada
     = (Normal (inr (unique_violation "waitlist_signups_email_key")),
        Samples.with_ada)
  /\ answer (JoinWaitlist.serve
               (Samples.with_insert_fault
                  (unique_violation "waitlist_signups_email_key")
                  Samples.world)
               Samples.grace_request Samples.with_ada)
     = Some (409, Some "duplicate_entry").
Proof.
  split; [|split; [|split]].
  - assert (Hacc : join_accepts (Samples.with_lookup_error Samples.world)
              Samples.ada_request Samples.with_ada Samples.ada_body
              Samples.with_ada_limited).
    { repeat split; try reflexivity. eexists; split; reflexivity. }
    split; [exact Hacc|].
    rewrite (proj1 unique_violation_is_duplicate_entry
               (Samples.with_lookup_error Samples.world) Samples.ada_request
               Samples.with_ada Samples.ada_body Samples.with_ada_limited
               (unique_violation "waitlist_signups_email_key")
               Samples.with_ada_limited "waitlist_signups_email_key"
               Hacc eq_refl eq_refl eq_refl).
    reflexivity.
  - assert (Hacc : waitlist_accepts Samples.world Samples.ada_request
              Samples.with_ada Samples.ada_body_v1 Samples.with_ada_limited).
    { repeat split; try reflexivity. eexists; split; reflexivity. }
    split; [exact Hacc|].
    destruct (proj1 (proj2 unique_violation_is_duplicate_entry)
                Samples.world Samples.ada_request
                Samples.with_ada Samples.ada_body_v1 Samples.with_ada_limited
                (unique_violation "waitlist_signups_email_key")
                Samples.with_ada_limited "waitlist_signups_email_key"
                Hacc eq_refl eq_refl) as (resp & Hs & H409 & Herr).
    unfold answer. rewrite Hs. cbn [fst]. now rewrite H409, Herr.
  - apply (proj2 (proj2 unique_violation_is_duplicate_entry));
      reflexivity.
  - assert (Hacc : join_accepts
              (Samples.with_insert_fault
                 (unique_violation "waitlist_signups_email_key")
                 Samples.world)
              Samples.grace_request Samples.with_ada Samples.grace_body
              Samples.with_ada_limited).
    { repeat split; try reflexivity. eexists; split; reflexivity. }
    rewrite (proj1 unique_violation_is_duplicate_entry
               _ _ _ _ _ (unique_violation "waitlist_signups_email_key")
               Samples.with_ada_limited "waitlist_signups_email_key"
               Hacc eq_refl eq_refl eq_refl).
    reflexivity.
Defined.

(** ** The referral increment *)

Lemma referral_credits (w : World) (c : ustring) (r : WaitlistSignup)
  (st : Store) :
  c <> [] ->
  referrer_select_error w = false -> referrer_update_error w = false ->
  filter (has_code c) (waitlist_signups st) = [r] ->
  JoinWaitlist.handleReferralIncrement w (Some c) st
  = (Normal tt,
     {| waitlist_signups := map (credit c) (waitlist_signups st);
        waitlist_rate_limits := waitlist_rate_limits st |}).
Proof.
  intros Hc Hs Hu F.
  unfold JoinWaitlist.handleReferralIncrement.
  destruct c as [|x c]; [contradiction|]. cbn [truthy_opt truthy negb nullish].
  unfold bind, select_referrer. rewrite Hs, F. cbn [single].
  unfold update_referral_count, ret. rewrite Hu.
  f_equal. f_equal. apply map_ext_in. intros y Hy. unfold credit.
  destruct (has_code (x :: c) y) eqn:E; [|reflexivity].
  assert (Hin : In y (filter (has_code (x :: c)) (waitlist_signups st)))
    by (apply filter_In; now split).
  rewrite F in Hin. destruct Hin as [->|[]]. reflexivity.
Qed.


(** The rows carrying the code of an old row, after an insert. *)
Lemma filter_code_after_insert w fn em bn rb st1 row st2 r :
  insert_signup w fn em bn rb st1 = (Normal (inl row), st2) ->
  NoDup (map referral_code (waitlist_signups st1)) ->
  In r (waitlist_signups st1) ->
  filter (has_code (referral_code r)) (waitlist_signups st2) = [r]
  /\ map (credit (referral_code r)) (waitlist_signups st2)
     = map (credit (referral_code r)) (waitlist_signups st1) ++ [row].
Proof.
  intros Hins Hnd Hin.
  destruct (insert_signup_inl _ _ _ _ _ _ _ _ Hins)
    as (_ & _ & Hcode & Hrow & ->).
  assert (Hne : has_code (referral_code r) row = false).
  { unfold has_code. apply ueqb_neq. intros E.
    assert (Hx : existsb (has_code (new_referral_code w))
                   (waitlist_signups st1) = true).
    { apply existsb_exists. exists r. split; [exact Hin|].
      unfold has_code. apply ueqb_eq. rewrite <- E. now rewrite Hrow. }
    congruence. }
  cbn [waitlist_signups]. split.
  - rewrite filter_app, (filter_code_unique _ _ Hnd Hin). simpl.
    now rewrite Hne.
  - rewrite map_app. simpl. unfold credit at 2. now rewrite Hne.
Qed.





(** ** Signups for an email the table holds *)

Lemma select_by_email_run w e st :
  exists p, select_by_email w e st = (Normal p, st)
            /\ (lookup_error w = false ->
                p = single (filter (has_email e) (waitlist_signups st))).
Proof.
  unfold select_by_email. destruct (lookup_error w).
  - exists None; split; [reflexivity | discriminate].
  - eexists; split; reflexivity.
Qed.

Lemma existing_user_link_failed w st :
  JoinWaitlist.has_action_link (linkData (link w)) = false ->
  JoinWaitlist.existing_user w st
  = (Throw (ErrorObj "Failed to generate magic link."), st).
Proof.
  intros H. unfold JoinWaitlist.existing_user, bind, generateLink.
  now rewrite H.
Qed.

Lemma existing_user_send_error w st e :
  JoinWaitlist.has_action_link (linkData (link w)) = true ->
  send_error w = Some e ->
  JoinWaitlist.existing_user w st = (Throw (thrown_of_provider e), st).
Proof.
  intros H Hs.
  unfold JoinWaitlist.existing_user, bind, generateLink, resend_emails_send.
  now rewrite H, Hs.
Qed.

Lemma existing_user_sent w st :
  JoinWaitlist.has_action_link (linkData (link w)) = true ->
  send_error w = None ->
  JoinWaitlist.existing_user w st
  = (Normal (respond 200 None
       (Some "Dashboard magic link has been sent to your email.") None), st).
Proof.
  intros H Hs.
  unfold JoinWaitlist.existing_user, bind, generateLink, resend_emails_send.
  now rewrite H, Hs.
Qed.

Lemma existing_user_pure w :
  exists out, forall st, JoinWaitlist.existing_user w st = (out, st).
Proof.
  destruct (JoinWaitlist.has_action_link (linkData (link w))) eqn:H.
  - destruct (send_error w) as [e|] eqn:Hs.
    + eexists; intros st; exact (existing_user_send_error w st e H Hs).
    + eexists; intros st; exact (existing_user_sent w st H Hs).
  - eexists; intros st; exact (existing_user_link_failed w st H).
Qed.

(** C1, as the code has it.  For every accepted signup request whose email
    already has a row, neither handler adds a row or changes a referral
    count: the table of signups is the same after the request.  The
    handler of [ref-dashboard.ts] (first conjunct) answers the
    returning-user response, status 200, when the existence lookup works
    (emails being unique), link generation yields an action link and the
    dispatch does not throw.  The handler of [waitlist.ts] (second
    conjunct) has no existence check: the insert is refused and the answer
    is 409 [duplicate_entry]. *)
Theorem repeated_signup_creates_no_record :
  (forall w req st body st1,
     join_accepts w req st body st1 ->
     existsb (has_email (JoinWaitlist.b_email body)) (waitlist_signups st)
     = true ->
     exists resp st',
       JoinWaitlist.serve w req st = (Normal resp, st')
       /\ waitlist_signups st' = waitlist_signups st
       /\ (lookup_error w = false ->
           NoDup (map email (waitlist_signups st)) ->
           JoinWaitlist.has_action_link (linkData (link w)) = true ->
           send_error w = None ->
           resp = respond 200 None
                    (Some "Dashboard magic link has been sent to your email.")
                    None))
  /\
  (forall w req st body st1,
     waitlist_accepts w req st body st1 ->
     existsb (has_email (Waitlist.b_email body)) (waitlist_signups st)
     = true ->
     exists resp st',
       Waitlist.serve w req st = (Normal resp, st')
       /\ waitlist_signups st' = waitlist_signups st
       /\ (insert_fault w = None ->
           status resp = 409 /\ error resp = Some "duplicate_entry")).
Proof.
  split.
  - intros w req st body st1 Hacc Hex.
    pose proof (join_accepts_signups _ _ _ _ _ Hacc) as Hsig.
    rewrite <- Hsig in Hex.
    rewrite (join_serve_accepted _ _ _ _ _ Hacc).
    unfold try_catch, JoinWaitlist.database_operations, bind at 1.
    destruct (select_by_email_run w (JoinWaitlist.b_email body) st1)
      as (p & Hsel & Hp).
    rewrite Hsel.
    destruct p as [p|].
    + destruct (existing_user_pure w) as (out & Hout).
      pose proof (Hout st1) as Hrun. rewrite Hrun.
      exists (match out with
              | Normal r => r
              | Throw e => JoinWaitlist.handleError e
              end), st1.
      split; [now destruct out|]. split; [exact Hsig|].
      intros _ _ A Hs.
      rewrite (existing_user_sent w st1 A Hs) in Hrun.
      inversion Hrun. reflexivity.
    + unfold JoinWaitlist.new_user, bind at 1.
      destruct (insert_signup_known_email w (JoinWaitlist.b_full_name body)
                  (JoinWaitlist.b_email body) (JoinWaitlist.b_brand_name body)
                  (JoinWaitlist.b_ref body) st1 Hex) as (err & Hins & _).
      rewrite Hins.
      exists (if includes "duplicate" (toLowerCase (pg_message err))
              then respond 409 (Some "duplicate_entry")
                     (Some "This email is already on the waitlist. Check your spam folder.")
                     None
              else JoinWaitlist.handleError (JoinWaitlist.pg_thrown err)), st1.
      split.
      { destruct (includes "duplicate" (toLowerCase (pg_message err)));
          reflexivity. }
      split; [exact Hsig|].
      intros Hl Hnd _ _. exfalso.
      destruct (existsb_has_email_In _ _ Hex) as (r & Hin & He).
      rewrite <- Hsig in Hnd.
      specialize (Hp Hl).
      rewrite <- He, (filter_email_unique _ _ Hnd Hin) in Hp.
      discriminate.
  - intros w req st body st1 Hacc Hex.
    pose proof (waitlist_accepts_signups _ _ _ _ _ Hacc) as Hsig.
    rewrite <- Hsig in Hex.
    rewrite (waitlist_serve_accepted _ _ _ _ _ Hacc).
    unfold try_catch, Waitlist.insert_and_confirm, bind at 1.
    destruct (insert_signup_known_email w (Waitlist.b_full_name body)
                (Waitlist.b_email body) (Waitlist.b_brand_name body)
                (Waitlist.b_ref body) st1 Hex) as (err & Hins & Herr).
    rewrite Hins.
    destruct (includes "duplicate" (toLowerCase (pg_message err))) eqn:Hd.
    + eexists; exists st1. split; [reflexivity|].
      split; [exact Hsig|]. intros _. split; reflexivity.
    + eexists; exists st1. split; [reflexivity|].
      split; [exact Hsig|]. intros Hf.
      rewrite (Herr Hf), unique_violation_duplicate in Hd. discriminate.
Qed.

(** Ada signs up a second time. *)
Lemma repeated_signup_creates_no_record_witness :
  (join_accepts Samples.world Samples.ada_request Samples.with_ada
     Samples.ada_body Samples.with_ada_limited
   /\ exists st',
        JoinWaitlist.serve Samples.world Samples.ada_request Samples.with_ada
        = (Normal (respond 200 None
             (Some "Dashboard magic link has been sent to your email.") None),
           st')
        /\ waitlist_signups st' = [Samples.ada_row])
  /\ (waitlist_accepts Samples.world Samples.ada_request Samples.with_ada
        Samples.ada_body_v1 Samples.with_ada_limited
      /\ exists resp st',
           Waitlist.serve Samples.world Samples.ada_request Samples.with_ada
           = (Normal resp, st')
           /\ waitlist_signups st' = [Samples.ada_row]
           /\ status resp = 409).
Proof.
  split.
  - assert (Hacc : join_accepts Samples.world Samples.ada_request
              Samples.with_ada Samples.ada_body Samples.with_ada_limited).
    { repeat split; try reflexivity. eexists; split; reflexivity. }
    split; [exact Hacc|].
    destruct (proj1 repeated_signup_creates_no_record Samples.world
                Samples.ada_request Samples.with_ada Samples.ada_body
                Samples.with_ada_limited Hacc eq_refl)
      as (resp & st' & Hs & Hsig & H200).
    exists st'. split; [|exact Hsig].
    rewrite Hs. f_equal. f_equal. apply H200; try reflexivity.
    repeat constructor. intros [].
  - assert (Hacc : waitlist_accepts Samples.world Samples.ada_request
              Samples.with_ada Samples.ada_body_v1 Samples.with_ada_limited).
    { repeat split; try reflexivity. eexists; split; reflexivity. }
    split; [exact Hacc|].
    destruct (proj2 repeated_signup_creates_no_record Samples.world
                Samples.ada_request Samples.with_ada Samples.ada_body_v1
                Samples.with_ada_limited Hacc eq_refl)
      as (resp & st' & Hs & Hsig & H409).
    exists resp, st'. split; [exact Hs|]. split; [exact Hsig|].
    apply H409. reflexivity.
Defined.

(** C1 as stated fails: a repeated valid signup is answered with 409 by the
    handler of [waitlist.ts], and with 500 by the handler of
    [ref-dashboard.ts] when link generation fails. *)
Lemma repeated_signup_is_not_always_200 :
  existsb (has_email (u "ada@example.com"))
    (waitlist_signups Samples.with_ada) = true
  /\ waitlist_accepts Samples.world Samples.ada_request Samples.with_ada
       Samples.ada_body_v1 Samples.with_ada_limited
  /\ answer (Waitlist.serve Samples.world Samples.ada_request
               Samples.with_ada)
     = Some (409, Some "duplicate_entry")
  /\ join_accepts (Samples.with_link Samples.failed_link Samples.world)
       Samples.ada_request Samples.with_ada Samples.ada_body
       Samples.with_ada_limited
  /\ answer (JoinWaitlist.serve
               (Samples.with_link Samples.failed_link Samples.world)
               Samples.ada_request Samples.with_ada)
     = Some (500, Some "internal_server_error").
Proof.
  split; [reflexivity|]. split.
  { repeat split; try reflexivity. eexists; split; reflexivity. }
  split; [reflexivity|]. split; [|reflexivity].
  repeat split; try reflexivity. eexists; split; reflexivity.
Qed.

(** ** A refused mail on the returning-user path *)

(** C9.  On the returning-user path of [ref-dashboard.ts] (request
    accepted, existence lookup answering a profile, action link
    generated), when the send call resolves, the provider having refused
    the mail with [r], the handler answers 200 and says that the link has
    been sent: no failure reaches the generic handler.  The tables stay as
    the limiter left them. *)
Theorem returning_user_refusal_is_answered_200 :
  forall w req st body st1 p d lp a r,
    join_accepts w req st body st1 ->
    select_by_email w (JoinWaitlist.b_email body) st1
    = (Normal (Some p), st1) ->
    linkData (link w) = Some d ->
    properties d = Some lp ->
    action_link lp = Some a ->
    a <> "" ->
    send_error w = None ->
    send_refused w = Some r ->
    JoinWaitlist.serve w req st
    = (Normal (respond 200 None
         (Some "Dashboard magic link has been sent to your email.") None),
       st1).
Proof.
  intros w req st body st1 p d lp a r Hacc Hsel Hd Hp Ha Hne Hs _.
  rewrite (join_serve_accepted _ _ _ _ _ Hacc).
  unfold try_catch, JoinWaitlist.database_operations, bind at 1.
  rewrite Hsel.
  now rewrite (existing_user_sent w st1
                 (has_action_link_given _ d lp a Hd Hp Ha Hne) Hs).
Qed.

(** Ada, who is on the list, asks again while the provider answers the send
    call with the 429 of a used-up daily quota. *)
Lemma returning_user_refusal_is_answered_200_witness :
  In Samples.ada_row (waitlist_signups Samples.with_ada)
  /\ er_statusCode Samples.daily_quota = 429
  /\ answer (JoinWaitlist.serve
               (Samples.with_send_refused Samples.daily_quota Samples.world)
               Samples.ada_request Samples.with_ada)
     = Some (200, None)
  /\ waitlist_signups
       (snd (JoinWaitlist.serve
               (Samples.with_send_refused Samples.daily_quota Samples.world)
               Samples.ada_request Samples.with_ada))
     = waitlist_signups Samples.with_ada.
Proof.
  assert (Hacc : join_accepts
            (Samples.with_send_refused Samples.daily_quota Samples.world)
            Samples.ada_request Samples.with_ada Samples.ada_body
            Samples.with_ada_limited).
  { repeat split; try reflexivity. eexists; split; reflexivity. }
  split; [now left|]. split; [reflexivity|].
  unfold answer.
  rewrite (returning_user_refusal_is_answered_200 _ _ _ _ _
             Samples.ada_row _ _ "https://serveqrew.org/auth/v1/verify"
             Samples.daily_quota Hacc eq_refl eq_refl eq_refl eq_refl
             ltac:(discriminate) eq_refl eq_refl).
  split; reflexivity.
Defined.

(** ** The rate limiter *)

Lemma join_serve_denied w req st st' :
  method req = "POST" ->
  JoinWaitlist.checkRateLimit w (JoinWaitlist.client_ip req) st
  = (Normal false, st') ->
  JoinWaitlist.serve w req st
  = (Normal (respond 429 (Some "rate_limit_exceeded")
       (Some "Too many requests. Please wait 2 minutes.") None), st').
Proof.
  intros Hm Hrl. unfold JoinWaitlist.serve, JoinWaitlist.handleCors.
  rewrite Hm. cbn [String.eqb Ascii.eqb Bool.eqb negb].
  unfold bind. now rewrite Hrl.
Qed.

Lemma waitlist_serve_denied w req st st' :
  method req = "POST" ->
  Waitlist.checkRateLimit w (Waitlist.client_ip req) Waitlist.endpoint_name st
  = (Normal false, st') ->
  exists resp,
    Waitlist.serve w req st = (Normal resp, st')
    /\ status resp = 429 /\ error resp = Some "rate_limit_exceeded".
Proof.
  intros Hm Hrl. unfold Waitlist.serve, Waitlist.validateCors.
  rewrite Hm. cbn [String.eqb Ascii.eqb Bool.eqb negb].
  unfold bind. rewrite Hrl.
  eexists; split; [reflexivity|]. split; reflexivity.
Qed.

(** C3. The limiter of both handlers meets [Limiter.Contract] for the
    endpoint [join-waitlist]: for a fixed ip, when the count of rows in the
    trailing 120 seconds is at least 5 the request is denied and no row is
    inserted; when it is below 5 the request is allowed and a row is
    inserted (the datastore taking the insert); five requests of a client
    not seen before are allowed and a sixth one within 120 seconds of them
    is denied; when the counting query fails the request is allowed.  A
    denied POST is answered with 429 [rate_limit_exceeded] by both
    handlers, the tables staying as they were. *)
Theorem rate_limit_window :
  Limiter.Contract JoinWaitlist.checkRateLimit "join-waitlist"
  /\ Limiter.Contract
       (fun w ip0 => Waitlist.checkRateLimit w ip0 Waitlist.endpoint_name)
       "join-waitlist"
  /\ (forall w req st st',
        method req = "POST" ->
        JoinWaitlist.checkRateLimit w (JoinWaitlist.client_ip req) st
        = (Normal false, st') ->
        st' = st
        /\ exists resp,
             JoinWaitlist.serve w req st = (Normal resp, st)
             /\ status resp = 429 /\ error resp = Some "rate_limit_exceeded")
  /\ (forall w req st st',
        method req = "POST" ->
        Waitlist.checkRateLimit w (Waitlist.client_ip req)
          Waitlist.endpoint_name st = (Normal false, st') ->
        st' = st
        /\ exists resp,
             Waitlist.serve w req st = (Normal resp, st)
             /\ status resp = 429 /\ error resp = Some "rate_limit_exceeded").
Proof.
  assert (Hsame : forall w ip0 ep st st',
            Waitlist.checkRateLimit w ip0 ep st = (Normal false, st') ->
            st' = st).
  { intros w ip0 ep st st'. rewrite checkRateLimit_eq.
    destruct (count_error w); [discriminate|].
    destruct (5 <=? _); [intros H; now inversion H|].
    destruct (rate_insert_error w); discriminate. }
  split; [exact (limiter_contract "join-waitlist")|].
  split; [exact (limiter_contract "join-waitlist")|].
  split.
  - intros w req st st' Hm Hrl.
    pose proof Hrl as Hrl'. rewrite <- checkRateLimit_same in Hrl'.
    apply Hsame in Hrl'. subst st'. split; [reflexivity|].
    rewrite (join_serve_denied _ _ _ _ Hm Hrl).
    eexists; split; [reflexivity|]. split; reflexivity.
  - intros w req st st' Hm Hrl.
    pose proof (Hsame _ _ _ _ _ Hrl). subst st'. split; [reflexivity|].
    exact (waitlist_serve_denied _ _ _ _ Hm Hrl).
Qed.

(** Five requests twenty seconds apart, and a sixth one 119 seconds after
    the first. *)
Lemma rate_limit_window_witness :
  (Forall (fun b => b = Normal true)
     (fst (Limiter.run JoinWaitlist.checkRateLimit "203.0.113.7"
             Samples.burst Samples.empty))
   /\ answer (JoinWaitlist.serve (Samples.world_at 1700000119000)
                Samples.ada_request
                (snd (Limiter.run JoinWaitlist.checkRateLimit "203.0.113.7"
                        Samples.burst Samples.empty)))
      = Some (429, Some "rate_limit_exceeded"))
  /\ (Forall (fun b => b = Normal true)
        (fst (Limiter.run
                (fun w ip0 =>
                   Waitlist.checkRateLimit w ip0 Waitlist.endpoint_name)
                "203.0.113.7" Samples.burst Samples.empty))
      /\ answer (Waitlist.serve (Samples.world_at 1700000119000)
                   Samples.ada_request
                   (snd (Limiter.run
                           (fun w ip0 =>
                              Waitlist.checkRateLimit w ip0
                                Waitlist.endpoint_name)
                           "203.0.113.7" Samples.burst Samples.empty)))
         = Some (429, Some "rate_limit_exceeded")).
Proof.
  split.
  - destruct (proj1 rate_limit_window (Samples.world_at 1700000119000)
                "203.0.113.7" Samples.empty) as (_ & _ & _ & Hsix).
    destruct (Hsix Samples.burst) as (Hfive & Hdenied).
    + reflexivity.
    + reflexivity.
    + repeat constructor; discriminate.
    + reflexivity.
    + split; [exact Hfive|].
      destruct (proj1 (proj2 (proj2 rate_limit_window))
                  (Samples.world_at 1700000119000) Samples.ada_request
                  _ _ eq_refl Hdenied) as (_ & resp & Hs & H429 & Herr).
      unfold answer. rewrite Hs. cbn [fst]. now rewrite H429, Herr.
  - destruct (proj1 (proj2 rate_limit_window)
                (Samples.world_at 1700000119000)
                "203.0.113.7" Samples.empty) as (_ & _ & _ & Hsix).
    destruct (Hsix Samples.burst) as (Hfive & Hdenied).
    + reflexivity.
    + reflexivity.
    + repeat constructor; discriminate.
    + reflexivity.
    + split; [exact Hfive|].
      destruct (proj2 (proj2 (proj2 rate_limit_window))
                  (Samples.world_at 1700000119000) Samples.ada_request
                  _ _ eq_refl Hdenied) as (_ & resp & Hs & H429 & Herr).
      unfold answer. rewrite Hs. cbn [fst]. now rewrite H429, Herr.
Defined.

End Claims.

(* ===================================================================== *)
(** * The leaderboard *)
(* ===================================================================== *)

Section LeaderboardFacts.
Import JS Leaderboard.

Import Ranking.

Lemma firstn_incl {A} (n : nat) (l : list A) (y : A) :
  In y (firstn n l) -> In y l.
Proof.
  revert n. induction l as [|x l IH]; intros [|n]; simpl; try tauto.
  intros [H|H]; [now left | right; eapply IH; exact H].
Qed.

Lemma insert_desc_perm (r : Row) (l : list Row) :
  Permutation (insert_desc r l) (r :: l).
Proof.
  induction l as [|x l IH]; simpl; [reflexivity|].
  destruct (referral_count x <=? referral_count r); [reflexivity|].
  rewrite IH. apply perm_swap.
Qed.

Lemma order_desc_perm (l : list Row) : Permutation (order_desc l) l.
Proof.
  induction l as [|r l IH]; simpl; [reflexivity|].
  rewrite insert_desc_perm. now constructor.
Qed.

Lemma insert_desc_sorted (r : Row) (l : list Row) :
  StronglySorted not_above l -> StronglySorted not_above (insert_desc r l).
Proof.
  induction 1 as [|x l Hs IH Hx]; simpl.
  - repeat constructor.
  - destruct (referral_count x <=? referral_count r) eqn:E.
    + apply Z.leb_le in E. constructor; [now constructor|].
      constructor; [exact E|].
      eapply Forall_impl; [|exact Hx]. unfold not_above. intros; lia.
    + apply Z.leb_gt in E. constructor; [exact IH|].
      eapply Permutation_Forall; [symmetry; apply insert_desc_perm|].
      constructor; [unfold not_above; lia | exact Hx].
Qed.

Lemma order_desc_sorted (l : list Row) :
  StronglySorted not_above (order_desc l).
Proof.
  induction l as [|r l IH]; simpl; [constructor|].
  now apply insert_desc_sorted.
Qed.

Lemma firstn_sorted (n : nat) (l : list Row) :
  StronglySorted not_above l -> StronglySorted not_above (firstn n l).
Proof.
  intros H. revert n. induction H as [|x l Hs IH Hx]; intros [|n]; simpl;
    try constructor.
  - apply IH.
  - apply Forall_forall. intros y Hy.
    eapply Forall_forall; [exact Hx|]. eapply firstn_incl; exact Hy.
Qed.

Lemma sorted_nth (l : list Row) :
  StronglySorted not_above l ->
  forall i j a b, (i <= j)%nat ->
    nth_error l i = Some a -> nth_error l j = Some b -> not_above a b.
Proof.
  induction 1 as [|x l Hs IH Hx]; intros i j a b Hij Ha Hb.
  - destruct i; discriminate.
  - destruct i as [|i], j as [|j]; simpl in Ha, Hb; try lia.
    + inversion Ha; inversion Hb; subst. unfold not_above; lia.
    + inversion Ha; subst.
      eapply Forall_forall; [exact Hx|]. eapply nth_error_In; exact Hb.
    + eapply IH; [|exact Ha|exact Hb]. lia.
Qed.

Lemma map_index_nth {A B} (f : A -> nat -> B) (l : list A) :
  forall k i,
    nth_error (map_index f k l) i
    = option_map (fun x => f x (k + i)%nat) (nth_error l i).
Proof.
  induction l as [|x l IH]; intros k [|i]; simpl; try reflexivity.
  - now rewrite Nat.add_0_r.
  - rewrite IH. now rewrite Nat.add_succ_r.
Qed.

Lemma map_index_length {A B} (f : A -> nat -> B) (l : list A) :
  forall k, List.length (map_index f k l) = List.length l.
Proof. induction l as [|x l IH]; intros k; simpl; [|rewrite IH]; reflexivity. Qed.

Lemma map_index_user (l : list Row) :
  forall k,
    map user (map_index (fun u0 index =>
                           {| user := u0; rank := Z.of_nat index + 1 |}) k l)
    = l.
Proof. induction l as [|x l IH]; intros k; simpl; [|rewrite IH]; reflexivity. Qed.

(** C7. When the query succeeds, the answer to a GET is a list of at most
    10 entries in which [referral_count] never increases from an entry to a
    later one and in which the rank of each entry is its position counted
    from 1; the entries are rows of the view. *)
Theorem leaderboard_top_ten :
  forall w : World,
    query_error w = None ->
    exists board,
      serve w "GET" = {| status := 200; body := Board board |}
      /\ (List.length board <= 10)%nat
      /\ (forall i j a b, (i <= j)%nat ->
            nth_error board i = Some a -> nth_error board j = Some b ->
            referral_count (user b) <= referral_count (user a))
      /\ (forall i a, nth_error board i = Some a ->
            rank a = Z.of_nat i + 1)
      /\ exists rest,
           Permutation (map user board ++ rest) (waitlist_leaderboard w).
Proof.
  intros w Hq.
  unfold serve, query. rewrite Hq. cbn [String.eqb Ascii.eqb Bool.eqb negb].
  eexists; split; [reflexivity|].
  set (data := firstn 10 (order_desc (waitlist_leaderboard w))).
  assert (Hsorted : StronglySorted not_above data)
    by apply firstn_sorted, order_desc_sorted.
  split; [|split; [|split]].
  - rewrite map_index_length. apply firstn_le_length.
  - intros i j a b Hij Ha Hb.
    rewrite map_index_nth in Ha, Hb.
    destruct (nth_error data i) as [x|] eqn:Hx; [|discriminate].
    destruct (nth_error data j) as [y|] eqn:Hy; [|discriminate].
    inversion Ha; inversion Hb; subst. cbn [user].
    exact (sorted_nth data Hsorted i j x y Hij Hx Hy).
  - intros i a Ha. rewrite map_index_nth in Ha.
    destruct (nth_error data i) as [x|]; [|discriminate].
    inversion Ha; subst. reflexivity.
  - exists (skipn 10 (order_desc (waitlist_leaderboard w))).
    rewrite map_index_user. unfold data. rewrite firstn_skipn.
    apply order_desc_perm.
Qed.

(** A view of twelve rows. *)
Lemma leaderboard_top_ten_witness :
  query_error Samples.board_world = None
  /\ exists board,
       serve Samples.board_world "GET"
       = {| status := 200; body := Board board |}
       /\ List.length board = 10%nat
       /\ map (fun e => (referral_count (user e), rank e)) board
          = [(9, 1); (8, 2); (7, 3); (7, 4); (6, 5); (5, 6); (4, 7); (3, 8);
             (2, 9); (1, 10)].
Proof.
  split; [reflexivity|].
  destruct (leaderboard_top_ten Samples.board_world eq_refl)
    as (board & Hs & _).
  exists board. split; [exact Hs|].
  assert (Hb : Board board
               = body (serve Samples.board_world "GET"))
    by now rewrite Hs.
  vm_compute in Hb. inversion Hb. split; reflexivity.
Defined.

End LeaderboardFacts.

(* ===================================================================== *)
(** * The validators *)
(* ===================================================================== *)

Section Validation.
Import JS Services Flow.

Lemma optional_trim_trimmable (callee : string) (v : option json) :
  trimmable v ->
  JoinWaitlist.optional_trim callee v
  = Normal match v with
           | Some (JStr s) => Some (trim s)
           | _ => None
           end.
Proof. destruct v as [[]|]; simpl; intros H; try contradiction; reflexivity. Qed.

Lemma truthy_opt_text (v : option json) :
  truthy_opt match v with
             | Some (JStr s) => Some (trim s)
             | _ => None
             end
  = truthy (text_of v).
Proof. destruct v as [[]|]; reflexivity. Qed.

Lemma nullish_text (v : option json) :
  nullish match v with
          | Some (JStr s) => Some (trim s)
          | _ => None
          end []
  = text_of v.
Proof. destruct v as [[]|]; reflexivity. Qed.

Lemma trim_if_string_text (v : option json) :
  Waitlist.trim_if_string v (fun s => s) [] = text_of v.
Proof. destruct v as [[]|]; reflexivity. Qed.

(** The validator of [ref-dashboard.ts] on an object whose four members
    are strings, null or absent. *)
Lemma validateBody_trimmable props :
  trimmable (assoc "full_name" props) ->
  trimmable (assoc "email" props) ->
  trimmable (assoc "brand_name" props) ->
  trimmable (assoc "ref" props) ->
  JoinWaitlist.validateBody (JObj props)
  = let full_name := text_of (assoc "full_name" props) in
    let email := text_of (assoc "email" props) in
    if negb (truthy full_name) then Throw (ErrorObj "full_name_required")
    else if negb (truthy email) then Throw (ErrorObj "email_required")
    else if len full_name >? 50 then Throw (ErrorObj "full_name_too_long")
    else if len email >? 200 then Throw (ErrorObj "email_too_long")
    else JoinWaitlist.validateBody (JObj props).
Proof.
  intros Tn Te Tb Tr. cbv zeta.
  unfold JoinWaitlist.validateBody.
  cbn [falsy typeof_object isArray negb orb prop].
  rewrite (optional_trim_trimmable _ _ Tn), (optional_trim_trimmable _ _ Te),
    (optional_trim_trimmable _ _ Tb), (optional_trim_trimmable _ _ Tr).
  cbn [cbind].
  rewrite (truthy_opt_text (assoc "full_name" props)),
    (nullish_text (assoc "full_name" props)),
    (truthy_opt_text (assoc "email" props)),
    (nullish_text (assoc "email" props)).
  unfold JoinWaitlist.MAX_FULL_NAME_LENGTH, JoinWaitlist.MAX_EMAIL_LENGTH.
  destruct (negb (truthy (text_of (assoc "full_name" props))));
    [reflexivity|].
  destruct (negb (truthy (text_of (assoc "email" props)))); [reflexivity|].
  destruct (len (text_of (assoc "full_name" props)) >? 50); [reflexivity|].
  destruct (len (text_of (assoc "email" props)) >? 200); reflexivity.
Qed.

(** The validator of [waitlist.ts] on an object. *)
Lemma validateWaitlistBody_object props :
  Waitlist.validateWaitlistBody (JObj props)
  = let full_name := text_of (assoc "full_name" props) in
    let email := text_of (assoc "email" props) in
    if negb (truthy full_name) then
      Throw (ErrorObj "Full_name field is required.")
    else if negb (truthy email) then Throw (ErrorObj "Email field is required.")
    else if len full_name >? 35 then
      Throw (ErrorObj "Full_name exceeds 35 chars.")
    else if len email >? 50 then Throw (ErrorObj "Email exceeds 50 chars.")
    else Waitlist.validateWaitlistBody (JObj props).
Proof.
  cbv zeta. unfold Waitlist.validateWaitlistBody.
  cbn [falsy typeof_object negb orb prop].
  rewrite (trim_if_string_text (assoc "full_name" props)),
    (trim_if_string_text (assoc "email" props)).
  destruct (negb (truthy (text_of (assoc "full_name" props))));
    [reflexivity|].
  destruct (negb (truthy (text_of (assoc "email" props)))); [reflexivity|].
  destruct (len (text_of (assoc "full_name" props)) >? 35); [reflexivity|].
  destruct (len (text_of (assoc "email" props)) >? 50); reflexivity.
Qed.

(** The whole decision chain of [validateBody] of [ref-dashboard.ts] on an
    object whose four members are strings, null or absent. *)
Lemma validateBody_chain props :
  trimmable (assoc "full_name" props) ->
  trimmable (assoc "email" props) ->
  trimmable (assoc "brand_name" props) ->
  trimmable (assoc "ref" props) ->
  JoinWaitlist.validateBody (JObj props)
  = let full_name := text_of (assoc "full_name" props) in
    let email := text_of (assoc "email" props) in
    let brand_name := text_of (assoc "brand_name" props) in
    if negb (truthy full_name) then Throw (ErrorObj "full_name_required")
    else if negb (truthy email) then Throw (ErrorObj "email_required")
    else if len full_name >? 50 then Throw (ErrorObj "full_name_too_long")
    else if len email >? 200 then Throw (ErrorObj "email_too_long")
    else if truthy brand_name && (len brand_name >? 70) then
      Throw (ErrorObj "brand_name_too_long")
    else if negb (test JoinWaitlist.EMAIL_REGEX email) then
      Throw (ErrorObj "invalid_email_format")
    else
      Normal {| JoinWaitlist.b_full_name := full_name;
                JoinWaitlist.b_email := email;
                JoinWaitlist.b_brand_name :=
                  Inputs.member_text (assoc "brand_name" props);
                JoinWaitlist.b_ref := Inputs.member_text (assoc "ref" props) |}.
Proof.
  intros Tn Te Tb Tr. cbv zeta.
  unfold JoinWaitlist.validateBody.
  cbn [falsy typeof_object isArray negb orb prop].
  rewrite (optional_trim_trimmable _ _ Tn), (optional_trim_trimmable _ _ Te),
    (optional_trim_trimmable _ _ Tb), (optional_trim_trimmable _ _ Tr).
  cbn [cbind].
  rewrite (truthy_opt_text (assoc "full_name" props)),
    (nullish_text (assoc "full_name" props)),
    (truthy_opt_text (assoc "email" props)),
    (nullish_text (assoc "email" props)),
    (truthy_opt_text (assoc "brand_name" props)),
    (nullish_text (assoc "brand_name" props)).
  reflexivity.
Qed.

(** The whole decision chain of [validateWaitlistBody] of [waitlist.ts] on
    an object. *)
Lemma validateWaitlistBody_chain props :
  Waitlist.validateWaitlistBody (JObj props)
  = let full_name := text_of (assoc "full_name" props) in
    let email := text_of (assoc "email" props) in
    let brand_name := text_of (assoc "brand_name" props) in
    if negb (truthy full_name) then
      Throw (ErrorObj "Full_name field is required.")
    else if negb (truthy email) then Throw (ErrorObj "Email field is required.")
    else if len full_name >? 35 then
      Throw (ErrorObj "Full_name exceeds 35 chars.")
    else if len email >? 50 then Throw (ErrorObj "Email exceeds 50 chars.")
    else if truthy brand_name && (len brand_name >? 50) then
      Throw (ErrorObj "Brand_name exceeds 50 chars.")
    else if negb (test Waitlist.emailRegex email) then
      Throw (ErrorObj "Invalid_email_format")
    else
      Normal {| Waitlist.b_full_name := full_name;
                Waitlist.b_email := email;
                Waitlist.b_brand_name :=
                  Inputs.member_text (assoc "brand_name" props);
                Waitlist.b_ref := Inputs.member_text (assoc "ref" props) |}.
Proof.
  cbv zeta. unfold Waitlist.validateWaitlistBody.
  cbn [falsy typeof_object negb orb prop].
  rewrite (trim_if_string_text (assoc "full_name" props)),
    (trim_if_string_text (assoc "email" props)).
  assert (Eb : forall v, Waitlist.trim_if_string v Some None = Inputs.member_text v)
    by (intros [[]|]; reflexivity).
  rewrite !Eb. unfold Inputs.member_text.
  rewrite (truthy_opt_text (assoc "brand_name" props)),
    (nullish_text (assoc "brand_name" props)).
  reflexivity.
Qed.

Lemma truthy_false_nil (s : ustring) : truthy s = false -> s = [].
Proof. destruct s; [reflexivity | discriminate]. Qed.

Lemma long_truthy (s : ustring) (n : Z) : 0 <= n -> len s > n -> truthy s = true.
Proof. destruct s; [unfold len; simpl; lia | reflexivity]. Qed.

Lemma gtb_of_gt (a b : Z) : a > b -> (a >? b) = true.
Proof. intros H. apply Z.gtb_lt. lia. Qed.

Lemma gtb_of_le (a b : Z) : a <= b -> (a >? b) = false.
Proof. intros H. rewrite Z.gtb_ltb. apply Z.ltb_ge. lia. Qed.

(** The outcome of the decision chain of [ref-dashboard.ts], check by
    check. *)
Lemma validateBody_table props :
  trimmable (assoc "full_name" props) ->
  trimmable (assoc "email" props) ->
  trimmable (assoc "brand_name" props) ->
  trimmable (assoc "ref" props) ->
  let full_name := text_of (assoc "full_name" props) in
  let email := text_of (assoc "email" props) in
  let brand_name := text_of (assoc "brand_name" props) in
  let v := JoinWaitlist.validateBody (JObj props) in
  (full_name = [] -> v = Throw (ErrorObj "full_name_required"))
  /\ (full_name <> [] -> email = [] -> v = Throw (ErrorObj "email_required"))
  /\ (full_name <> [] -> email <> [] -> len full_name > 50 ->
      v = Throw (ErrorObj "full_name_too_long"))
  /\ (full_name <> [] -> email <> [] -> len full_name <= 50 ->
      len email > 200 -> v = Throw (ErrorObj "email_too_long"))
  /\ (full_name <> [] -> email <> [] -> len full_name <= 50 ->
      len email <= 200 -> len brand_name > 70 ->
      v = Throw (ErrorObj "brand_name_too_long"))
  /\ (full_name <> [] -> email <> [] -> len full_name <= 50 ->
      len email <= 200 -> len brand_name <= 70 ->
      test JoinWaitlist.EMAIL_REGEX email = false ->
      v = Throw (ErrorObj "invalid_email_format")).
Proof.
  intros Tn Te Tb Tr. cbv zeta.
  rewrite (validateBody_chain props Tn Te Tb Tr). cbv zeta.
  repeat split.
  - intros ->. reflexivity.
  - intros Hn ->. apply truthy_nonempty in Hn. now rewrite Hn.
  - intros Hn He L. apply truthy_nonempty in Hn, He.
    now rewrite Hn, He, (gtb_of_gt _ _ L).
  - intros Hn He L1 L2. apply truthy_nonempty in Hn, He.
    now rewrite Hn, He, (gtb_of_le _ _ L1), (gtb_of_gt _ _ L2).
  - intros Hn He L1 L2 L3. apply truthy_nonempty in Hn, He.
    rewrite Hn, He, (gtb_of_le _ _ L1), (gtb_of_le _ _ L2),
      (gtb_of_gt _ _ L3), (long_truthy _ 70 ltac:(lia) L3).
    reflexivity.
  - intros Hn He L1 L2 L3 T. apply truthy_nonempty in Hn, He.
    rewrite Hn, He, (gtb_of_le _ _ L1), (gtb_of_le _ _ L2),
      (gtb_of_le _ _ L3), andb_false_r, T.
    reflexivity.
Qed.

(** The same for [waitlist.ts]. *)
Lemma validateWaitlistBody_table props :
  let full_name := text_of (assoc "full_name" props) in
  let email := text_of (assoc "email" props) in
  let brand_name := text_of (assoc "brand_name" props) in
  let v := Waitlist.validateWaitlistBody (JObj props) in
  (full_name = [] -> v = Throw (ErrorObj "Full_name field is required."))
  /\ (full_name <> [] -> email = [] ->
      v = Throw (ErrorObj "Email field is required."))
  /\ (full_name <> [] -> email <> [] -> len full_name > 35 ->
      v = Throw (ErrorObj "Full_name exceeds 35 chars."))
  /\ (full_name <> [] -> email <> [] -> len full_name <= 35 ->
      len email > 50 -> v = Throw (ErrorObj "Email exceeds 50 chars."))
  /\ (full_name <> [] -> email <> [] -> len full_name <= 35 ->
      len email <= 50 -> len brand_name > 50 ->
      v = Throw (ErrorObj "Brand_name exceeds 50 chars."))
  /\ (full_name <> [] -> email <> [] -> len full_name <= 35 ->
      len email <= 50 -> len brand_name <= 50 ->
      test Waitlist.emailRegex email = false ->
      v = Throw (ErrorObj "Invalid_email_format")).
Proof.
  cbv zeta. rewrite (validateWaitlistBody_chain props). cbv zeta.
  repeat split.
  - intros ->. reflexivity.
  - intros Hn ->. apply truthy_nonempty in Hn. now rewrite Hn.
  - intros Hn He L. apply truthy_nonempty in Hn, He.
    now rewrite Hn, He, (gtb_of_gt _ _ L).
  - intros Hn He L1 L2. apply truthy_nonempty in Hn, He.
    now rewrite Hn, He, (gtb_of_le _ _ L1), (gtb_of_gt _ _ L2).
  - intros Hn He L1 L2 L3. apply truthy_nonempty in Hn, He.
    rewrite Hn, He, (gtb_of_le _ _ L1), (gtb_of_le _ _ L2),
      (gtb_of_gt _ _ L3), (long_truthy _ 50 ltac:(lia) L3).
    reflexivity.
  - intros Hn He L1 L2 L3 T. apply truthy_nonempty in Hn, He.
    rewrite Hn, He, (gtb_of_le _ _ L1), (gtb_of_le _ _ L2),
      (gtb_of_le _ _ L3), andb_false_r, T.
    reflexivity.
Qed.

(** C8, as the code has it.  The checks run in the order non-object
    rejection, trimming, required fields (name, then email), maximum
    lengths (name, then email, then brand), email format.  For every object
    (for [ref-dashboard.ts]: whose four members are strings, null or
    absent; [text_of] is the trimmed text of a member, empty when it is not
    a string):

    - when the trimmed email is empty the validator throws a required-field
      error, answered with 400, never the format error: the email's when
      the trimmed name is not empty, the name's when it is empty;
    - when the trimmed email is longer than the maximum and the trimmed
      name is not empty, the validator throws a too-long error, answered
      with 400, whatever the format of the email: the email's when the
      name is within its bound, the name's when it is not;
    - in full, the first of these decides the outcome: empty name, empty
      email, name over its bound, email over its bound, brand name over
      its bound, email not matching the pattern.

    First conjunct: [validateBody] of [ref-dashboard.ts] (bounds 50, 200,
    70); second: [validateWaitlistBody] of [waitlist.ts] (bounds 35, 50,
    50). *)
Theorem validation_order :
  (forall props,
     trimmable (assoc "full_name" props) ->
     trimmable (assoc "email" props) ->
     trimmable (assoc "brand_name" props) ->
     trimmable (assoc "ref" props) ->
     (text_of (assoc "email" props) = [] ->
      exists m,
        JoinWaitlist.validateBody (JObj props) = Throw (ErrorObj m)
        /\ (m = "full_name_required" \/ m = "email_required")
        /\ (text_of (assoc "full_name" props) <> [] -> m = "email_required")
        /\ (text_of (assoc "full_name" props) = [] ->
            m = "full_name_required")
        /\ status (JoinWaitlist.handleError (ErrorObj m)) = 400
        /\ error (JoinWaitlist.handleError (ErrorObj m))
           = Some "missing_field")
     /\ (len (text_of (assoc "email" props)) > 200 ->
         text_of (assoc "full_name" props) <> [] ->
         exists m,
           JoinWaitlist.validateBody (JObj props) = Throw (ErrorObj m)
           /\ (m = "full_name_too_long" \/ m = "email_too_long")
           /\ (len (text_of (assoc "full_name" props)) <= 50 ->
               m = "email_too_long")
           /\ (len (text_of (assoc "full_name" props)) > 50 ->
               m = "full_name_too_long")
           /\ status (JoinWaitlist.handleError (ErrorObj m)) = 400
           /\ error (JoinWaitlist.handleError (ErrorObj m))
              = Some "field_too_long")
     /\ (let full_name := text_of (assoc "full_name" props) in
         let email := text_of (assoc "email" props) in
         let brand_name := text_of (assoc "brand_name" props) in
         let v := JoinWaitlist.validateBody (JObj props) in
         (full_name = [] -> v = Throw (ErrorObj "full_name_required"))
         /\ (full_name <> [] -> email = [] ->
             v = Throw (ErrorObj "email_required"))
         /\ (full_name <> [] -> email <> [] -> len full_name > 50 ->
             v = Throw (ErrorObj "full_name_too_long"))
         /\ (full_name <> [] -> email <> [] -> len full_name <= 50 ->
             len email > 200 -> v = Throw (ErrorObj "email_too_long"))
         /\ (full_name <> [] -> email <> [] -> len full_name <= 50 ->
             len email <= 200 -> len brand_name > 70 ->
             v = Throw (ErrorObj "brand_name_too_long"))
         /\ (full_name <> [] -> email <> [] -> len full_name <= 50 ->
             len email <= 200 -> len brand_name <= 70 ->
             test JoinWaitlist.EMAIL_REGEX email = false ->
             v = Throw (ErrorObj "invalid_email_format"))))
  /\
  (forall props,
     (text_of (assoc "email" props) = [] ->
      exists m,
        Waitlist.validateWaitlistBody (JObj props) = Throw (ErrorObj m)
        /\ (m = "Full_name field is required."
            \/ m = "Email field is required.")
        /\ (text_of (assoc "full_name" props) <> [] ->
            m = "Email field is required.")
        /\ (text_of (assoc "full_name" props) = [] ->
            m = "Full_name field is required.")
        /\ status (Waitlist.on_error (ErrorObj m)) = 400)
     /\ (len (text_of (assoc "email" props)) > 50 ->
         text_of (assoc "full_name" props) <> [] ->
         exists m,
           Waitlist.validateWaitlistBody (JObj props) = Throw (ErrorObj m)
           /\ (m = "Full_name exceeds 35 chars."
               \/ m = "Email exceeds 50 chars.")
           /\ (len (text_of (assoc "full_name" props)) <= 35 ->
               m = "Email exceeds 50 chars.")
           /\ (len (text_of (assoc "full_name" props)) > 35 ->
               m = "Full_name exceeds 35 chars.")
           /\ status (Waitlist.on_error (ErrorObj m)) = 400)
     /\ (let full_name := text_of (assoc "full_name" props) in
         let email := text_of (assoc "email" props) in
         let brand_name := text_of (assoc "brand_name" props) in
         let v := Waitlist.validateWaitlistBody (JObj props) in
         (full_name = [] ->
          v = Throw (ErrorObj "Full_name field is required."))
         /\ (full_name <> [] -> email = [] ->
             v = Throw (ErrorObj "Email field is required."))
         /\ (full_name <> [] -> email <> [] -> len full_name > 35 ->
             v = Throw (ErrorObj "Full_name exceeds 35 chars."))
         /\ (full_name <> [] -> email <> [] -> len full_name <= 35 ->
             len email > 50 -> v = Throw (ErrorObj "Email exceeds 50 chars."))
         /\ (full_name <> [] -> email <> [] -> len full_name <= 35 ->
             len email <= 50 -> len brand_name > 50 ->
             v = Throw (ErrorObj "Brand_name exceeds 50 chars."))
         /\ (full_name <> [] -> email <> [] -> len full_name <= 35 ->
             len email <= 50 -> len brand_name <= 50 ->
             test Waitlist.emailRegex email = false ->
             v = Throw (ErrorObj "Invalid_email_format")))).
Proof.
  split.
  - intros props Tn Te Tb Tr.
    pose proof (validateBody_trimmable props Tn Te Tb Tr) as Hv.
    cbv zeta in Hv. split; [|split].
    + intros He. rewrite He in Hv. cbn [truthy negb] in Hv.
      destruct (truthy (text_of (assoc "full_name" props))) eqn:E;
        cbn [negb] in Hv.
      * exists "email_required". split; [exact Hv|].
        split; [now right|]. split; [reflexivity|].
        split; [|split; reflexivity].
        intros Hn. rewrite Hn in E. discriminate.
      * exists "full_name_required". split; [exact Hv|].
        split; [now left|]. split; [|repeat split; reflexivity].
        intros Hne. apply truthy_false_nil in E. contradiction.
    + intros Hlong Hne.
      apply truthy_nonempty in Hne. rewrite Hne in Hv.
      rewrite (long_truthy _ 200 ltac:(lia) Hlong) in Hv. cbn [negb] in Hv.
      destruct (len (text_of (assoc "full_name" props)) >? 50) eqn:E2.
      * exists "full_name_too_long". split; [exact Hv|].
        split; [now left|]. split; [|repeat split; reflexivity].
        intros Hle. apply Z.gtb_lt in E2. lia.
      * assert (E3 : (len (text_of (assoc "email" props)) >? 200) = true)
          by (apply Z.gtb_lt; lia).
        rewrite E3 in Hv. exists "email_too_long". split; [exact Hv|].
        split; [now right|]. split; [reflexivity|].
        split; [|split; reflexivity].
        intros Hgt. rewrite (gtb_of_gt _ _ Hgt) in E2. discriminate.
    + exact (validateBody_table props Tn Te Tb Tr).
  - intros props.
    pose proof (validateWaitlistBody_object props) as Hv.
    cbv zeta in Hv. split; [|split].
    + intros He. rewrite He in Hv. cbn [truthy negb] in Hv.
      destruct (truthy (text_of (assoc "full_name" props))) eqn:E;
        cbn [negb] in Hv.
      * exists "Email field is required.". split; [exact Hv|].
        split; [now right|]. split; [reflexivity|].
        split; [|reflexivity].
        intros Hn. rewrite Hn in E. discriminate.
      * exists "Full_name field is required.". split; [exact Hv|].
        split; [now left|]. split; [|split; reflexivity].
        intros Hne. apply truthy_false_nil in E. contradiction.
    + intros Hlong Hne.
      apply truthy_nonempty in Hne. rewrite Hne in Hv.
      rewrite (long_truthy _ 50 ltac:(lia) Hlong) in Hv. cbn [negb] in Hv.
      destruct (len (text_of (assoc "full_name" props)) >? 35) eqn:E2.
      * exists "Full_name exceeds 35 chars.". split; [exact Hv|].
        split; [now left|]. split; [|split; reflexivity].
        intros Hle. apply Z.gtb_lt in E2. lia.
      * assert (E3 : (len (text_of (assoc "email" props)) >? 50) = true)
          by (apply Z.gtb_lt; lia).
        rewrite E3 in Hv. exists "Email exceeds 50 chars.".
        split; [exact Hv|].
        split; [now right|]. split; [reflexivity|].
        split; [|reflexivity].
        intros Hgt. rewrite (gtb_of_gt _ _ Hgt) in E2. discriminate.
    + exact (validateWaitlistBody_table props).
Qed.

(** A blank email, an email of 201 code units, an email that is a
    number. *)
Lemma validation_order_witness :
  (JoinWaitlist.validateBody
     (JObj [("full_name", JStr (u " Ada Lovelace "));
            ("email", JStr (u "   "))])
   = Throw (ErrorObj "email_required")
   /\ len (text_of (Some (JStr Samples.long_email))) > 200
   /\ JoinWaitlist.validateBody
        (JObj [("full_name", JStr (u " Ada Lovelace "));
               ("email", JStr Samples.long_email)])
      = Throw (ErrorObj "email_too_long"))
  /\ (Waitlist.validateWaitlistBody
        (JObj [("full_name", JStr (u " Ada Lovelace ")); ("email", JNum 42)])
      = Throw (ErrorObj "Email field is required.")
      /\ Waitlist.validateWaitlistBody
           (JObj [("full_name", JStr (u " Ada Lovelace "));
                  ("email", JStr Samples.long_email)])
         = Throw (ErrorObj "Email exceeds 50 chars.")).
Proof.
  assert (Hlong : len (text_of (Some (JStr Samples.long_email))) > 200)
    by reflexivity.
  assert (Hlong' : len (text_of (Some (JStr Samples.long_email))) > 50)
    by reflexivity.
  split; [split; [|split; [exact Hlong|]] | split].
  - destruct (proj1 (proj1 validation_order
                [("full_name", JStr (u " Ada Lovelace "));
                 ("email", JStr (u "   "))] I I I I) eq_refl)
      as (m & Hv & _ & Hm & _).
    rewrite Hv, Hm; [reflexivity | discriminate].
  - destruct (proj1 (proj2 (proj1 validation_order
                [("full_name", JStr (u " Ada Lovelace "));
                 ("email", JStr Samples.long_email)] I I I I)) Hlong
                ltac:(discriminate))
      as (m & Hv & _ & Hm & _).
    rewrite Hv, Hm; [reflexivity | discriminate].
  - destruct (proj1 (proj2 validation_order
                [("full_name", JStr (u " Ada Lovelace "));
                 ("email", JNum 42)]) eq_refl)
      as (m & Hv & _ & Hm & _).
    rewrite Hv, Hm; [reflexivity | discriminate].
  - destruct (proj1 (proj2 (proj2 validation_order
                [("full_name", JStr (u " Ada Lovelace "));
                 ("email", JStr Samples.long_email)])) Hlong'
                ltac:(discriminate))
      as (m & Hv & _ & Hm & _).
    rewrite Hv, Hm; [reflexivity | discriminate].
Defined.

(** C8 as stated fails: with an empty name, an empty email is answered
    with the name-required error, and an email beyond the maximum length is
    answered with the name-required error too, not with a too-long error. *)
Lemma empty_name_is_reported_first :
  JoinWaitlist.validateBody
    (JObj [("full_name", JStr []); ("email", JStr (u "  "))])
  = Throw (ErrorObj "full_name_required")
  /\ JoinWaitlist.handleError (ErrorObj "full_name_required")
     = respond 400 (Some "missing_field") (Some "Full Name is required")
         (Some "full name")
  /\ len (trim Samples.long_email) > 200
  /\ JoinWaitlist.validateBody
       (JObj [("full_name", JStr []); ("email", JStr Samples.long_email)])
     = Throw (ErrorObj "full_name_required")
  /\ Waitlist.validateWaitlistBody
       (JObj [("full_name", JStr []); ("email", JStr Samples.long_email)])
     = Throw (ErrorObj "Full_name field is required.").
Proof. repeat split; reflexivity. Qed.

(** C10 at a body whose email is a number: [validateBody] of
    [ref-dashboard.ts] throws the [TypeError] of the failed [trim] call,
    which the generic handler answers with 500; [validateWaitlistBody] of
    [waitlist.ts] throws its email-required error, answered with 400. *)
Lemma numeric_email_escapes_as_500 :
  JoinWaitlist.validateBody
    (JObj [("full_name", JStr (u "Ada Lovelace")); ("email", JNum 42)])
  = Throw (ErrorObj "raw.email?.trim is not a function")
  /\ answer (JoinWaitlist.serve Samples.world Samples.numeric_email_request
               Samples.empty)
     = Some (500, Some "internal_server_error")
  /\ Waitlist.validateWaitlistBody
       (JObj [("full_name", JStr (u "Ada Lovelace")); ("email", JNum 42)])
     = Throw (ErrorObj "Email field is required.")
  /\ answer (Waitlist.serve Samples.world Samples.numeric_email_request
               Samples.empty)
     = Some (400, Some "invalid_request_body").
Proof. repeat split; reflexivity. Qed.

(** The handler of [waitlist.ts] does what C10 asks: an email that is not a
    string is the email-required error, answered with 400. *)
Lemma waitlist_non_string_email props name :
  assoc "full_name" props = Some (JStr name) ->
  trim name <> [] ->
  (forall s, assoc "email" props <> Some (JStr s)) ->
  Waitlist.validateWaitlistBody (JObj props)
  = Throw (ErrorObj "Email field is required.")
  /\ status (Waitlist.on_error (ErrorObj "Email field is required.")) = 400.
Proof.
  intros Hname Hne Hemail. split; [|reflexivity].
  unfold Waitlist.validateWaitlistBody.
  cbn [falsy typeof_object negb orb prop].
  rewrite Hname. cbn [Waitlist.trim_if_string].
  apply truthy_nonempty in Hne. rewrite Hne. cbn [negb].
  destruct (assoc "email" props) as [[]|]; try reflexivity.
  exfalso; eapply Hemail; reflexivity.
Qed.

End Validation.

(* ===================================================================== *)
(** * The handlers as a whole: totality and the uniqueness of keys *)
(* ===================================================================== *)

Section Handlers.
Import JS Services Flow.

Lemma checkRateLimit_run w ip0 ep st :
  exists b st1,
    Waitlist.checkRateLimit w ip0 ep st = (Normal b, st1)
    /\ waitlist_signups st1 = waitlist_signups st.
Proof.
  rewrite checkRateLimit_eq.
  destruct (count_error w); [now eexists; eexists|].
  destruct (5 <=? _); [now eexists; eexists|].
  destruct (rate_insert_error w); now eexists; eexists.
Qed.

Lemma insert_signup_run w fn em bn rb st :
  exists res st2, insert_signup w fn em bn rb st = (Normal res, st2).
Proof.
  unfold insert_signup.
  destruct (insert_fault w); [now eexists; eexists|].
  destruct (existsb (has_email em) _); [now eexists; eexists|].
  destruct (existsb (has_code _) _); now eexists; eexists.
Qed.

(** The table after a successful insert and the referral increment. *)
Lemma inserted_step w ref fn em bn rb st1 row st2 st3 :
  insert_signup w fn em bn rb st1 = (Normal (inl row), st2) ->
  JoinWaitlist.handleReferralIncrement w ref st2 = (Normal tt, st3) ->
  signups_step (waitlist_signups st1) (waitlist_signups st3).
Proof.
  intros Hins Hinc.
  destruct (insert_signup_inl _ _ _ _ _ _ _ _ Hins)
    as (_ & He & Hc & Hrow & Hst2).
  destruct (handleReferralIncrement_run w ref st2)
    as (st3' & Hinc' & _ & Hsig).
  rewrite Hinc in Hinc'. inversion Hinc'; subst st3'. clear Hinc'.
  right. exists row. rewrite Hrow at 1 2. cbn [email referral_code].
  split; [exact He|]. split; [exact Hc|].
  rewrite Hst2 in Hsig. cbn [waitlist_signups] in Hsig.
  destruct Hsig as [Hsig | (c & r & _ & _ & _ & _ & _ & Hsig)].
  - now left.
  - right. now exists c.
Qed.

Lemma join_database_operations_step w body st1 :
  exists out st2,
    JoinWaitlist.database_operations w body st1 = (out, st2)
    /\ signups_step (waitlist_signups st1) (waitlist_signups st2).
Proof.
  unfold JoinWaitlist.database_operations, bind at 1.
  destruct (select_by_email_run w (JoinWaitlist.b_email body) st1)
    as (p & -> & _).
  destruct p as [p|].
  - destruct (existing_user_pure w) as (out & Hout). rewrite Hout.
    exists out, st1. split; [reflexivity | now left].
  - unfold JoinWaitlist.new_user, bind at 1.
    destruct (insert_signup_run w (JoinWaitlist.b_full_name body)
                (JoinWaitlist.b_email body) (JoinWaitlist.b_brand_name body)
                (JoinWaitlist.b_ref body) st1) as (res & st2 & Hins).
    rewrite Hins. destruct res as [row|err].
    + destruct (handleReferralIncrement_run w (JoinWaitlist.b_ref body) st2)
        as (st3 & Hinc & _).
      unfold bind at 1. rewrite Hinc.
      destruct (join_confirm_pure w) as (out & Hout). rewrite Hout.
      exists out, st3. split; [reflexivity|].
      exact (inserted_step _ _ _ _ _ _ _ _ _ _ Hins Hinc).
    + pose proof (insert_signup_inr _ _ _ _ _ _ _ _ Hins) as ->.
      destruct (includes "duplicate" (toLowerCase (pg_message err)));
        eexists; exists st1; (split; [reflexivity | now left]).
Qed.

Lemma waitlist_insert_and_confirm_step w body st1 :
  exists out st2,
    Waitlist.insert_and_confirm w body st1 = (out, st2)
    /\ signups_step (waitlist_signups st1) (waitlist_signups st2).
Proof.
  unfold Waitlist.insert_and_confirm, bind at 1.
  destruct (insert_signup_run w (Waitlist.b_full_name body)
              (Waitlist.b_email body) (Waitlist.b_brand_name body)
              (Waitlist.b_ref body) st1) as (res & st2 & Hins).
  rewrite Hins. destruct res as [row|err].
  - destruct (handleReferralIncrement_run w (Waitlist.b_ref body) st2)
      as (st3 & Hinc & _).
    unfold bind at 1. rewrite increment_referrer_same, Hinc.
    destruct (waitlist_confirm_pure w) as (out & Hout). rewrite Hout.
    exists out, st3. split; [reflexivity|].
    exact (inserted_step _ _ _ _ _ _ _ _ _ _ Hins Hinc).
  - pose proof (insert_signup_inr _ _ _ _ _ _ _ _ Hins) as ->.
    destruct (includes "duplicate" (toLowerCase (pg_message err)));
      eexists; exists st1; (split; [reflexivity | now left]).
Qed.

(** Every request gets a response, and the table of signups makes at most
    one step. *)
Lemma join_serve_total w req st :
  exists resp st',
    JoinWaitlist.serve w req st = (Normal resp, st')
    /\ signups_step (waitlist_signups st) (waitlist_signups st').
Proof.
  unfold JoinWaitlist.serve.
  destruct (JoinWaitlist.handleCors req) as [r|].
  { exists r, st. split; [reflexivity | now left]. }
  unfold bind at 1. rewrite <- checkRateLimit_same.
  destruct (checkRateLimit_run w (JoinWaitlist.client_ip req)
              JoinWaitlist.ENDPOINT st) as (b & st1 & -> & Hsig).
  rewrite <- Hsig.
  destruct b; cbn [negb];
    [|eexists; exists st1; split; [reflexivity | now left]].
  unfold try_catch, JoinWaitlist.signup, bind at 1, lift.
  destruct (JoinWaitlist.validateHeaders req);
    [|eexists; exists st1; split; [reflexivity | now left]].
  unfold bind at 1, req_json.
  destruct (payload req) as [raw|m];
    [|eexists; exists st1; split; [reflexivity | now left]].
  unfold ret, bind at 1.
  destruct (JoinWaitlist.validateBody raw) as [body|e];
    [|eexists; exists st1; split; [reflexivity | now left]].
  destruct (join_database_operations_step w body st1)
    as (out & st2 & -> & Hstep).
  destruct out as [r|e]; eexists; exists st2; (split; [reflexivity|exact Hstep]).
Qed.

Lemma waitlist_serve_total w req st :
  exists resp st',
    Waitlist.serve w req st = (Normal resp, st')
    /\ signups_step (waitlist_signups st) (waitlist_signups st').
Proof.
  unfold Waitlist.serve.
  destruct (Waitlist.validateCors req) as [r|].
  { exists r, st. split; [reflexivity | now left]. }
  unfold bind at 1.
  destruct (checkRateLimit_run w (Waitlist.client_ip req)
              Waitlist.endpoint_name st) as (b & st1 & -> & Hsig).
  rewrite <- Hsig.
  destruct b; cbn [negb];
    [|eexists; exists st1; split; [reflexivity | now left]].
  unfold try_catch, Waitlist.signup, bind at 1, lift.
  destruct (Waitlist.validateHeaders req);
    [|eexists; exists st1; split; [reflexivity | now left]].
  unfold bind at 1, req_json.
  destruct (payload req) as [raw|m];
    [|eexists; exists st1; split; [reflexivity | now left]].
  unfold ret, bind at 1.
  destruct (Waitlist.validateWaitlistBody raw) as [body|e];
    [|eexists; exists st1; split; [reflexivity | now left]].
  destruct (waitlist_insert_and_confirm_step w body st1)
    as (out & st2 & -> & Hstep).
  destruct out as [r|e]; eexists; exists st2; (split; [reflexivity|exact Hstep]).
Qed.

Lemma map_credit_keys (c : ustring) (l : list WaitlistSignup) :
  map email (map (credit c) l) = map email l
  /\ map referral_code (map (credit c) l) = map referral_code l.
Proof.
  rewrite !map_map. split; apply map_ext; intros r; unfold credit;
    destruct (has_code c r); reflexivity.
Qed.

Lemma NoDup_snoc {K} (key : WaitlistSignup -> K) (eqb : K -> K -> bool)
  (eqb_eq : forall a b, eqb a b = true <-> a = b)
  (l : list WaitlistSignup) (row : WaitlistSignup) :
  NoDup (map key l) ->
  existsb (fun x => eqb (key x) (key row)) l = false ->
  NoDup (map key (l ++ [row])).
Proof.
  intros Hnd Hex. rewrite map_app. apply NoDup_app.
  - exact Hnd.
  - repeat constructor. intros [].
  - intros k Hk [<-|[]].
    apply in_map_iff in Hk as (x & Hx & Hin).
    assert (E : existsb (fun x => eqb (key x) (key row)) l = true).
    { apply existsb_exists. exists x. split; [exact Hin|]. now apply eqb_eq. }
    congruence.
Qed.

(** One step of the table keeps emails and referral codes unique. *)
Lemma signups_step_keys l l' :
  signups_step l l' -> keys_unique l -> keys_unique l'.
Proof.
  intros [->|(row & He & Hc & Hl)] [Hemail Hcode]; [now split|].
  assert (Hk : keys_unique (l ++ [row])).
  { split.
    - exact (NoDup_snoc email ueqb ueqb_eq l row Hemail He).
    - exact (NoDup_snoc referral_code ueqb ueqb_eq l row Hcode Hc). }
  destruct Hl as [->|(c & ->)]; [exact Hk|].
  destruct (map_credit_keys c (l ++ [row])) as (E1 & E2).
  unfold keys_unique. now rewrite E1, E2.
Qed.

(** Both handlers keep emails and referral codes unique, whatever the
    request and whatever the services answer. *)
Lemma serve_keeps_keys_unique w req st :
  keys_unique (waitlist_signups st) ->
  keys_unique (waitlist_signups (snd (JoinWaitlist.serve w req st)))
  /\ keys_unique (waitlist_signups (snd (Waitlist.serve w req st))).
Proof.
  intros Hk. split.
  - destruct (join_serve_total w req st) as (resp & st' & -> & Hstep).
    exact (signups_step_keys _ _ Hstep Hk).
  - destruct (waitlist_serve_total w req st) as (resp & st' & -> & Hstep).
    exact (signups_step_keys _ _ Hstep Hk).
Qed.

(** The examples of the specification, run on the handler of
    [ref-dashboard.ts]: a first signup, its repetition, a malformed
    email. *)
Example ada_joins_then_returns :
  answer (JoinWaitlist.serve Samples.world Samples.ada_request Samples.empty)
  = Some (201, None)
  /\ answer (JoinWaitlist.serve Samples.world Samples.ada_request
               (snd (JoinWaitlist.serve Samples.world Samples.ada_request
                       Samples.empty)))
     = Some (200, None)
  /\ List.length
       (waitlist_signups
          (snd (JoinWaitlist.serve Samples.world Samples.ada_request
                  (snd (JoinWaitlist.serve Samples.world Samples.ada_request
                          Samples.empty)))))
     = 1%nat.
Proof. repeat split; reflexivity. Qed.

Example not_an_email_is_422 :
  answer (JoinWaitlist.serve Samples.world
            (Samples.post [("full_name", JStr (u "Ada Lovelace"));
                           ("email", JStr (u "not-an-email"))])
            Samples.empty)
  = Some (422, Some "invalid_email")
  /\ answer (Waitlist.serve Samples.world
               (Samples.post [("full_name", JStr (u "Ada Lovelace"));
                              ("email", JStr (u "not-an-email"))])
               Samples.empty)
     = Some (422, Some "invalid_email").
Proof. split; reflexivity. Qed.

Example email_pattern_samples :
  test JoinWaitlist.EMAIL_REGEX (u "ada@example.com") = true
  /\ test JoinWaitlist.EMAIL_REGEX (u "a@b.c.d") = true
  /\ test JoinWaitlist.EMAIL_REGEX (u "not-an-email") = false
  /\ test JoinWaitlist.EMAIL_REGEX (u "a@b.") = false
  /\ test JoinWaitlist.EMAIL_REGEX (u "a@.b") = false
  /\ test JoinWaitlist.EMAIL_REGEX (u "a b@c.d") = false
  /\ test JoinWaitlist.EMAIL_REGEX (u "a@b@c.d") = false
  /\ trim (u "  ada lovelace ") = u "ada lovelace".
Proof. repeat split; reflexivity. Qed.

End Handlers.

(* ===================================================================== *)
(** * Further properties of the leaderboard *)
(* ===================================================================== *)

Section LeaderboardTop.
Import JS Leaderboard Ranking.

Lemma sorted_app_bound (l1 l2 : list Row) :
  StronglySorted not_above (l1 ++ l2) ->
  forall a b, In a l1 -> In b l2 -> not_above a b.
Proof.
  induction l1 as [|x l1 IH]; simpl; intros Hs a b Ha Hb; [contradiction|].
  inversion Hs as [|? ? Hs' Hx]; subst.
  destruct Ha as [->|Ha].
  - eapply Forall_forall; [exact Hx|]. apply in_or_app. now right.
  - now apply IH.
Qed.

(** X15. The board is the top of the view: the rows of the view are the
    rows on the board together with the rows left off, no row left off has
    a higher [referral_count] than a row on the board, the board has
    [min 10 n] entries for a view of [n] rows, and no row is left off a view
    of at most 10 rows. *)
Theorem leaderboard_is_top :
  forall w : World,
    query_error w = None ->
    exists board rest,
      serve w "GET" = {| status := 200; body := Board board |}
      /\ Permutation (map user board ++ rest) (waitlist_leaderboard w)
      /\ (forall a r, In a board -> In r rest ->
            referral_count r <= referral_count (user a))
      /\ List.length board
         = Nat.min 10 (List.length (waitlist_leaderboard w))
      /\ ((List.length (waitlist_leaderboard w) <= 10)%nat -> rest = []).
Proof.
  intros w Hq.
  unfold serve, query. rewrite Hq. cbn [String.eqb Ascii.eqb Bool.eqb negb].
  set (sorted := order_desc (waitlist_leaderboard w)).
  assert (Hlen : List.length sorted = List.length (waitlist_leaderboard w))
    by apply Permutation_length, order_desc_perm.
  eexists; exists (skipn 10 sorted). split; [reflexivity|].
  rewrite map_index_user.
  split; [rewrite firstn_skipn; apply order_desc_perm|].
  split; [|split].
  - intros a r Ha Hr.
    assert (Hu : In (user a) (firstn 10 sorted)).
    { rewrite <- (map_index_user (firstn 10 sorted) 0). now apply in_map. }
    apply (sorted_app_bound (firstn 10 sorted) (skipn 10 sorted));
      [|exact Hu|exact Hr].
    rewrite firstn_skipn. apply order_desc_sorted.
  - rewrite map_index_length, length_firstn. now rewrite Hlen.
  - intros Hle. apply skipn_all2. now rewrite Hlen.
Qed.

(** A view of twelve rows: the two rows left off have counts 0 and 1. *)
Lemma leaderboard_is_top_witness :
  query_error Samples.board_world = None
  /\ exists board rest,
       serve Samples.board_world "GET"
       = {| status := 200; body := Board board |}
       /\ List.length board = 10%nat
       /\ Permutation (map user board ++ rest)
            (waitlist_leaderboard Samples.board_world)
       /\ forall a r, In a board -> In r rest ->
            referral_count r <= referral_count (user a).
Proof.
  split; [reflexivity|].
  destruct (leaderboard_is_top Samples.board_world eq_refl)
    as (board & rest & Hs & Hp & Htop & Hlen & _).
  exists board, rest. split; [exact Hs|]. split; [exact Hlen|].
  split; [exact Hp | exact Htop].
Defined.

End LeaderboardTop.

(* ===================================================================== *)
(** * Further properties of the limiter and of the request checks *)
(* ===================================================================== *)

Section Gate.
Import JS Services Flow Limiter.

Lemma filter_in_window ip0 ep ws (l : list RateLimit) :
  filter (in_window ip0 ep ws) l
  = filter (fun r => ws <=? rl_created_at r) (filter (of_client ip0 ep) l).
Proof.
  induction l as [|r l IH]; simpl; [reflexivity|].
  unfold in_window at 1, of_client at 1.
  destruct (String.eqb (ip r) ip0 && String.eqb (endpoint r) ep); simpl;
    [|exact IH].
  destruct (ws <=? rl_created_at r); simpl; now rewrite IH.
Qed.

(** X9. The limiter looks at the rows of the requesting ip and endpoint
    only: two tables with the same rows for the client get the same
    decision; and it forgets after 120 seconds: when the count works and
    every row of the client is older than that, the request is allowed,
    however many rows there are.  First two conjuncts: [waitlist.ts], any
    endpoint; last two: [ref-dashboard.ts]. *)
Theorem limiter_isolation_and_expiry :
  (forall w ip0 ep st st2,
     filter (of_client ip0 ep) (waitlist_rate_limits st)
     = filter (of_client ip0 ep) (waitlist_rate_limits st2) ->
     fst (Waitlist.checkRateLimit w ip0 ep st)
     = fst (Waitlist.checkRateLimit w ip0 ep st2))
  /\ (forall w ip0 ep st,
        count_error w = false ->
        (forall r, In r (waitlist_rate_limits st) ->
           ip r = ip0 -> endpoint r = ep ->
           rl_created_at r < now w - 120000) ->
        fst (Waitlist.checkRateLimit w ip0 ep st) = Normal true)
  /\ (forall w ip0 st st2,
        filter (of_client ip0 "join-waitlist") (waitlist_rate_limits st)
        = filter (of_client ip0 "join-waitlist") (waitlist_rate_limits st2) ->
        fst (JoinWaitlist.checkRateLimit w ip0 st)
        = fst (JoinWaitlist.checkRateLimit w ip0 st2))
  /\ (forall w ip0 st,
        count_error w = false ->
        (forall r, In r (waitlist_rate_limits st) ->
           ip r = ip0 -> endpoint r = "join-waitlist" ->
           rl_created_at r < now w - 120000) ->
        fst (JoinWaitlist.checkRateLimit w ip0 st) = Normal true).
Proof.
  assert (Hiso : forall w ip0 ep st st2,
            filter (of_client ip0 ep) (waitlist_rate_limits st)
            = filter (of_client ip0 ep) (waitlist_rate_limits st2) ->
            fst (Waitlist.checkRateLimit w ip0 ep st)
            = fst (Waitlist.checkRateLimit w ip0 ep st2)).
  { intros w ip0 ep st st2 H. rewrite !checkRateLimit_eq.
    unfold window_count. rewrite !filter_in_window, H.
    destruct (count_error w); [reflexivity|].
    destruct (5 <=? _); [reflexivity|].
    destruct (rate_insert_error w); reflexivity. }
  assert (Hexp : forall w ip0 ep st,
            count_error w = false ->
            (forall r, In r (waitlist_rate_limits st) ->
               ip r = ip0 -> endpoint r = ep ->
               rl_created_at r < now w - 120000) ->
            fst (Waitlist.checkRateLimit w ip0 ep st) = Normal true).
  { intros w ip0 ep st Hc Hold. rewrite checkRateLimit_eq, Hc.
    assert (E : window_count w ip0 ep 120000 st = 0).
    { unfold window_count.
      rewrite (existsb_filter_nil (in_window ip0 ep (now w - 120000))
                 (waitlist_rate_limits st)); [reflexivity|].
      destruct (existsb _ _) eqn:X; [|reflexivity].
      apply existsb_exists in X as (r & Hin & Hw).
      unfold in_window in Hw.
      apply andb_true_iff in Hw as [Hw Ht].
      apply andb_true_iff in Hw as [Hi He].
      apply String.eqb_eq in Hi, He. apply Z.leb_le in Ht.
      specialize (Hold r Hin Hi He). lia. }
    rewrite E. cbn [Z.leb Z.compare].
    now destruct (rate_insert_error w). }
  split; [exact Hiso|]. split; [exact Hexp|].
  split; [exact (fun w ip0 => Hiso w ip0 "join-waitlist")|].
  exact (fun w ip0 => Hexp w ip0 "join-waitlist").
Qed.

(** Six requests within two minutes, the sixth denied; the same client is
    let through again 120001 ms after its last recorded request, and
    another ip is let through at once. *)
Lemma limiter_isolation_and_expiry_witness :
  fst (JoinWaitlist.checkRateLimit (Samples.world_at 1700000119000)
         "203.0.113.7"
         (snd (run JoinWaitlist.checkRateLimit "203.0.113.7" Samples.burst
                 Samples.empty)))
  = Normal false
  /\ fst (JoinWaitlist.checkRateLimit (Samples.world_at 1700000200001)
            "203.0.113.7"
            (snd (run JoinWaitlist.checkRateLimit "203.0.113.7" Samples.burst
                    Samples.empty)))
     = Normal true
  /\ fst (JoinWaitlist.checkRateLimit (Samples.world_at 1700000119000)
            "198.51.100.9"
            (snd (run JoinWaitlist.checkRateLimit "203.0.113.7" Samples.burst
                    Samples.empty)))
     = fst (JoinWaitlist.checkRateLimit (Samples.world_at 1700000119000)
              "198.51.100.9" Samples.empty).
Proof.
  split; [reflexivity|]. split.
  - apply (proj2 (proj2 (proj2 limiter_isolation_and_expiry)));
      [reflexivity|].
    intros r Hin _ _. vm_compute in Hin.
    repeat (destruct Hin as [<-|Hin]; [reflexivity|]). contradiction.
  - apply (proj1 (proj2 (proj2 limiter_isolation_and_expiry))).
    reflexivity.
Defined.

(** After the limiter, neither handler writes to [waitlist_rate_limits]. *)
Lemma join_signup_rate_limits w req st1 :
  waitlist_rate_limits
    (snd (try_catch (JoinWaitlist.signup w req)
            (fun e => ret (JoinWaitlist.handleError e)) st1))
  = waitlist_rate_limits st1.
Proof.
  unfold try_catch, JoinWaitlist.signup, bind at 1, lift.
  destruct (JoinWaitlist.validateHeaders req); [|reflexivity].
  unfold bind at 1, req_json.
  destruct (payload req) as [raw|m]; [|reflexivity].
  unfold ret, bind at 1.
  destruct (JoinWaitlist.validateBody raw) as [body|e]; [|reflexivity].
  unfold JoinWaitlist.database_operations, bind at 1.
  destruct (select_by_email_run w (JoinWaitlist.b_email body) st1)
    as (p & -> & _).
  destruct p as [p|].
  - destruct (existing_user_pure w) as (out & Hout). rewrite Hout.
    now destruct out.
  - unfold JoinWaitlist.new_user, bind at 1.
    destruct (insert_signup_run w (JoinWaitlist.b_full_name body)
                (JoinWaitlist.b_email body) (JoinWaitlist.b_brand_name body)
                (JoinWaitlist.b_ref body) st1) as (res & st2 & Hins).
    rewrite Hins. destruct res as [row|err].
    + destruct (insert_signup_inl _ _ _ _ _ _ _ _ Hins)
        as (_ & _ & _ & _ & Hst2).
      destruct (handleReferralIncrement_run w (JoinWaitlist.b_ref body) st2)
        as (st3 & Hinc & Hrl & _).
      unfold bind at 1. rewrite Hinc.
      destruct (join_confirm_pure w) as (out & Hout). rewrite Hout.
      destruct out; cbn [snd ret]; rewrite Hrl, Hst2; reflexivity.
    + pose proof (insert_signup_inr _ _ _ _ _ _ _ _ Hins) as ->.
      destruct (includes "duplicate" (toLowerCase (pg_message err)));
        reflexivity.
Qed.

Lemma waitlist_signup_rate_limits w req st1 :
  waitlist_rate_limits
    (snd (try_catch (Waitlist.signup w req)
            (fun e => ret (Waitlist.on_error e)) st1))
  = waitlist_rate_limits st1.
Proof.
  unfold try_catch, Waitlist.signup, bind at 1, lift.
  destruct (Waitlist.validateHeaders req); [|reflexivity].
  unfold bind at 1, req_json.
  destruct (payload req) as [raw|m]; [|reflexivity].
  unfold ret, bind at 1.
  destruct (Waitlist.validateWaitlistBody raw) as [body|e]; [|reflexivity].
  unfold Waitlist.insert_and_confirm, bind at 1.
  destruct (insert_signup_run w (Waitlist.b_full_name body)
              (Waitlist.b_email body) (Waitlist.b_brand_name body)
              (Waitlist.b_ref body) st1) as (res & st2 & Hins).
  rewrite Hins. destruct res as [row|err].
  - destruct (insert_signup_inl _ _ _ _ _ _ _ _ Hins)
      as (_ & _ & _ & _ & Hst2).
    destruct (handleReferralIncrement_run w (Waitlist.b_ref body) st2)
      as (st3 & Hinc & Hrl & _).
    unfold bind at 1. rewrite increment_referrer_same, Hinc.
    destruct (waitlist_confirm_pure w) as (out & Hout). rewrite Hout.
    destruct out; cbn [snd ret]; rewrite Hrl, Hst2; reflexivity.
  - pose proof (insert_signup_inr _ _ _ _ _ _ _ _ Hins) as ->.
    destruct (includes "duplicate" (toLowerCase (pg_message err)));
      reflexivity.
Qed.

(** The table of rate limits after a request is the one the limiter
    leaves. *)
Lemma serve_rate_limits w req st :
  method req = "POST" ->
  waitlist_rate_limits (snd (JoinWaitlist.serve w req st))
  = waitlist_rate_limits
      (snd (Waitlist.checkRateLimit w (JoinWaitlist.client_ip req)
              "join-waitlist" st))
  /\ waitlist_rate_limits (snd (Waitlist.serve w req st))
     = waitlist_rate_limits
         (snd (Waitlist.checkRateLimit w (Waitlist.client_ip req)
                 "join-waitlist" st)).
Proof.
  intros Hm. split.
  - unfold JoinWaitlist.serve, JoinWaitlist.handleCors. rewrite Hm.
    cbn [String.eqb Ascii.eqb Bool.eqb negb].
    unfold bind at 1. rewrite <- checkRateLimit_same.
    destruct (checkRateLimit_run w (JoinWaitlist.client_ip req)
                JoinWaitlist.ENDPOINT st) as (b & st1 & Hrl & _).
    change "join-waitlist" with JoinWaitlist.ENDPOINT.
    rewrite Hrl. destruct b; cbn [negb]; [|reflexivity].
    apply join_signup_rate_limits.
  - unfold Waitlist.serve, Waitlist.validateCors. rewrite Hm.
    cbn [String.eqb Ascii.eqb Bool.eqb negb].
    unfold bind at 1.
    destruct (checkRateLimit_run w (Waitlist.client_ip req)
                Waitlist.endpoint_name st) as (b & st1 & Hrl & _).
    change "join-waitlist" with Waitlist.endpoint_name.
    rewrite Hrl. destruct b; cbn [negb]; [|reflexivity].
    apply waitlist_signup_rate_limits.
Qed.

Lemma not_post_untouched w req st :
  method req <> "POST" ->
  snd (JoinWaitlist.serve w req st) = st
  /\ snd (Waitlist.serve w req st) = st.
Proof.
  intros Hm. apply String.eqb_neq in Hm.
  unfold JoinWaitlist.serve, JoinWaitlist.handleCors,
    Waitlist.serve, Waitlist.validateCors.
  rewrite Hm. cbn [negb].
  destruct (String.eqb (method req) "OPTIONS"); split; reflexivity.
Qed.

(** X2. The limiter is charged before anything is checked, and nothing is
    ever pruned.  In both handlers: a request that is not a POST leaves
    both tables as they are; a POST that the limiter lets through below the
    threshold (count and insert working) adds exactly one row for the
    client's ip to [waitlist_rate_limits], whatever its headers and body
    are; and after any request the old rows of [waitlist_rate_limits] are
    still there, followed by at most one new row. *)
Theorem limiter_charged_before_validation :
  forall (w : World) (req : Request) (st : Store),
    let charged :=
      waitlist_rate_limits st ++
      [{| ip := JoinWaitlist.client_ip req; endpoint := "join-waitlist";
          rl_created_at := now w |}] in
    (method req <> "POST" ->
     snd (JoinWaitlist.serve w req st) = st
     /\ snd (Waitlist.serve w req st) = st)
    /\ (method req = "POST" -> count_error w = false ->
        window_count w (JoinWaitlist.client_ip req) "join-waitlist" 120000 st
        < 5 ->
        rate_insert_error w = false ->
        waitlist_rate_limits (snd (JoinWaitlist.serve w req st)) = charged
        /\ waitlist_rate_limits (snd (Waitlist.serve w req st)) = charged)
    /\ ((waitlist_rate_limits (snd (JoinWaitlist.serve w req st))
         = waitlist_rate_limits st
         \/ waitlist_rate_limits (snd (JoinWaitlist.serve w req st))
            = charged)
        /\ (waitlist_rate_limits (snd (Waitlist.serve w req st))
            = waitlist_rate_limits st
            \/ waitlist_rate_limits (snd (Waitlist.serve w req st))
               = charged)).
Proof.
  intros w req st charged.
  assert (Hstep : waitlist_rate_limits
                    (snd (Waitlist.checkRateLimit w (JoinWaitlist.client_ip req)
                            "join-waitlist" st))
                  = waitlist_rate_limits st
                  \/ waitlist_rate_limits
                       (snd (Waitlist.checkRateLimit w
                               (JoinWaitlist.client_ip req)
                               "join-waitlist" st))
                     = charged).
  { rewrite checkRateLimit_eq.
    destruct (count_error w); [now left|].
    destruct (5 <=? _); [now left|].
    destruct (rate_insert_error w); [now left | now right]. }
  split; [apply not_post_untouched|]. split.
  - intros Hm Hc Hn Hi.
    destruct (serve_rate_limits w req st Hm) as (-> & ->).
    change (Waitlist.client_ip req) with (JoinWaitlist.client_ip req).
    rewrite checkRateLimit_eq, Hc, Hi.
    destruct (5 <=? _) eqn:E; [apply Z.leb_le in E; lia|].
    split; reflexivity.
  - destruct (string_dec (method req) "POST") as [Hm|Hm].
    + destruct (serve_rate_limits w req st Hm) as (-> & ->).
      change (Waitlist.client_ip req) with (JoinWaitlist.client_ip req).
      split; exact Hstep.
    + destruct (not_post_untouched w req st Hm) as (-> & ->).
      split; now left.
Qed.

(** A POST with a body that is no JSON and no content type: one row is
    recorded all the same. *)
Lemma limiter_charged_before_validation_witness :
  answer (JoinWaitlist.serve Samples.world
            {| method := "POST"; content_type := None;
               x_forwarded_for := None; x_real_ip := Some "198.51.100.9";
               payload := Malformed "Unexpected end of JSON input" |}
            Samples.with_ada)
  = Some (415, Some "invalid_content_type")
  /\ waitlist_rate_limits
       (snd (JoinWaitlist.serve Samples.world
               {| method := "POST"; content_type := None;
                  x_forwarded_for := None; x_real_ip := Some "198.51.100.9";
                  payload := Malformed "Unexpected end of JSON input" |}
               Samples.with_ada))
     = [{| ip := "198.51.100.9"; endpoint := "join-waitlist";
           rl_created_at := 1700000000000 |}].
Proof.
  split; [reflexivity|].
  refine (proj1 (proj1 (proj2 (limiter_charged_before_validation
            Samples.world
            {| method := "POST"; content_type := None;
               x_forwarded_for := None; x_real_ip := Some "198.51.100.9";
               payload := Malformed "Unexpected end of JSON input" |}
            Samples.with_ada)) eq_refl eq_refl eq_refl eq_refl)).
Defined.

End Gate.

(* ===================================================================== *)
(** * Further properties of the validators *)
(* ===================================================================== *)

Section Validators.
Import JS Services Flow.

Lemma trimStart_stable (s : ustring) :
  match s with
  | [] => True
  | c :: _ => isWhiteSpace c = false
  end ->
  trimStart s = s.
Proof. destruct s as [|c r]; simpl; [reflexivity|]. now intros ->. Qed.

Lemma trimStart_head (s : ustring) :
  match trimStart s with
  | [] => True
  | c :: _ => isWhiteSpace c = false
  end.
Proof.
  induction s as [|c r IH]; simpl; [exact I|].
  destruct (isWhiteSpace c) eqn:E; [exact IH | exact E].
Qed.

Lemma trimStart_idem (s : ustring) : trimStart (trimStart s) = trimStart s.
Proof. apply trimStart_stable, trimStart_head. Qed.

Lemma trimStart_snoc (l : ustring) (c : N) :
  isWhiteSpace c = false ->
  exists l', trimStart (l ++ [c]) = l' ++ [c].
Proof.
  intros Hc. induction l as [|x l IH]; simpl.
  - rewrite Hc. now exists [].
  - destruct (isWhiteSpace x); [exact IH|]. now exists (x :: l).
Qed.

Lemma trimEnd_head (s : ustring) :
  match s with
  | [] => True
  | c :: _ => isWhiteSpace c = false
  end ->
  match trimEnd s with
  | [] => True
  | c :: _ => isWhiteSpace c = false
  end.
Proof.
  destruct s as [|c r]; [intros _; exact I|]. intros Hc.
  unfold trimEnd. simpl rev.
  destruct (trimStart_snoc (rev r) c Hc) as (l' & ->).
  rewrite rev_app_distr. simpl. exact Hc.
Qed.

Lemma trimEnd_idem (s : ustring) : trimEnd (trimEnd s) = trimEnd s.
Proof. unfold trimEnd. now rewrite rev_involutive, trimStart_idem. Qed.

(** Trimming a trimmed string changes nothing. *)
Lemma trim_idem (s : ustring) : trim (trim s) = trim s.
Proof.
  unfold trim.
  rewrite (trimStart_stable (trimEnd (trimStart s)))
    by apply trimEnd_head, trimStart_head.
  apply trimEnd_idem.
Qed.

Lemma text_of_trimmed (v : option json) : trim (text_of v) = text_of v.
Proof. destruct v as [[]|]; try reflexivity. apply trim_idem. Qed.

Lemma optional_trim_Normal callee v x :
  JoinWaitlist.optional_trim callee v = Normal x ->
  trimmable v
  /\ x = match v with
         | Some (JStr s) => Some (trim s)
         | _ => None
         end.
Proof.
  destruct v as [[]|]; simpl; intros H; inversion H; now split.
Qed.

Lemma prefix_includes (p s : string) :
  String.prefix p s = true -> includes p s = true.
Proof. intros H. destruct s; cbn [includes]; now rewrite H. Qed.

Lemma join_headers_fail req :
  JoinWaitlist.validateHeaders req <> Normal tt ->
  JoinWaitlist.validateHeaders req = Throw (ErrorObj "invalid_content_type").
Proof.
  unfold JoinWaitlist.validateHeaders.
  destruct (content_type req) as [ct|]; [|reflexivity].
  destruct (includes _ _); [intros H; now elim H | reflexivity].
Qed.

Lemma waitlist_headers_fail req :
  Waitlist.validateHeaders req <> Normal tt ->
  Waitlist.validateHeaders req = Throw (ErrorObj "invalid_content_type").
Proof.
  unfold Waitlist.validateHeaders.
  destruct (negb _); [intros H; now elim H|].
  destruct (content_type req) as [ct|]; [|reflexivity].
  destruct (startsWith _ _); [intros H; now elim H | reflexivity].
Qed.

(** A POST past the limiter whose headers are refused. *)
Lemma serve_bad_headers w req st :
  method req = "POST" ->
  (forall st1,
     JoinWaitlist.checkRateLimit w (JoinWaitlist.client_ip req) st
     = (Normal true, st1) ->
     JoinWaitlist.validateHeaders req <> Normal tt ->
     JoinWaitlist.serve w req st
     = (Normal (JoinWaitlist.handleError (ErrorObj "invalid_content_type")),
        st1))
  /\ (forall st1,
        Waitlist.checkRateLimit w (Waitlist.client_ip req)
          Waitlist.endpoint_name st = (Normal true, st1) ->
        Waitlist.validateHeaders req <> Normal tt ->
        Waitlist.serve w req st
        = (Normal (Waitlist.on_error (ErrorObj "invalid_content_type")), st1)).
Proof.
  intros Hm. split; intros st1 Hrl Hh.
  - unfold JoinWaitlist.serve, JoinWaitlist.handleCors. rewrite Hm.
    cbn [String.eqb Ascii.eqb Bool.eqb negb].
    unfold bind at 1. rewrite Hrl. cbn [negb].
    unfold try_catch, JoinWaitlist.signup, bind, lift.
    now rewrite (join_headers_fail req Hh).
  - unfold Waitlist.serve, Waitlist.validateCors. rewrite Hm.
    cbn [String.eqb Ascii.eqb Bool.eqb negb].
    unfold bind at 1. rewrite Hrl. cbn [negb].
    unfold try_catch, Waitlist.signup, bind, lift.
    now rewrite (waitlist_headers_fail req Hh).
Qed.

(** A POST past the limiter and the header check whose body is refused. *)
Lemma serve_bad_body w req st raw :
  method req = "POST" -> payload req = Json raw ->
  (forall st1 e,
     JoinWaitlist.checkRateLimit w (JoinWaitlist.client_ip req) st
     = (Normal true, st1) ->
     JoinWaitlist.validateHeaders req = Normal tt ->
     JoinWaitlist.validateBody raw = Throw e ->
     JoinWaitlist.serve w req st = (Normal (JoinWaitlist.handleError e), st1))
  /\ (forall st1 e,
        Waitlist.checkRateLimit w (Waitlist.client_ip req)
          Waitlist.endpoint_name st = (Normal true, st1) ->
        Waitlist.validateHeaders req = Normal tt ->
        Waitlist.validateWaitlistBody raw = Throw e ->
        Waitlist.serve w req st = (Normal (Waitlist.on_error e), st1)).
Proof.
  intros Hm Hp. split; intros st1 e Hrl Hh Hv.
  - unfold JoinWaitlist.serve, JoinWaitlist.handleCors. rewrite Hm.
    cbn [String.eqb Ascii.eqb Bool.eqb negb].
    unfold bind at 1. rewrite Hrl. cbn [negb].
    unfold try_catch, JoinWaitlist.signup, bind, lift, req_json.
    rewrite Hh, Hp. unfold ret. now rewrite Hv.
  - unfold Waitlist.serve, Waitlist.validateCors. rewrite Hm.
    cbn [String.eqb Ascii.eqb Bool.eqb negb].
    unfold bind at 1. rewrite Hrl. cbn [negb].
    unfold try_catch, Waitlist.signup, bind, lift, req_json.
    rewrite Hh, Hp. unfold ret. now rewrite Hv.
Qed.

(** X3. The content type is checked before the body is read: a POST past
    the limiter whose [content-type] header is refused is answered with 415
    [invalid_content_type], whatever its body, and the tables stay as the
    limiter left them (second and third conjunct).  Every POST whose
    headers [waitlist.ts] accepts (the lowercased header starts with
    [application/json]) is accepted by [ref-dashboard.ts] (it contains
    [application/json]) as well (first conjunct). *)
Theorem content_type_checked_first :
  (forall req,
     method req = "POST" ->
     Waitlist.validateHeaders req = Normal tt ->
     JoinWaitlist.validateHeaders req = Normal tt)
  /\ (forall w req st st1,
        method req = "POST" ->
        JoinWaitlist.checkRateLimit w (JoinWaitlist.client_ip req) st
        = (Normal true, st1) ->
        JoinWaitlist.validateHeaders req <> Normal tt ->
        JoinWaitlist.serve w req st
        = (Normal (respond 415 (Some "invalid_content_type")
             (Some "Content-Type must be application/json") None), st1))
  /\ (forall w req st st1,
        method req = "POST" ->
        Waitlist.checkRateLimit w (Waitlist.client_ip req)
          Waitlist.endpoint_name st = (Normal true, st1) ->
        Waitlist.validateHeaders req <> Normal tt ->
        Waitlist.serve w req st
        = (Normal (respond 415 (Some "invalid_content_type")
             (Some "Content-Type must be application/json.") None), st1)).
Proof.
  split; [|split].
  - intros req Hm.
    unfold Waitlist.validateHeaders, JoinWaitlist.validateHeaders.
    rewrite Hm. cbn [String.eqb Ascii.eqb Bool.eqb negb].
    destruct (content_type req) as [ct|]; [|discriminate].
    unfold startsWith.
    destruct (String.prefix "application/json" (toLowerCase ct)) eqn:E;
      [|discriminate].
    now rewrite (prefix_includes _ _ E).
  - intros w req st st1 Hm Hrl Hh.
    exact (proj1 (serve_bad_headers w req st Hm) st1 Hrl Hh).
  - intros w req st st1 Hm Hrl Hh.
    exact (proj2 (serve_bad_headers w req st Hm) st1 Hrl Hh).
Qed.

(** A form post to both handlers; a header in capitals with a charset. *)
Lemma content_type_checked_first_witness :
  answer (JoinWaitlist.serve Samples.world
            (Samples.bare_post (Some "application/x-www-form-urlencoded")
               (Malformed "Unexpected token"))
            Samples.empty)
  = Some (415, Some "invalid_content_type")
  /\ answer (Waitlist.serve Samples.world
               (Samples.bare_post (Some "application/x-www-form-urlencoded")
                  (Malformed "Unexpected token"))
               Samples.empty)
     = Some (415, Some "invalid_content_type")
  /\ JoinWaitlist.validateHeaders
       (Samples.bare_post (Some "Application/JSON; charset=utf-8")
          (Json JNull))
     = Normal tt.
Proof.
  split; [|split].
  - now rewrite (proj1 (proj2 content_type_checked_first) Samples.world
                   (Samples.bare_post
                      (Some "application/x-www-form-urlencoded")
                      (Malformed "Unexpected token"))
                   Samples.empty _ eq_refl eq_refl ltac:(discriminate)).
  - now rewrite (proj2 (proj2 content_type_checked_first) Samples.world
                   (Samples.bare_post
                      (Some "application/x-www-form-urlencoded")
                      (Malformed "Unexpected token"))
                   Samples.empty _ eq_refl eq_refl ltac:(discriminate)).
  - apply (proj1 content_type_checked_first); reflexivity.
Defined.

(** X4. A JSON body that is not an object is answered as a server error:
    by [ref-dashboard.ts] with 500 [internal_server_error] for null, a
    boolean, a number, a string and an array; by [waitlist.ts] with 500
    for null, a boolean, a number and a string, while an array passes its
    object test and is answered with 400 as a body without a name.  The
    tables stay as the limiter left them. *)
Theorem non_object_body_is_server_error :
  (forall w req st st1 raw,
     method req = "POST" -> payload req = Json raw ->
     JoinWaitlist.checkRateLimit w (JoinWaitlist.client_ip req) st
     = (Normal true, st1) ->
     JoinWaitlist.validateHeaders req = Normal tt ->
     (forall props, raw <> JObj props) ->
     JoinWaitlist.serve w req st
     = (Normal JoinWaitlist.internal_server_error, st1))
  /\ (forall w req st st1 raw,
        method req = "POST" -> payload req = Json raw ->
        Waitlist.checkRateLimit w (Waitlist.client_ip req)
          Waitlist.endpoint_name st = (Normal true, st1) ->
        Waitlist.validateHeaders req = Normal tt ->
        (forall props, raw <> JObj props) ->
        exists resp,
          Waitlist.serve w req st = (Normal resp, st1)
          /\ ((forall items, raw <> JArr items) ->
              status resp = 500
              /\ error resp = Some "internal_server_error")
          /\ ((exists items, raw = JArr items) ->
              status resp = 400
              /\ error resp = Some "invalid_request_body")).
Proof.
  split.
  - intros w req st st1 raw Hm Hp Hrl Hh Hno.
    assert (Hv : JoinWaitlist.validateBody raw
                 = Throw (ErrorObj "invalid_body")).
    { destruct raw as [|b|n|s|items|props];
        try (exfalso; eapply Hno; reflexivity);
        unfold JoinWaitlist.validateBody; cbn [falsy typeof_object isArray];
        try reflexivity.
      - now destruct b.
      - now destruct (n =? 0).
      - now destruct s. }
    now rewrite (proj1 (serve_bad_body w req st raw Hm Hp) st1 _ Hrl Hh Hv).
  - intros w req st st1 raw Hm Hp Hrl Hh Hno.
    assert (Hv : (exists items, raw = JArr items)
                 /\ Waitlist.validateWaitlistBody raw
                    = Throw (ErrorObj "Full_name field is required.")
                 \/ (forall items, raw <> JArr items)
                    /\ Waitlist.validateWaitlistBody raw
                       = Throw (ErrorObj "Invalid_body")).
    { destruct raw as [|b|n|s|items|props];
        try (exfalso; eapply Hno; reflexivity);
        try (left; split; [now exists items | reflexivity]);
        right; (split; [discriminate|]);
        unfold Waitlist.validateWaitlistBody; cbn [falsy typeof_object];
        try reflexivity.
      - now destruct b.
      - now destruct (n =? 0).
      - now destruct s. }
    destruct Hv as [(Harr & Hv) | (Hnarr & Hv)];
      rewrite (proj2 (serve_bad_body w req st raw Hm Hp) st1 _ Hrl Hh Hv);
      eexists; (split; [reflexivity|]); split.
    + intros Hn. destruct Harr as (items & ->). exfalso.
      eapply Hn; reflexivity.
    + intros _. split; reflexivity.
    + intros _. split; reflexivity.
    + intros (items & ->). exfalso. eapply Hnarr; reflexivity.
Qed.

(** An empty array sent to both handlers. *)
Lemma non_object_body_is_server_error_witness :
  answer (JoinWaitlist.serve Samples.world
            (Samples.bare_post (Some "application/json") (Json (JArr [])))
            Samples.empty)
  = Some (500, Some "internal_server_error")
  /\ answer (Waitlist.serve Samples.world
               (Samples.bare_post (Some "application/json") (Json (JArr [])))
               Samples.empty)
     = Some (400, Some "invalid_request_body").
Proof.
  split.
  - now rewrite (proj1 non_object_body_is_server_error Samples.world
                   (Samples.bare_post (Some "application/json")
                      (Json (JArr [])))
                   Samples.empty _ (JArr []) eq_refl eq_refl eq_refl eq_refl
                   ltac:(discriminate)).
  - destruct (proj2 non_object_body_is_server_error Samples.world
                (Samples.bare_post (Some "application/json")
                   (Json (JArr [])))
                Samples.empty _ (JArr []) eq_refl eq_refl eq_refl eq_refl
                ltac:(discriminate)) as (resp & Hs & _ & Harr).
    unfold answer. rewrite Hs. cbn [fst].
    destruct (Harr (ex_intro _ [] eq_refl)) as (-> & ->). reflexivity.
Defined.

Lemma gtb_false_le (a b : Z) : (a >? b) = false -> a <= b.
Proof. rewrite Z.gtb_ltb. apply Z.ltb_ge. Qed.

Lemma le_gtb_false (a b : Z) : a <= b -> (a >? b) = false.
Proof. rewrite Z.gtb_ltb. apply Z.ltb_ge. Qed.

(** What [validateBody] of [ref-dashboard.ts] has checked when it
    returns. *)
Lemma validateBody_Normal raw body :
  JoinWaitlist.validateBody raw = Normal body ->
  exists props,
    raw = JObj props
    /\ trimmable (assoc "full_name" props)
    /\ trimmable (assoc "email" props)
    /\ trimmable (assoc "brand_name" props)
    /\ trimmable (assoc "ref" props)
    /\ body
       = {| JoinWaitlist.b_full_name := text_of (assoc "full_name" props);
            JoinWaitlist.b_email := text_of (assoc "email" props);
            JoinWaitlist.b_brand_name :=
              match assoc "brand_name" props with
              | Some (JStr s) => Some (trim s)
              | _ => None
              end;
            JoinWaitlist.b_ref :=
              match assoc "ref" props with
              | Some (JStr s) => Some (trim s)
              | _ => None
              end |}
    /\ truthy (text_of (assoc "full_name" props)) = true
    /\ truthy (text_of (assoc "email" props)) = true
    /\ len (text_of (assoc "full_name" props)) <= 50
    /\ len (text_of (assoc "email" props)) <= 200
    /\ (truthy (text_of (assoc "brand_name" props)) = true ->
        len (text_of (assoc "brand_name" props)) <= 70)
    /\ test JoinWaitlist.EMAIL_REGEX (text_of (assoc "email" props)) = true.
Proof.
  intros H. unfold JoinWaitlist.validateBody in H.
  destruct raw as [|b|n|s|items|props]; cbn [falsy typeof_object isArray] in H.
  1: discriminate.
  1: destruct b; discriminate.
  1: destruct (n =? 0); discriminate.
  1: destruct s; discriminate.
  1: discriminate.
  cbn [negb orb prop] in H. exists props. split; [reflexivity|].
  destruct (JoinWaitlist.optional_trim _ (assoc "full_name" props))
    as [fn|] eqn:Efn; [|discriminate].
  destruct (JoinWaitlist.optional_trim _ (assoc "email" props))
    as [em|] eqn:Eem; [|discriminate].
  destruct (JoinWaitlist.optional_trim _ (assoc "brand_name" props))
    as [bn|] eqn:Ebn; [|discriminate].
  destruct (JoinWaitlist.optional_trim _ (assoc "ref" props))
    as [rf|] eqn:Erf; [|discriminate].
  apply optional_trim_Normal in Efn as (Tn & ->), Eem as (Te & ->),
    Ebn as (Tb & ->), Erf as (Tr & ->).
  cbn [cbind] in H.
  rewrite (truthy_opt_text (assoc "full_name" props)),
    (nullish_text (assoc "full_name" props)),
    (truthy_opt_text (assoc "email" props)),
    (nullish_text (assoc "email" props)),
    (truthy_opt_text (assoc "brand_name" props)),
    (nullish_text (assoc "brand_name" props)) in H.
  unfold JoinWaitlist.MAX_FULL_NAME_LENGTH, JoinWaitlist.MAX_EMAIL_LENGTH,
    JoinWaitlist.MAX_BRAND_NAME_LENGTH in H.
  destruct (truthy (text_of (assoc "full_name" props))) eqn:E1;
    [|discriminate].
  destruct (truthy (text_of (assoc "email" props))) eqn:E2; [|discriminate].
  cbn [negb] in H.
  destruct (len (text_of (assoc "full_name" props)) >? 50) eqn:E3;
    [discriminate|].
  destruct (len (text_of (assoc "email" props)) >? 200) eqn:E4;
    [discriminate|].
  destruct (truthy (text_of (assoc "brand_name" props))
            && (len (text_of (assoc "brand_name" props)) >? 70)) eqn:E5;
    [discriminate|].
  destruct (test JoinWaitlist.EMAIL_REGEX (text_of (assoc "email" props)))
    eqn:E6; [|discriminate].
  cbn [negb] in H. inversion H; subst body. clear H.
  repeat split; try assumption; try reflexivity.
  - now apply gtb_false_le.
  - now apply gtb_false_le.
  - intros Hb. rewrite Hb in E5. now apply gtb_false_le.
Qed.

(** What [validateWaitlistBody] of [waitlist.ts] has checked when it
    returns. *)
Lemma validateWaitlistBody_Normal raw body :
  Waitlist.validateWaitlistBody raw = Normal body ->
  exists props,
    raw = JObj props
    /\ body
       = {| Waitlist.b_full_name := text_of (assoc "full_name" props);
            Waitlist.b_email := text_of (assoc "email" props);
            Waitlist.b_brand_name :=
              match assoc "brand_name" props with
              | Some (JStr s) => Some (trim s)
              | _ => None
              end;
            Waitlist.b_ref :=
              match assoc "ref" props with
              | Some (JStr s) => Some (trim s)
              | _ => None
              end |}
    /\ truthy (text_of (assoc "full_name" props)) = true
    /\ truthy (text_of (assoc "email" props)) = true
    /\ len (text_of (assoc "full_name" props)) <= 35
    /\ len (text_of (assoc "email" props)) <= 50
    /\ (truthy (text_of (assoc "brand_name" props)) = true ->
        len (text_of (assoc "brand_name" props)) <= 50)
    /\ test Waitlist.emailRegex (text_of (assoc "email" props)) = true.
Proof.
  intros H. unfold Waitlist.validateWaitlistBody in H.
  destruct raw as [|b|n|s|items|props]; cbn [falsy typeof_object] in H.
  1: discriminate.
  1: destruct b; discriminate.
  1: destruct (n =? 0); discriminate.
  1: destruct s; discriminate.
  1: discriminate.
  cbn [negb orb prop] in H. exists props. split; [reflexivity|].
  rewrite (trim_if_string_text (assoc "full_name" props)),
    (trim_if_string_text (assoc "email" props)) in H.
  assert (Eb : Waitlist.trim_if_string (assoc "brand_name" props) Some None
               = match assoc "brand_name" props with
                 | Some (JStr s) => Some (trim s)
                 | _ => None
                 end) by (destruct (assoc "brand_name" props) as [[]|];
                          reflexivity).
  assert (Er : Waitlist.trim_if_string (assoc "ref" props) Some None
               = match assoc "ref" props with
                 | Some (JStr s) => Some (trim s)
                 | _ => None
                 end) by (destruct (assoc "ref" props) as [[]|];
                          reflexivity).
  rewrite Eb, Er in H.
  rewrite (truthy_opt_text (assoc "brand_name" props)),
    (nullish_text (assoc "brand_name" props)) in H.
  destruct (truthy (text_of (assoc "full_name" props))) eqn:E1;
    [|discriminate].
  destruct (truthy (text_of (assoc "email" props))) eqn:E2; [|discriminate].
  cbn [negb] in H.
  destruct (len (text_of (assoc "full_name" props)) >? 35) eqn:E3;
    [discriminate|].
  destruct (len (text_of (assoc "email" props)) >? 50) eqn:E4;
    [discriminate|].
  destruct (truthy (text_of (assoc "brand_name" props))
            && (len (text_of (assoc "brand_name" props)) >? 50)) eqn:E5;
    [discriminate|].
  destruct (test Waitlist.emailRegex (text_of (assoc "email" props)))
    eqn:E6; [|discriminate].
  cbn [negb] in H. inversion H; subst body. clear H.
  repeat split; try assumption; try reflexivity.
  - now apply gtb_false_le.
  - now apply gtb_false_le.
  - intros Hb. rewrite Hb in E5. now apply gtb_false_le.
Qed.

End Validators.

(* ===================================================================== *)
(** * What the validators accept and how a rejection is answered *)
(* ===================================================================== *)

Section ValidatorProperties.
Import JS Services Flow Inputs.

Lemma len_nil_or_truthy (s : ustring) (n : Z) :
  0 <= n -> (truthy s = true -> len s <= n) -> len s <= n.
Proof.
  intros Hn H. destruct s; [unfold len; simpl; lia | now apply H].
Qed.

Lemma truthy_true_not_nil (s : ustring) : truthy s = true -> s <> [].
Proof. now destruct s. Qed.

Lemma member_text_trimmed (v : option json) (s : ustring) :
  member_text v = Some s -> trim s = s /\ s = text_of v.
Proof.
  destruct v as [[]|]; try discriminate. intros H. inversion H.
  split; [apply trim_idem | reflexivity].
Qed.

(** X5.  What an accepted body guarantees to the rest of the handler.  When
    a validator returns, the input was an object, the stored name and email
    are its trimmed [full_name] and [email] members, both are non-empty and
    within the bounds (50 and 200 in [ref-dashboard.ts], 35 and 50 in
    [waitlist.ts]), the email matches the pattern, a brand name is within
    its bound (70, respectively 50), and every stored text is already
    trimmed: trimming it again changes nothing. *)
Theorem accepted_body_is_normalized :
  (forall raw body,
     JoinWaitlist.validateBody raw = Normal body ->
     exists props,
       raw = JObj props
       /\ JoinWaitlist.b_full_name body = text_of (assoc "full_name" props)
       /\ JoinWaitlist.b_email body = text_of (assoc "email" props)
       /\ JoinWaitlist.b_full_name body <> []
       /\ JoinWaitlist.b_email body <> []
       /\ len (JoinWaitlist.b_full_name body) <= 50
       /\ len (JoinWaitlist.b_email body) <= 200
       /\ test JoinWaitlist.EMAIL_REGEX (JoinWaitlist.b_email body) = true
       /\ trim (JoinWaitlist.b_full_name body) = JoinWaitlist.b_full_name body
       /\ trim (JoinWaitlist.b_email body) = JoinWaitlist.b_email body
       /\ (forall b, JoinWaitlist.b_brand_name body = Some b ->
           trim b = b /\ len b <= 70)
       /\ (forall c, JoinWaitlist.b_ref body = Some c -> trim c = c))
  /\
  (forall raw body,
     Waitlist.validateWaitlistBody raw = Normal body ->
     exists props,
       raw = JObj props
       /\ Waitlist.b_full_name body = text_of (assoc "full_name" props)
       /\ Waitlist.b_email body = text_of (assoc "email" props)
       /\ Waitlist.b_full_name body <> []
       /\ Waitlist.b_email body <> []
       /\ len (Waitlist.b_full_name body) <= 35
       /\ len (Waitlist.b_email body) <= 50
       /\ test Waitlist.emailRegex (Waitlist.b_email body) = true
       /\ trim (Waitlist.b_full_name body) = Waitlist.b_full_name body
       /\ trim (Waitlist.b_email body) = Waitlist.b_email body
       /\ (forall b, Waitlist.b_brand_name body = Some b ->
           trim b = b /\ len b <= 50)
       /\ (forall c, Waitlist.b_ref body = Some c -> trim c = c)).
Proof.
  split; intros raw body H.
  - apply validateBody_Normal in H
      as (props & -> & _ & _ & _ & _ & -> & E1 & E2 & L1 & L2 & L3 & E6).
    exists props. cbn [JoinWaitlist.b_full_name JoinWaitlist.b_email
                       JoinWaitlist.b_brand_name JoinWaitlist.b_ref].
    repeat split; try assumption; try apply text_of_trimmed;
      try (now apply truthy_true_not_nil).
    + now apply (member_text_trimmed (assoc "brand_name" props)).
    + apply (member_text_trimmed (assoc "brand_name" props)) in H as (_ & ->).
      apply len_nil_or_truthy; [lia | assumption].
    + intros c Hc.
      now apply (member_text_trimmed (assoc "ref" props)) in Hc.
  - apply validateWaitlistBody_Normal in H
      as (props & -> & -> & E1 & E2 & L1 & L2 & L3 & E6).
    exists props. cbn [Waitlist.b_full_name Waitlist.b_email
                       Waitlist.b_brand_name Waitlist.b_ref].
    repeat split; try assumption; try apply text_of_trimmed;
      try (now apply truthy_true_not_nil).
    + now apply (member_text_trimmed (assoc "brand_name" props)).
    + apply (member_text_trimmed (assoc "brand_name" props)) in H as (_ & ->).
      apply len_nil_or_truthy; [lia | assumption].
    + intros c Hc.
      now apply (member_text_trimmed (assoc "ref" props)) in Hc.
Qed.

Lemma accepted_body_is_normalized_witness :
  len (JoinWaitlist.b_email Samples.grace_body) <= 200
  /\ len (Waitlist.b_email Samples.grace_body_v1) <= 50.
Proof.
  split.
  - assert (H : JoinWaitlist.validateBody
                  (JObj [("full_name", JStr (u "Grace Hopper"));
                         ("email", JStr (u " grace@example.com "));
                         ("ref", JStr (u "ADA001"))])
                = Normal Samples.grace_body) by (vm_compute; reflexivity).
    destruct (proj1 accepted_body_is_normalized _ _ H)
      as (props & _ & _ & _ & _ & _ & _ & L & _).
    exact L.
  - assert (H : Waitlist.validateWaitlistBody
                  (JObj [("full_name", JStr (u "Grace Hopper"));
                         ("email", JStr (u " grace@example.com "));
                         ("ref", JStr (u "ADA001"))])
                = Normal Samples.grace_body_v1) by (vm_compute; reflexivity).
    destruct (proj2 accepted_body_is_normalized _ _ H)
      as (props & _ & _ & _ & _ & _ & _ & L & _).
    exact L.
Defined.

Lemma truthy_text_trimmable (v : option json) :
  truthy (text_of v) = true -> trimmable v.
Proof. destruct v as [[]|]; simpl; intros H; try discriminate; exact I. Qed.

(** X7.  A rejected body is answered as a client error that names what was
    wrong.  For every object (for [ref-dashboard.ts]: whose four members are
    strings, null or absent) the validator refuses, the handler's answer is
    one of: 400 [missing_field] for the name when the trimmed name is empty,
    for the email when only the trimmed email is empty; 400 [field_too_long]
    for the name, the email or the brand name when that one is over its
    bound; 422 [invalid_email] when the email does not match the pattern.
    The handler of [waitlist.ts] answers the first five with 400
    [invalid_request_body] and the last with 422 [invalid_email].  It is
    never a server error. *)
Theorem rejected_body_is_client_error :
  (forall props e,
     trimmable (assoc "full_name" props) ->
     trimmable (assoc "email" props) ->
     trimmable (assoc "brand_name" props) ->
     trimmable (assoc "ref" props) ->
     JoinWaitlist.validateBody (JObj props) = Throw e ->
     let full_name := text_of (assoc "full_name" props) in
     let email := text_of (assoc "email" props) in
     let brand_name := text_of (assoc "brand_name" props) in
     let r := JoinWaitlist.handleError e in
     (full_name = [] /\ status r = 400 /\ error r = Some "missing_field"
      /\ field r = Some "full name")
     \/ (full_name <> [] /\ email = [] /\ status r = 400
         /\ error r = Some "missing_field" /\ field r = Some "email")
     \/ (len full_name > 50 /\ status r = 400
         /\ error r = Some "field_too_long" /\ field r = Some "full name")
     \/ (len email > 200 /\ status r = 400
         /\ error r = Some "field_too_long" /\ field r = Some "email")
     \/ (len brand_name > 70 /\ status r = 400
         /\ error r = Some "field_too_long" /\ field r = Some "brand name")
     \/ (test JoinWaitlist.EMAIL_REGEX email = false /\ status r = 422
         /\ error r = Some "invalid_email" /\ field r = None))
  /\
  (forall props e,
     Waitlist.validateWaitlistBody (JObj props) = Throw e ->
     let full_name := text_of (assoc "full_name" props) in
     let email := text_of (assoc "email" props) in
     let brand_name := text_of (assoc "brand_name" props) in
     let r := Waitlist.on_error e in
     ((full_name = [] \/ email = [] \/ len full_name > 35 \/ len email > 50
       \/ len brand_name > 50)
      /\ status r = 400 /\ error r = Some "invalid_request_body")
     \/ (test Waitlist.emailRegex email = false /\ status r = 422
         /\ error r = Some "invalid_email")).
Proof.
  split.
  - intros props e Tn Te Tb Tr H. cbv zeta.
    rewrite (validateBody_chain props Tn Te Tb Tr) in H. cbv zeta in H.
    destruct (truthy (text_of (assoc "full_name" props))) eqn:E1;
      cbn [negb] in H.
    2: { inversion H. left. apply truthy_false_nil in E1.
         repeat split; [assumption | reflexivity..]. }
    destruct (truthy (text_of (assoc "email" props))) eqn:E2;
      cbn [negb] in H.
    2: { inversion H. right; left. apply truthy_false_nil in E2.
         apply truthy_true_not_nil in E1.
         repeat split; [assumption | assumption | reflexivity..]. }
    destruct (len (text_of (assoc "full_name" props)) >? 50) eqn:E3.
    1: { inversion H. right; right; left. apply Z.gtb_lt in E3.
         repeat split; [lia | reflexivity..]. }
    destruct (len (text_of (assoc "email" props)) >? 200) eqn:E4.
    1: { inversion H. do 3 right; left. apply Z.gtb_lt in E4.
         repeat split; [lia | reflexivity..]. }
    destruct (truthy (text_of (assoc "brand_name" props))
              && (len (text_of (assoc "brand_name" props)) >? 70)) eqn:E5.
    1: { inversion H. do 4 right; left.
         apply andb_true_iff in E5 as (_ & E5). apply Z.gtb_lt in E5.
         repeat split; [lia | reflexivity..]. }
    destruct (test JoinWaitlist.EMAIL_REGEX (text_of (assoc "email" props)))
      eqn:E6; cbn [negb] in H; [discriminate|].
    inversion H. do 5 right. repeat split; reflexivity.
  - intros props e H. cbv zeta.
    rewrite (validateWaitlistBody_chain props) in H. cbv zeta in H.
    destruct (truthy (text_of (assoc "full_name" props))) eqn:E1;
      cbn [negb] in H.
    2: { inversion H. left. apply truthy_false_nil in E1.
         repeat split; [now left | reflexivity..]. }
    destruct (truthy (text_of (assoc "email" props))) eqn:E2;
      cbn [negb] in H.
    2: { inversion H. left. apply truthy_false_nil in E2.
         repeat split; [now right; left | reflexivity..]. }
    destruct (len (text_of (assoc "full_name" props)) >? 35) eqn:E3.
    1: { inversion H. left. apply Z.gtb_lt in E3.
         repeat split; [right; right; left; lia | reflexivity..]. }
    destruct (len (text_of (assoc "email" props)) >? 50) eqn:E4.
    1: { inversion H. left. apply Z.gtb_lt in E4.
         repeat split; [do 3 right; left; lia | reflexivity..]. }
    destruct (truthy (text_of (assoc "brand_name" props))
              && (len (text_of (assoc "brand_name" props)) >? 50)) eqn:E5.
    1: { inversion H. left.
         apply andb_true_iff in E5 as (_ & E5). apply Z.gtb_lt in E5.
         repeat split; [do 4 right; lia | reflexivity..]. }
    destruct (test Waitlist.emailRegex (text_of (assoc "email" props)))
      eqn:E6; cbn [negb] in H; [discriminate|].
    inversion H. right. repeat split; reflexivity.
Qed.

Lemma rejected_body_is_client_error_witness :
  status (JoinWaitlist.handleError (ErrorObj "brand_name_too_long")) = 400
  /\ status (Waitlist.on_error (ErrorObj "Invalid_email_format")) = 422.
Proof.
  split.
  - assert (H : JoinWaitlist.validateBody (JObj Samples.long_brand)
                = Throw (ErrorObj "brand_name_too_long"))
      by (vm_compute; reflexivity).
    destruct (proj1 rejected_body_is_client_error Samples.long_brand _
                I I I I H)
      as [(_ & S & _)|[(_ & _ & S & _)|[(_ & S & _)|[(_ & S & _)|
          [(_ & S & _)|(E & _)]]]]];
      [exact S.. | vm_compute in E; discriminate E].
  - assert (H : Waitlist.validateWaitlistBody (JObj Samples.no_dot)
                = Throw (ErrorObj "Invalid_email_format"))
      by (vm_compute; reflexivity).
    destruct (proj2 rejected_body_is_client_error Samples.no_dot _ H)
      as [(D & _)|(_ & S & _)]; [|exact S].
    vm_compute in D.
    destruct D as [D|[D|[D|[D|D]]]]; discriminate D.
Defined.

(** X8.  The validator of [ref-dashboard.ts] accepts whatever the validator
    of [waitlist.ts] accepts, with the same fields, as long as the
    [brand_name] and [ref] members are strings, null or absent (on another
    value its [?.trim()] call throws). *)
Theorem join_validator_extends_waitlist_validator raw body :
  Waitlist.validateWaitlistBody raw = Normal body ->
  trimmable (prop "brand_name" raw) ->
  trimmable (prop "ref" raw) ->
  JoinWaitlist.validateBody raw
  = Normal {| JoinWaitlist.b_full_name := Waitlist.b_full_name body;
              JoinWaitlist.b_email := Waitlist.b_email body;
              JoinWaitlist.b_brand_name := Waitlist.b_brand_name body;
              JoinWaitlist.b_ref := Waitlist.b_ref body |}.
Proof.
  intros H Tb Tr.
  apply validateWaitlistBody_Normal in H
    as (props & -> & -> & E1 & E2 & L1 & L2 & L3 & E6).
  cbn [prop] in Tb, Tr.
  rewrite (validateBody_chain props (truthy_text_trimmable _ E1)
             (truthy_text_trimmable _ E2) Tb Tr).
  cbv zeta. rewrite E1, E2. cbn [negb].
  rewrite (le_gtb_false _ 50), (le_gtb_false _ 200) by lia.
  replace (truthy (text_of (assoc "brand_name" props))
           && (len (text_of (assoc "brand_name" props)) >? 70)) with false.
  2: { destruct (truthy (text_of (assoc "brand_name" props)));
         [|reflexivity].
       symmetry. apply le_gtb_false. specialize (L3 eq_refl). lia. }
  change JoinWaitlist.EMAIL_REGEX with Waitlist.emailRegex.
  rewrite E6. reflexivity.
Qed.

Lemma join_validator_extends_waitlist_validator_witness :
  JoinWaitlist.validateBody
    (JObj [("full_name", JStr (u "Grace Hopper"));
           ("email", JStr (u " grace@example.com "));
           ("ref", JStr (u "ADA001"))])
  = Normal Samples.grace_body.
Proof.
  apply (join_validator_extends_waitlist_validator
           (JObj [("full_name", JStr (u "Grace Hopper"));
                  ("email", JStr (u " grace@example.com "));
                  ("ref", JStr (u "ADA001"))])
           Samples.grace_body_v1);
    [vm_compute; reflexivity | exact I | exact I].
Defined.

End ValidatorProperties.

(* ===================================================================== *)
(** * What an answer says about the table of signups *)
(* ===================================================================== *)

Section Outcomes.
Import JS Services Flow.

Lemma handleError_status (e : Thrown) :
  In (status (JoinWaitlist.handleError e)) [415; 400; 422; 503; 501; 502; 500].
Proof.
  destruct e as [m|]; unfold JoinWaitlist.handleError; cbv zeta;
    repeat match goal with
           | |- context [if ?b then _ else _] => destruct b
           end;
    cbn; tauto.
Qed.

Lemma on_error_status (e : Thrown) :
  In (status (Waitlist.on_error e)) [415; 400; 422; 503; 501; 502; 500].
Proof.
  destruct e as [m|]; unfold Waitlist.on_error;
    repeat match goal with
           | |- context [if ?b then _ else _] => destruct b
           end;
    cbn; tauto.
Qed.

Lemma handleError_not_created (e : Thrown) :
  status (JoinWaitlist.handleError e) <> 201.
Proof.
  pose proof (handleError_status e) as H. cbn [In] in H. lia.
Qed.

Lemma on_error_not_created (e : Thrown) :
  status (Waitlist.on_error e) <> 201.
Proof.
  pose proof (on_error_status e) as H. cbn [In] in H. lia.
Qed.

(** The two ways a request to the handler of [ref-dashboard.ts] ends: the
    table of signups is as it was and the answer is not 201, or the request
    was accepted, a row was inserted, the referral increment ran and the
    answer is the outcome of the confirmation. *)
Lemma join_serve_outcome w req st :
  exists resp st',
    JoinWaitlist.serve w req st = (Normal resp, st')
    /\ ((waitlist_signups st' = waitlist_signups st /\ status resp <> 201)
        \/ exists body st1 row st2,
             join_accepts w req st body st1
             /\ insert_signup w (JoinWaitlist.b_full_name body)
                  (JoinWaitlist.b_email body) (JoinWaitlist.b_brand_name body)
                  (JoinWaitlist.b_ref body) st1
                = (Normal (inl row), st2)
             /\ JoinWaitlist.handleReferralIncrement w
                  (JoinWaitlist.b_ref body) st2 = (Normal tt, st')
             /\ resp = match fst (JoinWaitlist.confirm w st') with
                       | Normal r => r
                       | Throw e => JoinWaitlist.handleError e
                       end).
Proof.
  destruct (JoinWaitlist.handleCors req) as [r|] eqn:Hc.
  { exists r, st. unfold JoinWaitlist.serve. rewrite Hc.
    split; [reflexivity|]. left. split; [reflexivity|].
    unfold JoinWaitlist.handleCors in Hc.
    destruct (String.eqb (method req) "OPTIONS");
      [inversion Hc; discriminate|].
    destruct (negb (String.eqb (method req) "POST"));
      [inversion Hc; discriminate | discriminate]. }
  assert (Hm : method req = "POST").
  { unfold JoinWaitlist.handleCors in Hc.
    destruct (String.eqb (method req) "OPTIONS"); [discriminate|].
    destruct (String.eqb (method req) "POST") eqn:E; [|discriminate].
    now apply String.eqb_eq. }
  destruct (checkRateLimit_run w (JoinWaitlist.client_ip req)
              JoinWaitlist.ENDPOINT st) as (b & st1 & Hrl & Hsig).
  rewrite checkRateLimit_same in Hrl.
  destruct b.
  2: { rewrite (join_serve_denied w req st st1 Hm Hrl).
       eexists; exists st1. split; [reflexivity|]. left.
       split; [exact Hsig | discriminate]. }
  destruct (JoinWaitlist.validateHeaders req) as [[]|e] eqn:Hh.
  2: { assert (Hne : JoinWaitlist.validateHeaders req <> Normal tt)
         by (rewrite Hh; discriminate).
       rewrite (proj1 (serve_bad_headers w req st Hm) st1 Hrl Hne).
       eexists; exists st1. split; [reflexivity|]. left.
       split; [exact Hsig | apply handleError_not_created]. }
  destruct (payload req) as [raw|m] eqn:Hp.
  2: { exists (JoinWaitlist.handleError (ErrorObj m)), st1. split.
       - unfold JoinWaitlist.serve. rewrite Hc.
         unfold bind at 1. rewrite Hrl. cbn [negb].
         unfold try_catch, JoinWaitlist.signup, bind, lift, req_json.
         now rewrite Hh, Hp.
       - left. split; [exact Hsig | apply handleError_not_created]. }
  destruct (JoinWaitlist.validateBody raw) as [body|e] eqn:Hv.
  2: { rewrite (proj1 (serve_bad_body w req st raw Hm Hp) st1 e Hrl Hh Hv).
       eexists; exists st1. split; [reflexivity|]. left.
       split; [exact Hsig | apply handleError_not_created]. }
  assert (Hacc : join_accepts w req st body st1).
  { split; [exact Hm|]. split; [exact Hrl|]. split; [exact Hh|].
    now exists raw. }
  destruct (insert_signup_run w (JoinWaitlist.b_full_name body)
              (JoinWaitlist.b_email body) (JoinWaitlist.b_brand_name body)
              (JoinWaitlist.b_ref body) st1) as (res & st2 & Hins).
  destruct res as [row|err].
  - destruct (join_serve_inserted _ _ _ _ _ _ _ Hacc Hins)
      as (st3 & Hinc & Hserve).
    rewrite Hserve.
    exists (match fst (JoinWaitlist.confirm w st3) with
            | Normal r => r
            | Throw e => JoinWaitlist.handleError e
            end), st3.
    split; [now destruct (fst (JoinWaitlist.confirm w st3))|].
    right. exists body, st1, row, st2.
    split; [exact Hacc|]. split; [exact Hins|].
    split; [exact Hinc | reflexivity].
  - pose proof (insert_signup_inr _ _ _ _ _ _ _ _ Hins) as ->.
    rewrite (join_serve_accepted _ _ _ _ _ Hacc).
    unfold try_catch, JoinWaitlist.database_operations, bind at 1.
    destruct (select_by_email_run w (JoinWaitlist.b_email body) st1)
      as (p & -> & _).
    destruct p as [p|].
    + destruct (JoinWaitlist.has_action_link (linkData (link w))) eqn:Hl.
      * destruct (send_error w) as [pe|] eqn:Hs.
        -- rewrite (existing_user_send_error w st1 pe Hl Hs).
           eexists; exists st1. split; [reflexivity|]. left.
           split; [exact Hsig | apply handleError_not_created].
        -- rewrite (existing_user_sent w st1 Hl Hs).
           eexists; exists st1. split; [reflexivity|]. left.
           split; [exact Hsig | discriminate].
      * rewrite (existing_user_link_failed w st1 Hl).
        eexists; exists st1. split; [reflexivity|]. left.
        split; [exact Hsig | apply handleError_not_created].
    + unfold JoinWaitlist.new_user, bind at 1. rewrite Hins.
      destruct (includes "duplicate" (toLowerCase (pg_message err))).
      * eexists; exists st1. split; [reflexivity|]. left.
        split; [exact Hsig | discriminate].
      * eexists; exists st1. split; [reflexivity|]. left.
        split; [exact Hsig | apply handleError_not_created].
Qed.

(** The same for the handler of [waitlist.ts]. *)
Lemma waitlist_serve_outcome w req st :
  exists resp st',
    Waitlist.serve w req st = (Normal resp, st')
    /\ ((waitlist_signups st' = waitlist_signups st /\ status resp <> 201)
        \/ exists body st1 row st2,
             waitlist_accepts w req st body st1
             /\ insert_signup w (Waitlist.b_full_name body)
                  (Waitlist.b_email body) (Waitlist.b_brand_name body)
                  (Waitlist.b_ref body) st1
                = (Normal (inl row), st2)
             /\ JoinWaitlist.handleReferralIncrement w
                  (Waitlist.b_ref body) st2 = (Normal tt, st')
             /\ resp = match fst (Waitlist.confirm w st') with
                       | Normal r => r
                       | Throw e => Waitlist.on_error e
                       end).
Proof.
  destruct (Waitlist.validateCors req) as [r|] eqn:Hc.
  { exists r, st. unfold Waitlist.serve. rewrite Hc.
    split; [reflexivity|]. left. split; [reflexivity|].
    unfold Waitlist.validateCors in Hc.
    destruct (String.eqb (method req) "OPTIONS");
      [inversion Hc; discriminate|].
    destruct (negb (String.eqb (method req) "POST"));
      [inversion Hc; discriminate | discriminate]. }
  assert (Hm : method req = "POST").
  { unfold Waitlist.validateCors in Hc.
    destruct (String.eqb (method req) "OPTIONS"); [discriminate|].
    destruct (String.eqb (method req) "POST") eqn:E; [|discriminate].
    now apply String.eqb_eq. }
  destruct (checkRateLimit_run w (Waitlist.client_ip req)
              Waitlist.endpoint_name st) as (b & st1 & Hrl & Hsig).
  destruct b.
  2: { destruct (waitlist_serve_denied w req st st1 Hm Hrl)
         as (resp & -> & Hs & _).
       exists resp, st1. split; [reflexivity|]. left.
       split; [exact Hsig | rewrite Hs; discriminate]. }
  destruct (Waitlist.validateHeaders req) as [[]|e] eqn:Hh.
  2: { assert (Hne : Waitlist.validateHeaders req <> Normal tt)
         by (rewrite Hh; discriminate).
       rewrite (proj2 (serve_bad_headers w req st Hm) st1 Hrl Hne).
       eexists; exists st1. split; [reflexivity|]. left.
       split; [exact Hsig | apply on_error_not_created]. }
  destruct (payload req) as [raw|m] eqn:Hp.
  2: { exists (Waitlist.on_error (ErrorObj m)), st1. split.
       - unfold Waitlist.serve. rewrite Hc.
         unfold bind at 1. rewrite Hrl. cbn [negb].
         unfold try_catch, Waitlist.signup, bind, lift, req_json.
         now rewrite Hh, Hp.
       - left. split; [exact Hsig | apply on_error_not_created]. }
  destruct (Waitlist.validateWaitlistBody raw) as [body|e] eqn:Hv.
  2: { rewrite (proj2 (serve_bad_body w req st raw Hm Hp) st1 e Hrl Hh Hv).
       eexists; exists st1. split; [reflexivity|]. left.
       split; [exact Hsig | apply on_error_not_created]. }
  assert (Hacc : waitlist_accepts w req st body st1).
  { split; [exact Hm|]. split; [exact Hrl|]. split; [exact Hh|].
    now exists raw. }
  destruct (insert_signup_run w (Waitlist.b_full_name body)
              (Waitlist.b_email body) (Waitlist.b_brand_name body)
              (Waitlist.b_ref body) st1) as (res & st2 & Hins).
  destruct res as [row|err].
  - destruct (waitlist_serve_inserted _ _ _ _ _ _ _ Hacc Hins)
      as (st3 & Hinc & Hserve).
    rewrite Hserve.
    exists (match fst (Waitlist.confirm w st3) with
            | Normal r => r
            | Throw e => Waitlist.on_error e
            end), st3.
    split; [now destruct (fst (Waitlist.confirm w st3))|].
    right. exists body, st1, row, st2.
    split; [exact Hacc|]. split; [exact Hins|].
    split; [exact Hinc | reflexivity].
  - pose proof (insert_signup_inr _ _ _ _ _ _ _ _ Hins) as ->.
    rewrite (waitlist_serve_accepted _ _ _ _ _ Hacc).
    unfold try_catch, Waitlist.insert_and_confirm, bind at 1. rewrite Hins.
    destruct (includes "duplicate" (toLowerCase (pg_message err)));
      eexists; exists st1; (split; [reflexivity|]); left;
      (split; [exact Hsig | discriminate]).
Qed.

(** How the confirmation of [ref-dashboard.ts] is answered. *)
Lemma join_confirm_status w st :
  let r := match fst (JoinWaitlist.confirm w st) with
           | Normal r => r
           | Throw e => JoinWaitlist.handleError e
           end in
  (status r = 201 /\ send_error w = None /\ linkError (link w) = false
   /\ JoinWaitlist.has_action_link (linkData (link w)) = true)
  \/ In (status r) [501; 502; 503].
Proof.
  cbv zeta.
  destruct (linkError (link w)
            || negb (JoinWaitlist.has_action_link (linkData (link w))))
    eqn:H.
  - rewrite (join_confirm_link_failed w st H). right. cbn. tauto.
  - destruct (send_error w) as [e|] eqn:Hs.
    + rewrite (join_confirm_send_error w st e H Hs). right.
      destruct (JoinWaitlist.is_quota_error e); cbn; tauto.
    + rewrite (join_confirm_sent w st H Hs). left.
      apply orb_false_iff in H as (H1 & H2).
      apply negb_false_iff in H2. repeat split; assumption.
Qed.

(** How the confirmation of [waitlist.ts] is answered. *)
Lemma waitlist_confirm_status w st :
  let r := match fst (Waitlist.confirm w st) with
           | Normal r => r
           | Throw e => Waitlist.on_error e
           end in
  (status r = 201 /\ send_error w = None /\ linkError (link w) = false
   /\ exists d p, linkData (link w) = Some d /\ properties d = Some p)
  \/ In (status r) [500; 501; 502; 503].
Proof.
  cbv zeta.
  unfold Waitlist.confirm, bind, generateLink, resend_emails_send, throw, ret.
  destruct (linkError (link w)) eqn:H; [right; cbn; tauto|].
  destruct (linkData (link w)) as [d|] eqn:Hd; [|right; cbn; tauto].
  destruct (properties d) as [p|] eqn:Hp; [|right; cbn; tauto].
  destruct (send_error w) as [e|] eqn:Hs.
  - right. destruct (Waitlist.is_quota_error e); cbn; tauto.
  - left. repeat split. now exists d, p.
Qed.

(** X10.  Only a new signup changes the table of signups, and the answer
    tells.  After any request, whatever the services answer, either the
    table of signups is as it was, or the request was a POST, the table has
    exactly one row more, and the answer is 201, 501, 502 or 503 (in
    [waitlist.ts] also 500, when the link data holds no properties).  Any
    other answer (200, 204, 400, 405, 409, 415, 422, 429; 500 in
    [ref-dashboard.ts]) says that no row was added and no count changed. *)
Theorem only_new_signups_change_the_table :
  forall w req st,
    (exists resp st',
       JoinWaitlist.serve w req st = (Normal resp, st')
       /\ (waitlist_signups st' = waitlist_signups st
           \/ (method req = "POST"
               /\ List.length (waitlist_signups st')
                  = S (List.length (waitlist_signups st))
               /\ In (status resp) [201; 501; 502; 503])))
    /\
    (exists resp st',
       Waitlist.serve w req st = (Normal resp, st')
       /\ (waitlist_signups st' = waitlist_signups st
           \/ (method req = "POST"
               /\ List.length (waitlist_signups st')
                  = S (List.length (waitlist_signups st))
               /\ In (status resp) [201; 500; 501; 502; 503]))).
Proof.
  intros w req st. split.
  - destruct (join_serve_outcome w req st)
      as (resp & st' & Hs & [(Hsame & _)|
          (body & st1 & row & st2 & Hacc & Hins & Hinc & ->)]).
    + exists resp, st'. split; [exact Hs | now left].
    + eexists; exists st'. split; [exact Hs|]. right.
      split; [exact (proj1 Hacc)|]. split.
      * rewrite <- (join_accepts_signups _ _ _ _ _ Hacc).
        exact (proj2 (inserted_row_stays _ _ _ _ _ _ _ _ _ _ Hins Hinc)).
      * destruct (join_confirm_status w st') as [(-> & _)|H];
          cbn [In] in *; tauto.
  - destruct (waitlist_serve_outcome w req st)
      as (resp & st' & Hs & [(Hsame & _)|
          (body & st1 & row & st2 & Hacc & Hins & Hinc & ->)]).
    + exists resp, st'. split; [exact Hs | now left].
    + eexists; exists st'. split; [exact Hs|]. right.
      split; [exact (proj1 Hacc)|]. split.
      * rewrite <- (waitlist_accepts_signups _ _ _ _ _ Hacc).
        exact (proj2 (inserted_row_stays _ _ _ _ _ _ _ _ _ _ Hins Hinc)).
      * destruct (waitlist_confirm_status w st') as [(-> & _)|H];
          cbn [In] in *; tauto.
Qed.

(** X11.  A 201 means the signup is stored; of the mail it only means
    that the send call did not throw.  When a handler answers 201, the
    request was an accepted POST whose email the table did not hold, the
    table has one row more and holds a row with the validated name, email,
    brand name and ref code of the request, the creation time and the
    referral code the datastore gave it; link generation had answered
    without error, with an action link in [ref-dashboard.ts] and with link
    data and properties in [waitlist.ts] (an action link is not asked
    for), and the send call had resolved.  What it resolved with is not
    looked at: a mail the provider refused is answered 201 as well.  First
    conjunct: [ref-dashboard.ts]; second: [waitlist.ts]. *)
Theorem created_means_stored :
  (forall w req st resp st',
     JoinWaitlist.serve w req st = (Normal resp, st') ->
     status resp = 201 ->
     exists body st1 row,
       join_accepts w req st body st1
       /\ existsb (has_email (JoinWaitlist.b_email body)) (waitlist_signups st)
          = false
       /\ In row (waitlist_signups st')
       /\ full_name row = JoinWaitlist.b_full_name body
       /\ email row = JoinWaitlist.b_email body
       /\ brand_name row = JoinWaitlist.b_brand_name body
       /\ referred_by row = JoinWaitlist.b_ref body
       /\ created_at row = now w
       /\ referral_code row = new_referral_code w
       /\ List.length (waitlist_signups st')
          = S (List.length (waitlist_signups st))
       /\ send_error w = None
       /\ linkError (link w) = false
       /\ JoinWaitlist.has_action_link (linkData (link w)) = true)
  /\
  (forall w req st resp st',
     Waitlist.serve w req st = (Normal resp, st') ->
     status resp = 201 ->
     exists body st1 row,
       waitlist_accepts w req st body st1
       /\ existsb (has_email (Waitlist.b_email body)) (waitlist_signups st)
          = false
       /\ In row (waitlist_signups st')
       /\ full_name row = Waitlist.b_full_name body
       /\ email row = Waitlist.b_email body
       /\ brand_name row = Waitlist.b_brand_name body
       /\ referred_by row = Waitlist.b_ref body
       /\ created_at row = now w
       /\ referral_code row = new_referral_code w
       /\ List.length (waitlist_signups st')
          = S (List.length (waitlist_signups st))
       /\ send_error w = None
       /\ linkError (link w) = false
       /\ exists d p, linkData (link w) = Some d /\ properties d = Some p).
Proof.
  split; intros w req st resp st' Hserve H201.
  - destruct (join_serve_outcome w req st)
      as (resp0 & st0 & Hs & Hcase).
    rewrite Hserve in Hs. inversion Hs; subst resp0 st0. clear Hs.
    destruct Hcase as [(_ & Hne)|
      (body & st1 & row & st2 & Hacc & Hins & Hinc & Hresp)];
      [contradiction|].
    destruct (join_confirm_status w st') as [(_ & Hsend & Hl & Ha)|Hbad].
    2: { rewrite <- Hresp, H201 in Hbad. cbn [In] in Hbad.
         exfalso. lia. }
    destruct (inserted_row_stays _ _ _ _ _ _ _ _ _ _ Hins Hinc)
      as ((r' & Hin & Hsame) & Hlen).
    destruct (insert_signup_inl _ _ _ _ _ _ _ _ Hins)
      as (_ & He & _ & Hrow & _).
    destruct Hsame as (_ & Sn & Se & Sb & Sc & Sr & Sby).
    rewrite Hrow in Sn, Se, Sb, Sc, Sr, Sby.
    cbn [full_name email brand_name created_at referral_code referred_by]
      in Sn, Se, Sb, Sc, Sr, Sby.
    rewrite (join_accepts_signups _ _ _ _ _ Hacc) in He, Hlen.
    exists body, st1, r'.
    split; [exact Hacc|]. repeat (split; [assumption|]). exact Ha.
  - destruct (waitlist_serve_outcome w req st)
      as (resp0 & st0 & Hs & Hcase).
    rewrite Hserve in Hs. inversion Hs; subst resp0 st0. clear Hs.
    destruct Hcase as [(_ & Hne)|
      (body & st1 & row & st2 & Hacc & Hins & Hinc & Hresp)];
      [contradiction|].
    destruct (waitlist_confirm_status w st')
      as [(_ & Hsend & Hl & d & p & Hd & Hp)|Hbad].
    2: { rewrite <- Hresp, H201 in Hbad. cbn [In] in Hbad.
         exfalso. lia. }
    destruct (inserted_row_stays _ _ _ _ _ _ _ _ _ _ Hins Hinc)
      as ((r' & Hin & Hsame) & Hlen).
    destruct (insert_signup_inl _ _ _ _ _ _ _ _ Hins)
      as (_ & He & _ & Hrow & _).
    destruct Hsame as (_ & Sn & Se & Sb & Sc & Sr & Sby).
    rewrite Hrow in Sn, Se, Sb, Sc, Sr, Sby.
    cbn [full_name email brand_name created_at referral_code referred_by]
      in Sn, Se, Sb, Sc, Sr, Sby.
    rewrite (waitlist_accepts_signups _ _ _ _ _ Hacc) in He, Hlen.
    exists body, st1, r'.
    split; [exact Hacc|]. split; [exact He|]. split; [exact Hin|].
    repeat (split; [assumption|]). now exists d, p.
Qed.

Lemma created_means_stored_witness :
  exists row,
    In row (waitlist_signups
              (snd (JoinWaitlist.serve Samples.world Samples.grace_request
                      Samples.with_ada)))
    /\ email row = u "grace@example.com"
    /\ referred_by row = Some (u "ADA001").
Proof.
  destruct (proj1 created_means_stored Samples.world Samples.grace_request
              Samples.with_ada _ _ eq_refl eq_refl)
    as (body & st1 & row & (_ & _ & _ & raw & Hp & Hv) & _ & Hin & _ & He
        & _ & Hr & _).
  exists row. split; [exact Hin|].
  inversion Hp; subst raw.
  assert (Hb : body = Samples.grace_body)
    by (vm_compute in Hv; now inversion Hv).
  rewrite Hb in He, Hr. split; [exact He | exact Hr].
Defined.

End Outcomes.

(* ===================================================================== *)
(** * The table of signups over a sequence of requests *)
(* ===================================================================== *)

Section Histories.
Import JS Services Flow Sequences.

Lemma same_signup_refl (r : WaitlistSignup) : same_signup r r.
Proof. repeat split. Qed.

Lemma same_signup_trans (a b c : WaitlistSignup) :
  same_signup a b -> same_signup b c -> same_signup a c.
Proof.
  intros (A1 & A2 & A3 & A4 & A5 & A6 & A7) (B1 & B2 & B3 & B4 & B5 & B6 & B7).
  repeat split; congruence.
Qed.

Lemma credit_grows (c : ustring) (r : WaitlistSignup) :
  same_signup r (credit c r) /\ count_of r <= count_of (credit c r).
Proof.
  unfold credit. destruct (has_code c r).
  - split; [repeat split|]. unfold count_of at 2. cbn. lia.
  - split; [apply same_signup_refl | lia].
Qed.

(** One step of the table keeps every row, up to a count that does not
    go down, and adds at most one row. *)
Lemma signups_step_keeps l l' :
  signups_step l l' ->
  (List.length l <= List.length l' <= S (List.length l))%nat
  /\ forall r, In r l ->
       exists r', In r' l' /\ same_signup r r' /\ count_of r <= count_of r'.
Proof.
  intros [->|(row & _ & _ & [->|(c & ->)])].
  - split; [lia|]. intros r Hr. exists r.
    split; [exact Hr|]. split; [apply same_signup_refl | lia].
  - split; [rewrite length_app; simpl; lia|]. intros r Hr. exists r.
    split; [apply in_or_app; now left|].
    split; [apply same_signup_refl | lia].
  - split; [rewrite length_map, length_app; simpl; lia|]. intros r Hr.
    exists (credit c r).
    split; [apply in_map, in_or_app; now left | apply credit_grows].
Qed.

Lemma serve_by_step h w req st :
  signups_step (waitlist_signups st)
    (waitlist_signups (snd (serve_by h w req st))).
Proof.
  destruct h; cbn [serve_by].
  - destruct (join_serve_total w req st) as (resp & st' & -> & Hstep).
    exact Hstep.
  - destruct (waitlist_serve_total w req st) as (resp & st' & -> & Hstep).
    exact Hstep.
Qed.

(** X1.  What the table of signups keeps over any sequence of requests to
    the two signup handlers, in any order and whatever the services answer
    to each: emails and referral codes stay unique; no row is removed or
    rewritten, its referral count apart, and no count goes down; the table
    grows by at most one row per request. *)
Theorem signups_table_invariants (calls : list Call) (st : Store) :
  keys_unique (waitlist_signups st) ->
  keys_unique (waitlist_signups (after calls st))
  /\ (List.length (waitlist_signups st)
      <= List.length (waitlist_signups (after calls st))
      <= List.length (waitlist_signups st) + List.length calls)%nat
  /\ forall r, In r (waitlist_signups st) ->
       exists r', In r' (waitlist_signups (after calls st))
                  /\ same_signup r r' /\ count_of r <= count_of r'.
Proof.
  revert st. induction calls as [|c calls IH]; intros st Hk.
  - cbn [after]. split; [exact Hk|]. split; [simpl; lia|].
    intros r Hr. exists r.
    split; [exact Hr|]. split; [apply same_signup_refl | lia].
  - cbn [after].
    pose proof (serve_by_step (handler c) (world c) (request c) st) as Hstep.
    set (st1 := snd (serve_by (handler c) (world c) (request c) st)) in *.
    destruct (signups_step_keeps _ _ Hstep) as (Hlen & Hrows).
    destruct (IH st1 (signups_step_keys _ _ Hstep Hk))
      as (Hk' & Hlen' & Hrows').
    split; [exact Hk'|]. split; [simpl; lia|].
    intros r Hr.
    destruct (Hrows r Hr) as (r1 & Hin1 & Hs1 & Hc1).
    destruct (Hrows' r1 Hin1) as (r2 & Hin2 & Hs2 & Hc2).
    exists r2. split; [exact Hin2|].
    split; [exact (same_signup_trans _ _ _ Hs1 Hs2) | lia].
Qed.

(** Ada signs up, Grace signs up with Ada's code at the other handler, Ada
    signs up again: Ada's row is still there, with one referral. *)
Lemma signups_table_invariants_witness :
  exists r',
    In r' (waitlist_signups
             (after [ {| handler := WaitlistFunction;
                         world := Samples.world;
                         request := Samples.grace_request |};
                      {| handler := RefDashboard;
                         world := Samples.world;
                         request := Samples.ada_request |} ]
                Samples.with_ada))
    /\ same_signup Samples.ada_row r'
    /\ count_of Samples.ada_row <= count_of r'.
Proof.
  apply (signups_table_invariants _ Samples.with_ada).
  - split; repeat constructor; simpl; intuition discriminate.
  - simpl. now left.
Defined.

End Histories.

(* ===================================================================== *)
(** * The dashboard handler *)
(* ===================================================================== *)

Section DashboardFacts.
Import JS Services Flow Recency.

Lemma startsWith_slice (p s : string) :
  startsWith p s = true -> s = (p ++ Dashboard.slice (String.length p) s)%string.
Proof.
  unfold startsWith. revert s.
  induction p as [|a p IH]; intros s H; [reflexivity|].
  destruct s as [|b s]; [discriminate|]. simpl in H.
  destruct (Ascii.ascii_dec a b) as [->|]; [|discriminate].
  simpl. f_equal. now apply IH.
Qed.

Lemma startsWith_append (p s : string) : startsWith p (p ++ s) = true.
Proof.
  unfold startsWith. induction p as [|a p IH]; simpl.
  - now destruct s.
  - destruct (Ascii.ascii_dec a a) as [_|n]; [exact IH | now elim n].
Qed.

Lemma or_zero_count (r : WaitlistSignup) :
  Dashboard.or_zero (referral_count r) = count_of r.
Proof.
  unfold Dashboard.or_zero, count_of.
  destruct (referral_count r) as [n|]; [|reflexivity].
  cbn [nullish]. destruct (n =? 0) eqn:E; [|reflexivity].
  apply Z.eqb_eq in E. now subst.
Qed.

Lemma filter_single_inv {A} (f : A -> bool) (l : list A) (x : A) :
  filter f l = [x] ->
  In x l /\ f x = true /\ forall y, In y l -> f y = true -> y = x.
Proof.
  intros H.
  assert (Hx : In x (filter f l)) by (rewrite H; now left).
  apply filter_In in Hx as (Hin & Hf).
  split; [exact Hin|]. split; [exact Hf|].
  intros y Hy Hfy.
  assert (Hy' : In y (filter f l)) by (apply filter_In; now split).
  rewrite H in Hy'. destruct Hy' as [<-|[]]. reflexivity.
Qed.

Lemma insert_recent_perm (r : WaitlistSignup) (l : list WaitlistSignup) :
  Permutation (Dashboard.insert_recent r l) (r :: l).
Proof.
  induction l as [|x l IH]; [reflexivity|]. simpl.
  destruct (created_at x <=? created_at r); [reflexivity|].
  rewrite IH. apply perm_swap.
Qed.

Lemma order_recent_perm (l : list WaitlistSignup) :
  Permutation (Dashboard.order_recent l) l.
Proof.
  induction l as [|r l IH]; [reflexivity|]. simpl.
  rewrite insert_recent_perm. now constructor.
Qed.

Lemma insert_recent_sorted (r : WaitlistSignup) (l : list WaitlistSignup) :
  StronglySorted not_older l ->
  StronglySorted not_older (Dashboard.insert_recent r l).
Proof.
  induction l as [|x l IH]; intros Hs; simpl.
  - repeat constructor.
  - inversion Hs as [|? ? Hs' Hx]; subst.
    destruct (created_at x <=? created_at r) eqn:E.
    + apply Z.leb_le in E. constructor; [exact Hs|].
      constructor; [exact E|].
      eapply Forall_impl; [|exact Hx].
      unfold not_older. intros a Ha. lia.
    + apply Z.leb_gt in E. constructor; [now apply IH|].
      eapply Permutation_Forall;
        [symmetry; apply insert_recent_perm|].
      constructor; [unfold not_older; lia | exact Hx].
Qed.

Lemma order_recent_sorted (l : list WaitlistSignup) :
  StronglySorted not_older (Dashboard.order_recent l).
Proof.
  induction l as [|r l IH]; simpl; [constructor|].
  now apply insert_recent_sorted.
Qed.

Lemma strongly_sorted_firstn {A} (R : A -> A -> Prop) (n : nat) (l : list A) :
  StronglySorted R l -> StronglySorted R (firstn n l).
Proof.
  revert l. induction n as [|n IH]; intros l Hs; [constructor|].
  destruct l as [|x l]; [constructor|]. simpl.
  inversion Hs as [|? ? Hs' Hx]; subst.
  constructor; [now apply IH|].
  apply Forall_forall. intros y Hy.
  eapply Forall_forall; [exact Hx|]. eapply firstn_incl; exact Hy.
Qed.

Lemma strongly_sorted_split {A} (R : A -> A -> Prop) (l1 l2 : list A) :
  StronglySorted R (l1 ++ l2) ->
  forall a b, In a l1 -> In b l2 -> R a b.
Proof.
  induction l1 as [|x l1 IH]; simpl; intros Hs a b Ha Hb; [contradiction|].
  inversion Hs as [|? ? Hs' Hx]; subst.
  destruct Ha as [->|Ha].
  - eapply Forall_forall; [exact Hx|]. apply in_or_app. now right.
  - now apply IH.
Qed.

Lemma strongly_sorted_map {A B} (f : A -> B) (R : A -> A -> Prop)
  (S : B -> B -> Prop) (l : list A) :
  (forall a b, R a b -> S (f a) (f b)) ->
  StronglySorted R l -> StronglySorted S (map f l).
Proof.
  intros HRS. induction 1 as [|x l Hs IH Hx]; simpl; constructor.
  - exact IH.
  - apply Forall_forall. intros y Hy.
    apply in_map_iff in Hy as (a & <- & Ha).
    apply HRS. eapply Forall_forall; [exact Hx | exact Ha].
Qed.

(** The requests the dashboard answers with 200, and what the answer is
    then. *)
Lemma dashboard_serve_ok w req st :
  Dashboard.status (Dashboard.serve w req st) = 200 ->
  exists h res usr row,
    Dashboard.method req = "GET"
    /\ Dashboard.authorization req = Some h
    /\ startsWith "Bearer " h = true
    /\ Dashboard.getUser w (Dashboard.slice 7 h) = Normal res
    /\ Dashboard.authError res = false
    /\ Dashboard.user res = Some usr
    /\ Dashboard.profile_error w = false
    /\ filter (has_email (nullish (Dashboard.user_email usr) (u "undefined")))
         (waitlist_signups st) = [row]
    /\ Dashboard.serve w req st
       = {| Dashboard.status := 200;
            Dashboard.body :=
              Dashboard.Success
                {| Dashboard.name := full_name row;
                   Dashboard.brand := brand_name row;
                   Dashboard.code := referral_code row;
                   Dashboard.referrals := count_of row;
                   Dashboard.joined := created_at row;
                   Dashboard.shareLink :=
                     u "https://serveqrew.org?ref=" ++ referral_code row |}
                (map Dashboard.referral_view
                   (nullish (Dashboard.select_referrals w (referral_code row)
                               st) [])) |}.
Proof.
  unfold Dashboard.serve.
  destruct (String.eqb (Dashboard.method req) "OPTIONS");
    [intros H; cbv in H; discriminate H|].
  destruct (String.eqb (Dashboard.method req) "GET") eqn:Hm; cbn [negb];
    [|intros H; cbv in H; discriminate H].
  apply String.eqb_eq in Hm.
  unfold Dashboard.dashboard.
  destruct (Dashboard.authorization req) as [h|] eqn:Ha;
    [|intros H; cbv in H; discriminate H].
  destruct (startsWith "Bearer " h) eqn:Hb;
    [|intros H; cbv in H; discriminate H].
  destruct (Dashboard.getUser w (Dashboard.slice 7 h)) as [res|e] eqn:Hg;
    cbn [cbind]; [|intros H; cbv in H; discriminate H].
  destruct (Dashboard.authError res) eqn:He;
    [intros H; cbv in H; discriminate H|].
  destruct (Dashboard.user res) as [usr|] eqn:Hu;
    [|intros H; cbv in H; discriminate H].
  unfold Dashboard.select_profile.
  destruct (Dashboard.profile_error w) eqn:Hp;
    [intros H; cbv in H; discriminate H|].
  destruct (filter _ (waitlist_signups st)) as [|row [|row2 rows]] eqn:Hf;
    cbn [single]; [intros H; cbv in H; discriminate H | |
                   intros H; cbv in H; discriminate H].
  intros _. exists h, res, usr, row.
  rewrite (or_zero_count row). repeat split; try assumption; reflexivity.
Qed.

(** X12.  The dashboard shows a profile only to a caller whose token the
    auth service resolves, and it is the caller's own.  When the handler
    answers 200, the request was a GET with an [Authorization] header
    [Bearer <token>], the auth service resolved the token to a user without
    error, the read of the profile worked, and the profile in the answer is
    that of the one row of the table whose email is the user's: name, brand,
    code, referral count (0 when null), creation time, and a share link
    that ends with the row's referral code. *)
Theorem dashboard_shows_the_callers_profile w req st :
  Dashboard.status (Dashboard.serve w req st) = 200 ->
  exists token usr row recent,
    Dashboard.method req = "GET"
    /\ Dashboard.authorization req = Some ("Bearer " ++ token)%string
    /\ Dashboard.getUser w token
       = Normal {| Dashboard.user := Some usr; Dashboard.authError := false |}
    /\ Dashboard.profile_error w = false
    /\ In row (waitlist_signups st)
    /\ email row = nullish (Dashboard.user_email usr) (u "undefined")
    /\ (forall r, In r (waitlist_signups st) -> email r = email row -> r = row)
    /\ Dashboard.body (Dashboard.serve w req st)
       = Dashboard.Success
           {| Dashboard.name := full_name row;
              Dashboard.brand := brand_name row;
              Dashboard.code := referral_code row;
              Dashboard.referrals := count_of row;
              Dashboard.joined := created_at row;
              Dashboard.shareLink :=
                u "https://serveqrew.org?ref=" ++ referral_code row |}
           recent.
Proof.
  intros H.
  destruct (dashboard_serve_ok w req st H)
    as (h & res & usr & row & Hm & Ha & Hb & Hg & He & Hu & Hp & Hf & Hs).
  apply startsWith_slice in Hb. cbn [String.length] in Hb.
  destruct (filter_single_inv _ _ _ Hf) as (Hin & Hrow & Honly).
  unfold has_email in Hrow. apply ueqb_eq in Hrow.
  exists (Dashboard.slice 7 h), usr, row. eexists.
  split; [exact Hm|]. split; [now rewrite Ha, <- Hb|].
  split; [destruct res; cbn in He, Hu; now subst|].
  split; [exact Hp|]. split; [exact Hin|]. split; [exact Hrow|].
  split; [|rewrite Hs; reflexivity].
  intros r Hr Hsame. apply Honly; [exact Hr|].
  unfold has_email. apply ueqb_eq. now rewrite Hsame.
Qed.

Lemma dashboard_shows_the_callers_profile_witness :
  exists row recent,
    In row (waitlist_signups Samples.with_grace)
    /\ email row = u "ada@example.com"
    /\ Dashboard.body
         (Dashboard.serve Visitors.world Visitors.ada_get Samples.with_grace)
       = Dashboard.Success
           {| Dashboard.name := full_name row;
              Dashboard.brand := brand_name row;
              Dashboard.code := referral_code row;
              Dashboard.referrals := count_of row;
              Dashboard.joined := created_at row;
              Dashboard.shareLink :=
                u "https://serveqrew.org?ref=" ++ referral_code row |}
           recent.
Proof.
  destruct (dashboard_shows_the_callers_profile Visitors.world
              Visitors.ada_get Samples.with_grace eq_refl)
    as (token & usr & row & recent & _ & Ha & Hg & _ & Hin & He & _ & Hb).
  exists row, recent. split; [exact Hin|]. split; [|exact Hb].
  inversion Ha; subst token. cbv in Hg. inversion Hg; subst usr.
  exact He.
Defined.

(** X13.  The recent referrals of a 200 answer are the latest signups that
    carry the profile's code.  They are at most 50, listed from the latest
    to the earliest, each the view of a row whose [referred_by] is the
    code; when the read of the referrals works, the rows shown together
    with the rows left out are exactly the rows carrying the code, no row
    left out joined later than a row shown, and [min 50 n] of [n] rows are
    shown; when the read fails the answer is still 200, with an empty
    list. *)
Theorem recent_referrals_are_the_latest w req st p recent :
  Dashboard.serve w req st
  = {| Dashboard.status := 200; Dashboard.body := Dashboard.Success p recent |} ->
  let carrying :=
    filter (Dashboard.referred_by_code (Dashboard.code p))
      (waitlist_signups st) in
  (List.length recent <= 50)%nat
  /\ StronglySorted listed_before recent
  /\ (forall x, In x recent ->
        exists row, In row (waitlist_signups st)
                    /\ referred_by row = Some (Dashboard.code p)
                    /\ x = Dashboard.referral_view row)
  /\ (Dashboard.referrals_error w = true -> recent = [])
  /\ (Dashboard.referrals_error w = false ->
      exists shown rest,
        recent = map Dashboard.referral_view shown
        /\ Permutation (shown ++ rest) carrying
        /\ (forall a b, In a shown -> In b rest -> not_older a b)
        /\ List.length shown = Nat.min 50 (List.length carrying)).
Proof.
  intros Hserve.
  assert (H200 : Dashboard.status (Dashboard.serve w req st) = 200)
    by now rewrite Hserve.
  destruct (dashboard_serve_ok w req st H200)
    as (h & res & usr & row & _ & _ & _ & _ & _ & _ & _ & _ & Hs).
  rewrite Hs in Hserve. inversion Hserve as [[Hp Hr]]. clear Hserve Hs H200.
  cbn [Dashboard.code]. cbv zeta.
  set (carrying := filter (Dashboard.referred_by_code (referral_code row))
                     (waitlist_signups st)).
  set (sorted := Dashboard.order_recent carrying).
  assert (Hshape :
            (Dashboard.referrals_error w = true
             /\ Dashboard.select_referrals w (referral_code row) st = None)
            \/ (Dashboard.referrals_error w = false
                /\ Dashboard.select_referrals w (referral_code row) st
                   = Some (firstn 50 sorted))).
  { unfold Dashboard.select_referrals.
    destruct (Dashboard.referrals_error w); [left | right]; now split. }
  destruct Hshape as [(He & ->)|(He & ->)]; cbn [nullish map].
  - split; [simpl; lia|]. split; [constructor|].
    split; [intros x []|]. split; [reflexivity | congruence].
  - assert (Hperm : Permutation sorted carrying)
      by apply order_recent_perm.
    assert (Hsorted : StronglySorted not_older sorted)
      by apply order_recent_sorted.
    split; [rewrite length_map, length_firstn; lia|].
    split.
    { apply (strongly_sorted_map Dashboard.referral_view not_older).
      - intros a b Hab. exact Hab.
      - now apply strongly_sorted_firstn. }
    split.
    { intros x Hx. apply in_map_iff in Hx as (r & <- & Hin).
      apply firstn_incl in Hin.
      apply (Permutation_in _ Hperm) in Hin.
      apply filter_In in Hin as (Hin & Hby).
      exists r. split; [exact Hin|]. split; [|reflexivity].
      unfold Dashboard.referred_by_code in Hby.
      destruct (referred_by r) as [b|]; [|discriminate].
      apply ueqb_eq in Hby. now subst. }
    split; [congruence|]. intros _.
    exists (firstn 50 sorted), (skipn 50 sorted).
    split; [reflexivity|].
    split; [now rewrite firstn_skipn|].
    split.
    + apply (strongly_sorted_split not_older).
      now rewrite firstn_skipn.
    + rewrite length_firstn.
      now rewrite (Permutation_length Hperm).
Qed.

Lemma recent_referrals_are_the_latest_witness :
  exists p recent,
    Dashboard.serve Visitors.world Visitors.ada_get Samples.with_grace
    = {| Dashboard.status := 200;
         Dashboard.body := Dashboard.Success p recent |}
    /\ List.length recent = 1%nat
    /\ StronglySorted listed_before recent.
Proof.
  eexists; eexists. split; [reflexivity|]. split; [reflexivity|].
  apply (recent_referrals_are_the_latest Visitors.world Visitors.ada_get
           Samples.with_grace _ _ eq_refl).
Defined.

Lemma referred_by_code_credit (c c' : ustring) (r : WaitlistSignup) :
  Dashboard.referred_by_code c (credit c' r) = Dashboard.referred_by_code c r.
Proof. unfold credit. now destruct (has_code c' r). Qed.

Lemma filter_referred_credit (c c' : ustring) (l : list WaitlistSignup) :
  filter (Dashboard.referred_by_code c) (map (credit c') l)
  = map (credit c') (filter (Dashboard.referred_by_code c) l).
Proof.
  induction l as [|r l IH]; [reflexivity|]. simpl.
  rewrite referred_by_code_credit.
  destruct (Dashboard.referred_by_code c r); simpl; now rewrite IH.
Qed.

(** The dashboard of a referrer, read from a table in which one referral
    was credited to it and the referred row appended. *)
Lemma dashboard_after_referral dw dreq token l ada row st' :
  keys_unique l ->
  In ada l ->
  existsb (has_email (email row)) l = false ->
  referred_by row = Some (referral_code ada) ->
  waitlist_signups st' = map (credit (referral_code ada)) l ++ [row] ->
  Dashboard.method dreq = "GET" ->
  Dashboard.authorization dreq = Some ("Bearer " ++ token)%string ->
  Dashboard.getUser dw token
  = Normal {| Dashboard.user :=
                Some {| Dashboard.user_email := Some (email ada) |};
              Dashboard.authError := false |} ->
  Dashboard.profile_error dw = false ->
  Dashboard.referrals_error dw = false ->
  (List.length (filter (Dashboard.referred_by_code (referral_code ada)) l)
   < 50)%nat ->
  exists p recent,
    Dashboard.serve dw dreq st'
    = {| Dashboard.status := 200;
         Dashboard.body := Dashboard.Success p recent |}
    /\ Dashboard.code p = referral_code ada
    /\ Dashboard.referrals p = count_of ada + 1
    /\ In (Dashboard.referral_view row) recent
    /\ List.length recent
       = S (List.length
              (filter (Dashboard.referred_by_code (referral_code ada)) l)).
Proof.
  intros (Hemail & Hcode) Hin He Hby Hst' Hm Ha Hg Hp Hr Hlt.
  set (c := referral_code ada) in *.
  assert (Hcredit : credit c ada = set_count (count_of ada + 1) ada).
  { unfold credit, has_code. fold c. now rewrite ueqb_refl. }
  assert (Hprofile : filter (has_email (email ada)) (waitlist_signups st')
                     = [credit c ada]).
  { assert (E : email ada = email (credit c ada))
      by (rewrite Hcredit; reflexivity).
    rewrite E. apply filter_email_unique.
    - rewrite Hst', map_app, (proj1 (map_credit_keys c l)), <- map_app.
      exact (NoDup_snoc email ueqb ueqb_eq l row Hemail He).
    - rewrite Hst'. apply in_or_app. left. now apply in_map. }
  assert (Hcarry : filter (Dashboard.referred_by_code c) (waitlist_signups st')
                   = map (credit c) (filter (Dashboard.referred_by_code c) l)
                     ++ [row]).
  { rewrite Hst', filter_app, filter_referred_credit. simpl.
    unfold Dashboard.referred_by_code at 2. rewrite Hby.
    now rewrite ueqb_refl. }
  unfold Dashboard.serve. rewrite Hm.
  cbn [String.eqb Ascii.eqb Bool.eqb negb].
  unfold Dashboard.dashboard. rewrite Ha.
  rewrite (startsWith_append "Bearer " token).
  change (Dashboard.slice 7 ("Bearer " ++ token)) with token.
  rewrite Hg. cbn [cbind Dashboard.authError Dashboard.user
                   Dashboard.user_email nullish].
  unfold Dashboard.select_profile. rewrite Hp, Hprofile. cbn [single].
  unfold Dashboard.select_referrals. rewrite Hr.
  rewrite Hcredit.
  cbn [full_name brand_name referral_code referral_count created_at set_count
       nullish].
  fold c. rewrite Hcarry.
  set (carrying := map (credit c) (filter (Dashboard.referred_by_code c) l)
                   ++ [row]).
  assert (Hlen : List.length carrying
                 = S (List.length (filter (Dashboard.referred_by_code c) l))).
  { unfold carrying. rewrite length_app, length_map. simpl. lia. }
  assert (Hperm : Permutation (Dashboard.order_recent carrying) carrying)
    by apply order_recent_perm.
  rewrite firstn_all2 by (rewrite (Permutation_length Hperm), Hlen; lia).
  eexists; eexists. split; [reflexivity|].
  cbn [Dashboard.code Dashboard.referrals].
  split; [reflexivity|]. split.
  { unfold Dashboard.or_zero.
    destruct (count_of ada + 1 =? 0) eqn:E; [|reflexivity].
    apply Z.eqb_eq in E. now rewrite E. }
  split.
  - apply in_map. apply (Permutation_in _ (Permutation_sym Hperm)).
    unfold carrying. apply in_or_app. right. now left.
  - now rewrite length_map, (Permutation_length Hperm).
Qed.

(** The table after an insert that names an existing referrer, the
    increment going through. *)
Lemma credited_insert w fn em bn st1 row st2 st' ada :
  keys_unique (waitlist_signups st1) ->
  In ada (waitlist_signups st1) ->
  referral_code ada <> [] ->
  referrer_select_error w = false ->
  referrer_update_error w = false ->
  insert_signup w fn em bn (Some (referral_code ada)) st1
  = (Normal (inl row), st2) ->
  JoinWaitlist.handleReferralIncrement w (Some (referral_code ada)) st2
  = (Normal tt, st') ->
  waitlist_signups st'
  = map (credit (referral_code ada)) (waitlist_signups st1) ++ [row]
  /\ existsb (has_email (email row)) (waitlist_signups st1) = false
  /\ referred_by row = Some (referral_code ada)
  /\ Dashboard.referral_view row
     = {| Dashboard.r_name := fn; Dashboard.r_brand := bn;
          Dashboard.r_email := em; Dashboard.r_joined := now w |}.
Proof.
  intros (_ & Hcode) Hin Hne Hsel Hupd Hins Hinc.
  destruct (filter_code_after_insert _ _ _ _ _ _ _ _ _ Hins Hcode Hin)
    as (Hf & Hmap).
  rewrite (referral_credits w _ ada st2 Hne Hsel Hupd Hf) in Hinc.
  inversion Hinc as [Hst']. cbn [waitlist_signups].
  destruct (insert_signup_inl _ _ _ _ _ _ _ _ Hins)
    as (_ & He & _ & Hrow & _).
  split; [exact Hmap|]. rewrite Hrow. cbn [email referred_by].
  split; [exact He|]. split; reflexivity.
Qed.

Lemma text_member (v : option json) (s : ustring) :
  text_of v = s -> s <> [] -> Inputs.member_text v = Some s.
Proof.
  destruct v as [[]|]; simpl; intros <- H; try (now elim H). reflexivity.
Qed.

(** X14.  A referral shows on the referrer's dashboard.  Let the table have
    unique emails and codes and hold a row with a non-empty referral code,
    its owner having fewer than 50 referrals.  When a signup handler
    answers 201 to a request whose trimmed [ref] member is that code, the
    lookup and the update of the increment working, then a GET of the
    dashboard by the owner (token resolved to the row's email, both reads
    working) on the table the handler left is answered 200, with the
    owner's code, a referral count one higher than before, and a list of
    recent referrals one longer than before that holds the new signup:
    its trimmed name, brand name and email, and the time of the insert. *)
Theorem referral_reaches_the_dashboard
  h w req st props resp st' ada dw dreq token :
  keys_unique (waitlist_signups st) ->
  In ada (waitlist_signups st) ->
  referral_code ada <> [] ->
  payload req = Json (JObj props) ->
  text_of (assoc "ref" props) = referral_code ada ->
  referrer_select_error w = false ->
  referrer_update_error w = false ->
  Sequences.serve_by h w req st = (Normal resp, st') ->
  status resp = 201 ->
  Dashboard.method dreq = "GET" ->
  Dashboard.authorization dreq = Some ("Bearer " ++ token)%string ->
  Dashboard.getUser dw token
  = Normal {| Dashboard.user :=
                Some {| Dashboard.user_email := Some (email ada) |};
              Dashboard.authError := false |} ->
  Dashboard.profile_error dw = false ->
  Dashboard.referrals_error dw = false ->
  (List.length (filter (Dashboard.referred_by_code (referral_code ada))
                  (waitlist_signups st)) < 50)%nat ->
  exists p recent,
    Dashboard.serve dw dreq st'
    = {| Dashboard.status := 200;
         Dashboard.body := Dashboard.Success p recent |}
    /\ Dashboard.code p = referral_code ada
    /\ Dashboard.referrals p = count_of ada + 1
    /\ In {| Dashboard.r_name := text_of (assoc "full_name" props);
             Dashboard.r_brand :=
               Inputs.member_text (assoc "brand_name" props);
             Dashboard.r_email := text_of (assoc "email" props);
             Dashboard.r_joined := now w |} recent
    /\ List.length recent
       = S (List.length
              (filter (Dashboard.referred_by_code (referral_code ada))
                 (waitlist_signups st))).
Proof.
  intros Hk Hin Hne Hp Href Hsel Hupd Hserve H201 Hm Ha Hg Hpe Hre Hlt.
  assert (Hstore :
            exists row,
              waitlist_signups st'
              = map (credit (referral_code ada)) (waitlist_signups st)
                ++ [row]
              /\ existsb (has_email (email row)) (waitlist_signups st) = false
              /\ referred_by row = Some (referral_code ada)
              /\ Dashboard.referral_view row
                 = {| Dashboard.r_name := text_of (assoc "full_name" props);
                      Dashboard.r_brand :=
                        Inputs.member_text (assoc "brand_name" props);
                      Dashboard.r_email := text_of (assoc "email" props);
                      Dashboard.r_joined := now w |}).
  { destruct h; cbn [Sequences.serve_by] in Hserve.
    - destruct (join_serve_outcome w req st)
        as (resp0 & st0 & Hs & Hcase).
      rewrite Hserve in Hs. inversion Hs; subst resp0 st0. clear Hs.
      destruct Hcase as [(_ & Hno)|
        (body & st1 & row & st2 & Hacc & Hins & Hinc & _)];
        [contradiction|].
      pose proof (join_accepts_signups _ _ _ _ _ Hacc) as Hsig.
      destruct Hacc as (_ & _ & _ & raw & Hraw & Hv).
      rewrite Hp in Hraw. inversion Hraw; subst raw. clear Hraw.
      apply validateBody_Normal in Hv
        as (props' & Hprops & _ & _ & _ & _ & Hbody & _).
      inversion Hprops; subst props'. clear Hprops.
      rewrite Hbody in Hins, Hinc.
      cbn [JoinWaitlist.b_full_name JoinWaitlist.b_email
           JoinWaitlist.b_brand_name JoinWaitlist.b_ref] in Hins, Hinc.
      fold (Inputs.member_text (assoc "ref" props)) in Hins, Hinc.
      fold (Inputs.member_text (assoc "brand_name" props)) in Hins.
      rewrite (text_member _ _ Href Hne) in Hins, Hinc.
      rewrite <- Hsig in Hk, Hin.
      exists row. rewrite <- Hsig.
      exact (credited_insert _ _ _ _ _ _ _ _ _ Hk Hin Hne Hsel Hupd
               Hins Hinc).
    - destruct (waitlist_serve_outcome w req st)
        as (resp0 & st0 & Hs & Hcase).
      rewrite Hserve in Hs. inversion Hs; subst resp0 st0. clear Hs.
      destruct Hcase as [(_ & Hno)|
        (body & st1 & row & st2 & Hacc & Hins & Hinc & _)];
        [contradiction|].
      pose proof (waitlist_accepts_signups _ _ _ _ _ Hacc) as Hsig.
      destruct Hacc as (_ & _ & _ & raw & Hraw & Hv).
      rewrite Hp in Hraw. inversion Hraw; subst raw. clear Hraw.
      apply validateWaitlistBody_Normal in Hv
        as (props' & Hprops & Hbody & _).
      inversion Hprops; subst props'. clear Hprops.
      rewrite Hbody in Hins, Hinc.
      cbn [Waitlist.b_full_name Waitlist.b_email
           Waitlist.b_brand_name Waitlist.b_ref] in Hins, Hinc.
      fold (Inputs.member_text (assoc "ref" props)) in Hins, Hinc.
      fold (Inputs.member_text (assoc "brand_name" props)) in Hins.
      rewrite (text_member _ _ Href Hne) in Hins, Hinc.
      rewrite <- Hsig in Hk, Hin.
      exists row. rewrite <- Hsig.
      exact (credited_insert _ _ _ _ _ _ _ _ _ Hk Hin Hne Hsel Hupd
               Hins Hinc). }
  destruct Hstore as (row & Hst' & He & Hby & Hview).
  rewrite <- Hview.
  exact (dashboard_after_referral dw dreq token _ ada row st' Hk Hin He Hby
           Hst' Hm Ha Hg Hpe Hre Hlt).
Qed.

(** Grace signs up with Ada's code; Ada opens her dashboard. *)
Lemma referral_reaches_the_dashboard_witness :
  exists p recent,
    Dashboard.serve Visitors.world Visitors.ada_get
      (snd (JoinWaitlist.serve Samples.world Samples.grace_request
              Samples.with_ada))
    = {| Dashboard.status := 200;
         Dashboard.body := Dashboard.Success p recent |}
    /\ Dashboard.referrals p = 1
    /\ List.length recent = 1%nat.
Proof.
  assert (Hk : keys_unique (waitlist_signups Samples.with_ada))
    by (split; repeat constructor; simpl; intuition discriminate).
  assert (Hne : referral_code Samples.ada_row <> []) by discriminate.
  assert (Hlt : (List.length
                   (filter (Dashboard.referred_by_code
                              (referral_code Samples.ada_row))
                      (waitlist_signups Samples.with_ada)) < 50)%nat)
    by (simpl; lia).
  destruct (referral_reaches_the_dashboard Sequences.RefDashboard
              Samples.world Samples.grace_request Samples.with_ada
              [("full_name", JStr (u "Grace Hopper"));
               ("email", JStr (u " grace@example.com "));
               ("ref", JStr (u "ADA001"))]
              (respond 201 None
                 (Some "Successfully joined waitlist! Check your email for confirmation, might take some minutes before you receive it.")
                 None)
              (snd (JoinWaitlist.serve Samples.world Samples.grace_request
                      Samples.with_ada))
              Samples.ada_row Visitors.world Visitors.ada_get "ada-token"
              Hk (or_introl eq_refl) Hne eq_refl eq_refl eq_refl eq_refl
              eq_refl eq_refl eq_refl eq_refl eq_refl eq_refl eq_refl Hlt)
    as (p & recent & Hs & _ & Hc & _ & Hl).
  exists p, recent. split; [exact Hs|]. split; [exact Hc | exact Hl].
Defined.

(** X16.  Whoever has signed up can open their dashboard.  In a table with
    unique emails, a GET with [Authorization: Bearer <token>] whose token
    the auth service resolves, without error, to the email of a row is
    answered 200 with the profile of that row, whenever the read of the
    profile works; a failing read of the referrals does not change
    this. *)
Theorem signed_up_user_gets_their_dashboard dw dreq token st row usr :
  keys_unique (waitlist_signups st) ->
  In row (waitlist_signups st) ->
  Dashboard.method dreq = "GET" ->
  Dashboard.authorization dreq = Some ("Bearer " ++ token)%string ->
  Dashboard.getUser dw token
  = Normal {| Dashboard.user := Some usr; Dashboard.authError := false |} ->
  Dashboard.user_email usr = Some (email row) ->
  Dashboard.profile_error dw = false ->
  exists recent,
    Dashboard.serve dw dreq st
    = {| Dashboard.status := 200;
         Dashboard.body :=
           Dashboard.Success
             {| Dashboard.name := full_name row;
                Dashboard.brand := brand_name row;
                Dashboard.code := referral_code row;
                Dashboard.referrals := count_of row;
                Dashboard.joined := created_at row;
                Dashboard.shareLink :=
                  u "https://serveqrew.org?ref=" ++ referral_code row |}
             recent |}.
Proof.
  intros (Hemail & _) Hin Hm Ha Hg Hu Hp.
  unfold Dashboard.serve. rewrite Hm.
  cbn [String.eqb Ascii.eqb Bool.eqb negb].
  unfold Dashboard.dashboard. rewrite Ha.
  rewrite (startsWith_append "Bearer " token).
  change (Dashboard.slice 7 ("Bearer " ++ token)) with token.
  rewrite Hg. cbn [cbind Dashboard.authError Dashboard.user].
  rewrite Hu. cbn [nullish].
  unfold Dashboard.select_profile.
  rewrite Hp, (filter_email_unique _ _ Hemail Hin). cbn [single].
  rewrite (or_zero_count row). eexists. reflexivity.
Qed.

Lemma signed_up_user_gets_their_dashboard_witness :
  Dashboard.status
    (Dashboard.serve Visitors.world Visitors.ada_get Samples.with_grace)
  = 200.
Proof.
  assert (Hk : keys_unique (waitlist_signups Samples.with_grace))
    by (split; repeat constructor; simpl; intuition discriminate).
  destruct (signed_up_user_gets_their_dashboard Visitors.world
              Visitors.ada_get "ada-token" Samples.with_grace
              Samples.ada_row Visitors.ada_user Hk (or_introl eq_refl)
              eq_refl eq_refl eq_refl eq_refl eq_refl)
    as (recent & ->).
  reflexivity.
Defined.

End DashboardFacts.
